(** * Bundle lifecycle of the Electron updater: a shallow embedding

    The development follows the main-process sources:
    - [StorageManager] (storage.ts): the in-memory document [data], the
      storage file and the bundle directories;
    - [BundleManager] (bundle-manager.ts): activation, deletion, rollback;
    - [DelayManager] (delay-manager.ts): the date condition;
    - [CryptoManager] (crypto.ts): session-key parsing.

    Asynchronous methods are functions in a state-and-exception monad over
    the storage manager: a rejected promise is [Throw], and every mutation
    made before the rejection stays in the state, as in the source. *)

From stdpp Require Import gmap strings list fin_maps.
From Stdlib Require Import ZArith Ascii.

(** ** Shared types (shared/types.ts) *)

Inductive BundleStatus := pending | downloading | success | error.

#[global] Instance BundleStatus_eq_dec : EqDecision BundleStatus.
Proof. solve_decision. Defined.

Record BundleInfo := mkBundleInfo {
  id : string;
  version : string;
  downloaded : string;
  checksum : string;
  status : BundleStatus;
}.

#[global] Instance BundleInfo_eq_dec : EqDecision BundleInfo.
Proof. solve_decision. Defined.

(** [bundle.status = 'error'] *)
Definition markError (b : BundleInfo) : BundleInfo :=
  {| id := id b; version := version b; downloaded := downloaded b;
     checksum := checksum b; status := error |}.

Record UpdateFailedEvent := mkUpdateFailedEvent { bundle : BundleInfo }.

Inductive DelayConditionKind := background | kill | date | nativeVersion.

Record DelayCondition := mkDelayCondition {
  kind : DelayConditionKind;
  value : option string;
}.

Record BundleManifest := mkBundleManifest {
  bundles : gmap string BundleInfo;
  currentBundleId : string;
  nextBundleId : option string;
  lastSuccessfulBundleId : option string;
  failedUpdate : option UpdateFailedEvent;
  delayConditions : list DelayCondition;
  customId : option string;
  channel : option string;
}.

Record StorageData := mkStorageData {
  deviceId : string;
  manifest : BundleManifest;
  updateUrl : option string;
  statsUrl : option string;
  channelUrl : option string;
  appId : option string;
}.

(** The field [bundle] of the source is [cur_bundle] here; [bundle] is the
    field of [UpdateFailedEvent]. *)
Record CurrentBundleResult := mkCurrentBundleResult {
  cur_bundle : BundleInfo;
  native : string;
}.

(** The result of [applyPendingUpdate]. *)

Record ApplyResult := mkApplyResult {
  applied : bool;
  bundleId : string;
}.

(** shared/constants.ts is not among the sources; its test pins the value:
    [expect(BUILTIN_BUNDLE_ID).toBe('builtin')]. *)
Definition BUILTIN_BUNDLE_ID : string := "builtin".

(** JavaScript truthiness of a [string | null]: [null] and the empty string
    are falsy. *)
Definition truthy (o : option string) : bool :=
  match o with
  | None => false
  | Some s => negb (bool_decide (s = ""))
  end.

(** ** Exceptions and the monad of asynchronous methods *)

Inductive Exn :=
| Error (message : string)   (* [throw new Error(message)] *)
| FsError.                   (* a rejected [fs.promises] call *)

Inductive Outcome (A : Type) :=
| Ok (a : A)
| Throw (e : Exn).
Arguments Ok {A} a.
Arguments Throw {A} e.

(** The file system as the storage manager sees it.  Paths are abstracted:
    the storage file holds the last document written, and there is one
    directory per bundle id.  [writeFaults] and [rmFaults] script the
    outcome of the coming [fs.promises.writeFile] and [fs.promises.rm]
    calls ([true]: the call rejects); an exhausted script means success. *)
Record FileSystem := mkFileSystem {
  storageFile : option StorageData;
  bundleDirs : gset string;
  writeFaults : list bool;
  rmFaults : list bool;
}.

(** The storage manager's state: [private data: StorageData | null]
    together with the disk it owns. *)
Record Storage := mkStorage {
  data : option StorageData;
  disk : FileSystem;
}.

(** An asynchronous method: the storage manager goes in, the settled promise
    and the storage manager come out. *)
Definition Async (A : Type) : Type := Storage → Outcome A * Storage.

#[global] Instance Async_ret : MRet Async := λ A a s, (Ok a, s).

#[global] Instance Async_bind : MBind Async := λ A B f m s,
  match m s with
  | (Ok a, s') => f a s'
  | (Throw e, s') => (Throw e, s')
  end.

Definition throw {A} (e : Exn) : Async A := λ s, (Throw e, s).

(** [try { await m } catch { h }] *)
Definition try_catch {A} (m : Async A) (h : Exn → Async A) : Async A := λ s,
  match m s with
  | (Ok a, s') => (Ok a, s')
  | (Throw e, s') => h e s'
  end.

(** [promise.catch(() => {})] *)
Definition catch_ignore (m : Async unit) : Async unit :=
  try_catch m (λ _, mret tt).

Definition gets {A} (f : Storage → A) : Async A := λ s, (Ok (f s), s).

Definition modify (f : Storage → Storage) : Async unit := λ s, (Ok tt, f s).

Module StorageManager.

Definition createDefaultManifest : BundleManifest :=
  {| bundles := ∅;
     currentBundleId := BUILTIN_BUNDLE_ID;
     nextBundleId := None;
     lastSuccessfulBundleId := None;
     failedUpdate := None;
     delayConditions := [];
     customId := None;
     channel := None |}.

(** [crypto.randomUUID()] is passed in. *)
Definition createDefaultStorage (uuid : string) : StorageData :=
  {| deviceId := uuid; manifest := createDefaultManifest;
     updateUrl := None; statsUrl := None; channelUrl := None;
     appId := None |}.

(** [if (this.data) { this.data.manifest.<field> = ... }] *)
Definition updManifest (f : BundleManifest → BundleManifest) (s : Storage) : Storage :=
  match data s with
  | Some d =>
      {| data := Some {| deviceId := deviceId d; manifest := f (manifest d);
                         updateUrl := updateUrl d; statsUrl := statsUrl d;
                         channelUrl := channelUrl d; appId := appId d |};
         disk := disk s |}
  | None => s
  end.

Definition getManifest (s : Storage) : BundleManifest :=
  match data s with
  | Some d => manifest d
  | None => createDefaultManifest
  end.

(** [this.data?.manifest.bundles[bundleId] ?? null], among the entries of
    the map.  The names that a plain object inherits from
    [Object.prototype] are no entries: for one of them that the map does
    not own, the source's lookup finds a function where this one finds
    nothing ([inheritedProperty] tells them). *)
Definition getBundle (bundleId : string) (s : Storage) : option BundleInfo :=
  match data s with
  | Some d => bundles (manifest d) !! bundleId
  | None => None
  end.

Definition setBundle (bundleId : string) (b : BundleInfo) : Storage → Storage :=
  updManifest (λ m,
    {| bundles := <[bundleId := b]> (bundles m);
       currentBundleId := currentBundleId m;
       nextBundleId := nextBundleId m;
       lastSuccessfulBundleId := lastSuccessfulBundleId m;
       failedUpdate := failedUpdate m;
       delayConditions := delayConditions m;
       customId := customId m; channel := channel m |}).

Definition deleteBundle (bundleId : string) : Storage → Storage :=
  updManifest (λ m,
    {| bundles := delete bundleId (bundles m);
       currentBundleId := currentBundleId m;
       nextBundleId := nextBundleId m;
       lastSuccessfulBundleId := lastSuccessfulBundleId m;
       failedUpdate := failedUpdate m;
       delayConditions := delayConditions m;
       customId := customId m; channel := channel m |}).

(** [Object.values(bundles)]; the order of the values is not modelled. *)
Definition getAllBundles (s : Storage) : list BundleInfo :=
  match data s with
  | Some d => (map_to_list (bundles (manifest d))).*2
  | None => []
  end.

Definition getCurrentBundleId (s : Storage) : string :=
  match data s with
  | Some d => currentBundleId (manifest d)
  | None => BUILTIN_BUNDLE_ID
  end.

Definition setCurrentBundleId (bundleId : string) : Storage → Storage :=
  updManifest (λ m,
    {| bundles := bundles m;
       currentBundleId := bundleId;
       nextBundleId := nextBundleId m;
       lastSuccessfulBundleId := lastSuccessfulBundleId m;
       failedUpdate := failedUpdate m;
       delayConditions := delayConditions m;
       customId := customId m; channel := channel m |}).

Definition getNextBundleId (s : Storage) : option string :=
  match data s with
  | Some d => nextBundleId (manifest d)
  | None => None
  end.

Definition setNextBundleId (bundleId : option string) : Storage → Storage :=
  updManifest (λ m,
    {| bundles := bundles m;
       currentBundleId := currentBundleId m;
       nextBundleId := bundleId;
       lastSuccessfulBundleId := lastSuccessfulBundleId m;
       failedUpdate := failedUpdate m;
       delayConditions := delayConditions m;
       customId := customId m; channel := channel m |}).

Definition getLastSuccessfulBundleId (s : Storage) : option string :=
  match data s with
  | Some d => lastSuccessfulBundleId (manifest d)
  | None => None
  end.

Definition setLastSuccessfulBundleId (bundleId : option string) : Storage → Storage :=
  updManifest (λ m,
    {| bundles := bundles m;
       currentBundleId := currentBundleId m;
       nextBundleId := nextBundleId m;
       lastSuccessfulBundleId := bundleId;
       failedUpdate := failedUpdate m;
       delayConditions := delayConditions m;
       customId := customId m; channel := channel m |}).

Definition getFailedUpdate (s : Storage) : option UpdateFailedEvent :=
  match data s with
  | Some d => failedUpdate (manifest d)
  | None => None
  end.

Definition setFailedUpdate (update : option UpdateFailedEvent) : Storage → Storage :=
  updManifest (λ m,
    {| bundles := bundles m;
       currentBundleId := currentBundleId m;
       nextBundleId := nextBundleId m;
       lastSuccessfulBundleId := lastSuccessfulBundleId m;
       failedUpdate := update;
       delayConditions := delayConditions m;
       customId := customId m; channel := channel m |}).

(** [clearFailedUpdate]: read, clear in memory, return what was read. *)
Definition clearFailedUpdate (s : Storage) : option UpdateFailedEvent * Storage :=
  let failed := getFailedUpdate s in
  (failed, setFailedUpdate None s).

Definition getDeviceId (s : Storage) : string :=
  match data s with
  | Some d => deviceId d
  | None => ""
  end.

Definition getDelayConditions (s : Storage) : list DelayCondition :=
  match data s with
  | Some d => delayConditions (manifest d)
  | None => []
  end.

Definition setDelayConditions (conditions : list DelayCondition)
  : Storage → Storage :=
  updManifest (λ m,
    {| bundles := bundles m;
       currentBundleId := currentBundleId m;
       nextBundleId := nextBundleId m;
       lastSuccessfulBundleId := lastSuccessfulBundleId m;
       failedUpdate := failedUpdate m;
       delayConditions := conditions;
       customId := customId m; channel := channel m |}).

Definition clearDelayConditions : Storage → Storage := setDelayConditions [].

Definition getCustomId (s : Storage) : option string :=
  match data s with
  | Some d => customId (manifest d)
  | None => None
  end.

Definition setCustomId (custom : option string) : Storage → Storage :=
  updManifest (λ m,
    {| bundles := bundles m;
       currentBundleId := currentBundleId m;
       nextBundleId := nextBundleId m;
       lastSuccessfulBundleId := lastSuccessfulBundleId m;
       failedUpdate := failedUpdate m;
       delayConditions := delayConditions m;
       customId := custom; channel := channel m |}).

Definition getChannel (s : Storage) : option string :=
  match data s with
  | Some d => channel (manifest d)
  | None => None
  end.

Definition setChannel (name : option string) : Storage → Storage :=
  updManifest (λ m,
    {| bundles := bundles m;
       currentBundleId := currentBundleId m;
       nextBundleId := nextBundleId m;
       lastSuccessfulBundleId := lastSuccessfulBundleId m;
       failedUpdate := failedUpdate m;
       delayConditions := delayConditions m;
       customId := customId m; channel := name |}).

(** *** File operations *)

Definition setDisk (fs : FileSystem) (s : Storage) : Storage :=
  {| data := data s; disk := fs |}.

(** [fs.promises.writeFile(this.storagePath, JSON.stringify(...))].  The
    at-rest encryption of the device id is transparent to [loadStorage]
    and is left out.  A rejected write leaves the previous file. *)
Definition writeFile (d : StorageData) : Async unit := λ s,
  let fs := disk s in
  match writeFaults fs with
  | true :: rest =>
      (Throw FsError,
       setDisk {| storageFile := storageFile fs; bundleDirs := bundleDirs fs;
                  writeFaults := rest; rmFaults := rmFaults fs |} s)
  | faults =>
      (Ok tt,
       setDisk {| storageFile := Some d; bundleDirs := bundleDirs fs;
                  writeFaults := tail faults; rmFaults := rmFaults fs |} s)
  end.

(** [fs.promises.rm(bundlePath, { recursive: true, force: true })] *)
Definition rm (bundleId : string) : Async unit := λ s,
  let fs := disk s in
  match rmFaults fs with
  | true :: rest =>
      (Throw FsError,
       setDisk {| storageFile := storageFile fs; bundleDirs := bundleDirs fs;
                  writeFaults := writeFaults fs; rmFaults := rest |} s)
  | faults =>
      (Ok tt,
       setDisk {| storageFile := storageFile fs;
                  bundleDirs := bundleDirs fs ∖ {[bundleId]};
                  writeFaults := writeFaults fs; rmFaults := tail faults |} s)
  end.

Definition save : Async unit := λ s,
  match data s with
  | None => (Ok tt, s)
  | Some d => writeFile d s
  end.

(** [fs.promises.access] resolves exactly when the directory is there. *)
Definition bundleExists (bundleId : string) : Async bool :=
  gets (λ s, bool_decide (bundleId ∈ bundleDirs (disk s))).

(** The [catch] only logs. *)
Definition deleteBundleFiles (bundleId : string) : Async unit :=
  try_catch (rm bundleId) (λ _, mret tt).

(** [loadStorage] of a later process: the document on disk, or the
    defaults when there is none. *)
Definition loadStorage (uuid : string) (fs : FileSystem) : StorageData :=
  match storageFile fs with
  | Some d => d
  | None => createDefaultStorage uuid
  end.

(** [fs.promises.readdir(this.bundlesPath, { withFileTypes: true })], kept
    to the entries that are directories (the loop skips the others).
    [rejects] is what the disk does to this call. *)
Definition readdir (rejects : bool) : Async (list string) := λ s,
  if rejects then (Throw FsError, s)
  else (Ok (elements (bundleDirs (disk s))), s).

(** The loop of [cleanupOrphanedBundles] over the directory entries. *)
Fixpoint removeOrphans (manifestBundleIds : gset string) (entries : list string)
  : Async unit :=
  match entries with
  | [] => mret tt
  | name :: rest =>
      (if bool_decide (name ∈ manifestBundleIds) then mret tt
       else deleteBundleFiles name);;
      removeOrphans manifestBundleIds rest
  end.

Definition cleanupOrphanedBundles (readdirRejects : bool) : Async unit :=
  try_catch
    (entries ← readdir readdirRejects;
     manifestBundleIds ← gets (λ s, dom (bundles (getManifest s)));
     removeOrphans manifestBundleIds entries)
    (λ _, mret tt).

End StorageManager.


(** ** The download manager (download-manager.ts), a collaborator

    Its source is not part of the development.  The bundle manager only asks
    it to re-verify a stored bundle; the verdict, which may depend on the
    manifest and on the files, is a parameter of the bundle manager. *)
Record DownloadManager := mkDownloadManager {
  verifyBundleIntegrity : string → Storage → bool;
}.

(** ** The bundle manager (bundle-manager.ts) *)

Module BundleManager.

(** The constructor's fields; [storage] is the state of [Async]. *)
Record t := mk {
  downloadManager : DownloadManager;
  builtinVersion : string;
  builtinPath : string;
  autoDeleteFailed : bool;
  autoDeletePrevious : bool;
}.

Section Methods.
Variable self : t.

Definition getBuiltinBundle : BundleInfo :=
  {| id := BUILTIN_BUNDLE_ID;
     version := builtinVersion self;
     downloaded := "";
     checksum := "";
     status := success |}.

Definition verify (bundleId : string) : Async bool :=
  gets (verifyBundleIntegrity (downloadManager self) bundleId).

Definition current : Async CurrentBundleResult :=
  currentId ← gets StorageManager.getCurrentBundleId;
  b ← (if bool_decide (currentId = BUILTIN_BUNDLE_ID)
       then mret getBuiltinBundle
       else stored ← gets (StorageManager.getBundle currentId);
            mret (default getBuiltinBundle stored));
  mret {| cur_bundle := b; native := builtinVersion self |}.

(** The loop of [list] over the stored bundles when [raw] is not set. *)
Fixpoint onDisk (storedBundles : list BundleInfo) : Async (list BundleInfo) :=
  match storedBundles with
  | [] => mret []
  | b :: rest =>
      exists_ ← StorageManager.bundleExists (id b);
      kept ← onDisk rest;
      mret (if exists_ : bool then b :: kept else kept)
  end.

(** [list(options)]; the argument is the truthiness of [options?.raw]. *)
Definition listBundles (raw : bool) : Async (list BundleInfo) :=
  storedBundles ← gets StorageManager.getAllBundles;
  shown ← (if raw then mret storedBundles else onDisk storedBundles);
  mret (getBuiltinBundle :: shown).

Definition getNextBundle : Async (option BundleInfo) :=
  nextId ← gets StorageManager.getNextBundleId;
  if truthy nextId
  then gets (λ s, nextId ≫= λ n, StorageManager.getBundle n s)
  else mret None.

Definition statusName (st : BundleStatus) : string :=
  match st with
  | pending => "pending"
  | downloading => "downloading"
  | success => "success"
  | error => "error"
  end.

Definition next (bundleId : string) : Async BundleInfo :=
  stored ← gets (StorageManager.getBundle bundleId);
  match stored with
  | None => throw (Error ("Bundle " +:+ bundleId +:+ " not found"))
  | Some b =>
      if negb (bool_decide (status b = success))
      then throw (Error ("Bundle " +:+ bundleId +:+ " is not ready (status: "
                           +:+ statusName (status b) +:+ ")"))
      else
        valid ← verify bundleId;
        if negb valid
        then throw (Error ("Bundle " +:+ bundleId +:+ " failed integrity check"))
        else
          modify (StorageManager.setNextBundleId (Some bundleId));;
          StorageManager.save;;
          mret b
  end.

Definition deleteBundle (bundleId : string) : Async unit :=
  currentId ← gets StorageManager.getCurrentBundleId;
  nextId ← gets StorageManager.getNextBundleId;
  if bool_decide (bundleId = BUILTIN_BUNDLE_ID)
  then throw (Error "Cannot delete builtin bundle")
  else if bool_decide (bundleId = currentId)
  then throw (Error "Cannot delete currently active bundle")
  else if bool_decide (Some bundleId = nextId)
  then throw (Error "Cannot delete bundle set as next")
  else
    StorageManager.deleteBundleFiles bundleId;;
    modify (StorageManager.deleteBundle bundleId);;
    StorageManager.save.

Definition set (bundleId : string) : Async BundleInfo :=
  stored ← gets (StorageManager.getBundle bundleId);
  if bool_decide (stored = None) && negb (bool_decide (bundleId = BUILTIN_BUNDLE_ID))
  then throw (Error ("Bundle " +:+ bundleId +:+ " not found"))
  else
    (if negb (bool_decide (bundleId = BUILTIN_BUNDLE_ID))
     then valid ← verify bundleId;
          if negb valid
          then throw (Error ("Bundle " +:+ bundleId +:+ " failed integrity check"))
          else mret tt
     else mret tt);;
    previousId ← gets StorageManager.getCurrentBundleId;
    modify (StorageManager.setCurrentBundleId bundleId);;
    modify (StorageManager.setNextBundleId None);;
    StorageManager.save;;
    (if autoDeletePrevious self
        && negb (bool_decide (previousId = BUILTIN_BUNDLE_ID))
        && negb (bool_decide (previousId = bundleId))
     then catch_ignore (deleteBundle previousId)
     else mret tt);;
    mret (default getBuiltinBundle stored).

Definition setBundleError (bundleId : string) (allowManualBundleError : bool)
  : Async BundleInfo :=
  if negb allowManualBundleError
  then throw (Error "setBundleError is only available when allowManualBundleError is true")
  else
    stored ← gets (StorageManager.getBundle bundleId);
    match stored with
    | None => throw (Error ("Bundle " +:+ bundleId +:+ " not found"))
    | Some b =>
        let b := markError b in
        modify (StorageManager.setBundle bundleId b);;
        (if autoDeleteFailed self
         then catch_ignore (deleteBundle bundleId)
         else mret tt);;
        StorageManager.save;;
        mret b
    end.

Definition getFailedUpdate : Async (option UpdateFailedEvent) := λ s,
  let '(failed, s') := StorageManager.clearFailedUpdate s in
  (Ok failed, s').

Definition recordFailedUpdate (b : BundleInfo) : Async unit :=
  modify (StorageManager.setFailedUpdate (Some {| bundle := b |}));;
  StorageManager.save.

(** [reset(options)]; the argument is the truthiness of
    [options?.toLastSuccessful]. *)
Definition reset (toLastSuccessful : bool) : Async unit :=
  lastSuccessfulId ← gets StorageManager.getLastSuccessfulBundleId;
  let targetId :=
    if toLastSuccessful then default BUILTIN_BUNDLE_ID lastSuccessfulId
    else BUILTIN_BUNDLE_ID in
  modify (StorageManager.setCurrentBundleId targetId);;
  modify (StorageManager.setNextBundleId None);;
  StorageManager.save.

Definition applyPendingUpdate : Async ApplyResult :=
  nextId ← gets StorageManager.getNextBundleId;
  currentId ← gets StorageManager.getCurrentBundleId;
  match nextId with
  | None => mret {| applied := false; bundleId := currentId |}
  | Some nextId =>
      if bool_decide (nextId = "") || bool_decide (nextId = currentId)
      then mret {| applied := false; bundleId := currentId |}
      else
        stored ← gets (StorageManager.getBundle nextId);
        match stored with
        | None =>
            modify (StorageManager.setNextBundleId None);;
            StorageManager.save;;
            mret {| applied := false; bundleId := currentId |}
        | Some b =>
            valid ← verify nextId;
            if negb valid
            then
              modify (StorageManager.setBundle nextId (markError b));;
              modify (StorageManager.setNextBundleId None);;
              StorageManager.save;;
              mret {| applied := false; bundleId := currentId |}
            else
              let previousId := currentId in
              modify (StorageManager.setCurrentBundleId nextId);;
              modify (StorageManager.setNextBundleId None);;
              StorageManager.save;;
              (if autoDeletePrevious self
                  && negb (bool_decide (previousId = BUILTIN_BUNDLE_ID))
               then catch_ignore (deleteBundle previousId)
               else mret tt);;
              mret {| applied := true; bundleId := nextId |}
        end
  end.

Definition markBundleSuccessful : Async unit :=
  currentId ← gets StorageManager.getCurrentBundleId;
  modify (StorageManager.setLastSuccessfulBundleId (Some currentId));;
  StorageManager.save.

Definition rollback : Async BundleInfo :=
  currentId ← gets StorageManager.getCurrentBundleId;
  lastSuccessfulId ← gets StorageManager.getLastSuccessfulBundleId;
  let targetId := default BUILTIN_BUNDLE_ID lastSuccessfulId in
  currentBundle ← gets (StorageManager.getBundle currentId);
  match currentBundle with
  | Some b =>
      let b := markError b in
      modify (StorageManager.setBundle currentId b);;
      recordFailedUpdate b;;
      if autoDeleteFailed self
      then catch_ignore (deleteBundle currentId)
      else mret tt
  | None => mret tt
  end;;
  modify (StorageManager.setCurrentBundleId targetId);;
  modify (StorageManager.setNextBundleId None);;
  StorageManager.save;;
  target ← gets (StorageManager.getBundle targetId);
  mret (default getBuiltinBundle target).

(** The loop of [cleanup] over the snapshot of the stored bundles. *)
Fixpoint deleteFailed (storedBundles : list BundleInfo) : Async unit :=
  match storedBundles with
  | [] => mret tt
  | b :: rest =>
      (if bool_decide (status b = error)
       then catch_ignore (deleteBundle (id b))
       else mret tt);;
      deleteFailed rest
  end.

(** [cleanup()]; the argument is what the disk does to the [readdir] of
    the orphan sweep. *)
Definition cleanup (readdirRejects : bool) : Async unit :=
  (if autoDeleteFailed self
   then storedBundles ← gets StorageManager.getAllBundles;
        deleteFailed storedBundles
   else mret tt);;
  StorageManager.cleanupOrphanedBundles readdirRejects.

End Methods.

End BundleManager.

(** ** The crypto manager (crypto.ts): session keys *)

Module CryptoManager.

Definition Buffer := list Byte.byte.

Record DecryptedSessionKey := mkDecryptedSessionKey {
  iv : Buffer;
  aesKey : Buffer;
}.

Record t := mk { publicKey : option string }.

(** [s.split(sep)] for a separator of one character. *)
Fixpoint split (sep : Ascii.ascii) (s : string) : list string :=
  match s with
  | EmptyString => [EmptyString]
  | String c rest =>
      if Ascii.eqb c sep then EmptyString :: split sep rest
      else match split sep rest with
           | first :: others => String c first :: others
           | [] => [String c EmptyString]
           end
  end.

Section SessionKey.
(** [Buffer.from(text, 'base64')]: total, it skips what is not base64. *)
Variable fromBase64 : string → Buffer.
(** [crypto.publicDecrypt({ key, padding: RSA_PKCS1_PADDING }, buffer)],
    which throws when the key or the padding is bad. *)
Variable publicDecrypt : string → Buffer → Outcome Buffer.

(** The body of the [try] block, run with a truthy public key. *)
Definition decryptParts (key sessionKey : string)
  : Outcome (option DecryptedSessionKey) :=
  let parts := split ":"%char sessionKey in
  if negb (length parts =? 2) then Ok None
  else
    let iv := fromBase64 (parts !!! 0) in
    let encryptedAesKey := fromBase64 (parts !!! 1) in
    match publicDecrypt key encryptedAesKey with
    | Ok aesKey => Ok (Some {| iv := iv; aesKey := aesKey |})
    | Throw e => Throw e
    end.

Definition parseSessionKey (self : t) (sessionKey : string)
  : Outcome (option DecryptedSessionKey) :=
  if negb (truthy (publicKey self)) then Ok None
  else
    match publicKey self with
    | None => Ok None
    | Some key =>
        match decryptParts key sessionKey with
        | Ok r => Ok r
        | Throw _ => Ok None
        end
    end.

End SessionKey.

Section Content.
Variable fromBase64 : string → Buffer.
Variable publicDecrypt : string → Buffer → Outcome Buffer.
(** [crypto.createDecipheriv('aes-128-cbc', key, iv)] followed by
    [update] and [final], which throw on a bad key, IV or padding. *)
Variable aes128cbc : Buffer → Buffer → Buffer → Outcome Buffer.
(** [buffer.toString('utf8')] *)
Variable toUtf8 : Buffer → string.

Definition decryptSessionKey (self : t) (encryptedSessionKey : string)
  : Outcome (option Buffer) :=
  match parseSessionKey fromBase64 publicDecrypt self encryptedSessionKey with
  | Ok result => Ok (aesKey <$> result)
  | Throw e => Throw e
  end.

Definition decryptContent (encryptedData : Buffer) (sessionKey : DecryptedSessionKey)
  : Outcome (option Buffer) :=
  match aes128cbc (aesKey sessionKey) (iv sessionKey) encryptedData with
  | Ok decrypted => Ok (Some decrypted)
  | Throw _ => Ok None
  end.

(** The body of the [try] block of [decryptChecksum]. *)
Definition decryptChecksumBody (self : t) (encryptedChecksum sessionKey : string)
  : Outcome (option string) :=
  match parseSessionKey fromBase64 publicDecrypt self sessionKey with
  | Throw e => Throw e
  | Ok None => Ok None
  | Ok (Some parsed) =>
      let encryptedData := fromBase64 encryptedChecksum in
      match decryptContent encryptedData parsed with
      | Throw e => Throw e
      | Ok None => Ok None
      | Ok (Some decrypted) => Ok (Some (toUtf8 decrypted))
      end
  end.

Definition decryptChecksum (self : t) (encryptedChecksum sessionKey : string)
  : Outcome (option string) :=
  match decryptChecksumBody self encryptedChecksum sessionKey with
  | Ok r => Ok r
  | Throw _ => Ok None
  end.

End Content.

End CryptoManager.

(** ** The delay manager (delay-manager.ts): the date condition *)

Module DelayManager.

(** A JavaScript time value: milliseconds since the epoch, or [NaN], the
    time value of an Invalid Date. *)
Inductive TimeValue :=
| NaN
| Ms (t : Z).

(** [now >= t] on numbers, [now] finite: false when [t] is [NaN]. *)
Definition geNumber (now : Z) (t : TimeValue) : bool :=
  match t with
  | NaN => false
  | Ms t => bool_decide (t ≤ now)%Z
  end.

Section DateCondition.
(** [new Date(value).getTime()] for a string [value]: the built-in
    parser, which answers [NaN] for a string it cannot parse and does
    not throw. *)
Variable Date_parse : string → TimeValue.
(** [Date.now()] *)
Variable now : Z.

(** The body of the [try] block. *)
Definition dateReached (value : string) : Outcome bool :=
  let targetDate := Date_parse value in
  Ok (geNumber now targetDate).

Definition isDateConditionSatisfied (value : option string) : bool :=
  if negb (truthy value) then true
  else
    match value with
    | None => true
    | Some v =>
        match dateReached v with
        | Ok r => r
        | Throw _ => true
        end
    end.

End DateCondition.

(** What [parseInt(text, 10)] returns: [NaN], an integer, or an infinity
    (for a run of digits beyond the range of a double).  [-0] is [Int 0]:
    the code only compares these numbers and tests their truthiness. *)
Inductive Integer :=
| NotANumber
| Int (z : Z)
| Infinite (negative : bool).

(** [a < b] on numbers. *)
Definition ltNumber (a b : Integer) : bool :=
  match a, b with
  | NotANumber, _ | _, NotANumber => false
  | Int x, Int y => bool_decide (x < y)%Z
  | Int _, Infinite negative => negb negative
  | Infinite negative, Int _ => negative
  | Infinite negativeA, Infinite negativeB => negativeA && negb negativeB
  end.

(** [a >= b] on numbers. *)
Definition geNumbers (a b : Integer) : bool :=
  match a, b with
  | NotANumber, _ | _, NotANumber => false
  | _, _ => negb (ltNumber a b)
  end.

(** [n || 0]: [NaN] and zero are falsy. *)
Definition orZero (n : Integer) : Integer :=
  match n with
  | NotANumber => Int 0
  | _ => n
  end.

(** The fields of a delay manager next to its storage. *)
Record t := mk {
  appVersion : string;
  backgroundStartTime : option Z;
  wasKilled : bool;
}.

(** [!this.backgroundStartTime]: [null] and [0] are falsy. *)
Definition notBackgrounded (self : t) : bool :=
  match backgroundStartTime self with
  | None => true
  | Some start => bool_decide (start = 0%Z)
  end.

Section Gate.
(** [parseInt(text, 10)], the built-in. *)
Variable parseInt : string → Integer.
Variable Date_parse : string → TimeValue.

(** The loop of [compareVersions], from index [i] for [steps] rounds;
    [parts[i] ?? 0] is [0] past the end. *)
Fixpoint compareFrom (partsA partsB : list Integer) (i steps : nat) : Z :=
  match steps with
  | O => 0
  | S steps =>
      let numA := default (Int 0) (partsA !! i) in
      let numB := default (Int 0) (partsB !! i) in
      if ltNumber numA numB then (-1)
      else if ltNumber numB numA then 1
      else compareFrom partsA partsB (S i) steps
  end.

Definition versionParts (v : string) : list Integer :=
  (λ p, orZero (parseInt p)) <$> CryptoManager.split "."%char v.

Definition compareVersions (a b : string) : Z :=
  let partsA := versionParts a in
  let partsB := versionParts b in
  let maxLength := Nat.max (length partsA) (length partsB) in
  compareFrom partsA partsB 0 maxLength.

(** [now] is [Date.now()]. *)
Definition isBackgroundConditionSatisfied (self : t) (now : Z)
    (value : option string) : bool :=
  if notBackgrounded self then false
  else if negb (truthy value) then true
  else
    let requiredMs := parseInt (default "" value) in
    match requiredMs with
    | NotANumber => true
    | _ =>
        let elapsedMs := (now - default 0 (backgroundStartTime self))%Z in
        geNumbers (Int elapsedMs) requiredMs
    end.

Definition isVersionConditionSatisfied (self : t) (value : option string) : bool :=
  if negb (truthy value) then true
  else bool_decide (0 ≤ compareVersions (appVersion self) (default "" value))%Z.

Definition isConditionSatisfied (self : t) (now : Z) (condition : DelayCondition)
  : bool :=
  match kind condition with
  | background => isBackgroundConditionSatisfied self now (value condition)
  | kill => wasKilled self
  | date => isDateConditionSatisfied Date_parse now (value condition)
  | nativeVersion => isVersionConditionSatisfied self (value condition)
  end.

(** The loop of [areConditionsSatisfied]. *)
Fixpoint allSatisfied (self : t) (now : Z) (conditions : list DelayCondition)
  : bool :=
  match conditions with
  | [] => true
  | condition :: rest =>
      if negb (isConditionSatisfied self now condition) then false
      else allSatisfied self now rest
  end.

Definition areConditionsSatisfied (self : t) (now : Z) (s : Storage) : bool :=
  let conditions := StorageManager.getDelayConditions s in
  if (length conditions =? 0)%nat then true
  else allSatisfied self now conditions.

End Gate.

Definition setMultiDelay (conditions : list DelayCondition) : Async unit :=
  modify (StorageManager.setDelayConditions conditions);;
  StorageManager.save.

Definition cancelDelay : Async unit :=
  modify StorageManager.clearDelayConditions;;
  StorageManager.save.

Definition onBackground (now : Z) (self : t) : t :=
  if notBackgrounded self
  then {| appVersion := appVersion self; backgroundStartTime := Some now;
          wasKilled := wasKilled self |}
  else self.

Definition onForeground (self : t) : t :=
  {| appVersion := appVersion self; backgroundStartTime := None;
     wasKilled := wasKilled self |}.

Definition hasKillCondition (conditions : list DelayCondition) : bool :=
  existsb (λ c, match kind c with kill => true | _ => false end) conditions.

Definition onAppStart (s : Storage) (self : t) : t :=
  if hasKillCondition (StorageManager.getDelayConditions s)
  then {| appVersion := appVersion self;
          backgroundStartTime := backgroundStartTime self; wasKilled := true |}
  else self.

Definition resetKillState (self : t) : t :=
  {| appVersion := appVersion self;
     backgroundStartTime := backgroundStartTime self; wasKilled := false |}.

End DelayManager.

(** ** The channel manager (channel-manager.ts) *)

Module ChannelManager.

Inductive Method := GET | POST.

(** What [makeRequest] sends: the URL, the method, the headers that vary and
    the fields of the JSON body. *)
Record Request := mkRequest {
  url : string;
  method : Method;
  cap_app_id : string;
  cap_device_id : string;
  cap_plugin_version : string;
  cap_custom_id : option string;
  body_action : option string;
  body_channel : option string;
}.

(** The JSON object of a response, each field as the code reads it: [None]
    for [null] or absent, otherwise the value after [String(...)], or after
    [Boolean(...)] for [allow_set]. *)
Record Response := mkResponse {
  res_status : option string;
  res_error : option string;
  res_message : option string;
  res_channel : option string;
  res_allow_set : option bool;
}.

Record ChannelRes := mkChannelRes {
  cr_status : string;
  cr_error : option string;
  cr_message : option string;
}.

Record GetChannelRes := mkGetChannelRes {
  gc_channel : option string;
  gc_allowSet : bool;
  gc_status : string;
  gc_error : option string;
  gc_message : option string;
}.

Record t := mk {
  channelUrl : string;
  defaultChannel : option string;
  appId : string;
  deviceId : string;
  pluginVersion : string;
}.

Section Methods.
(** The remote end: what [new URL], [fetch] and [response.json()] give
    for a request, a parsed body or a thrown [Error] (bad URL, network
    failure, timeout, status that is not ok, body that is not JSON). *)
Variable fetchJson : Request → Outcome Response.
(** The message of the error object of a rejected [fs.promises] call. *)
Variable fsErrorMessage : string.
Variable self : t.

Definition makeRequest (m : Method) (action channelName : option string)
  : Async Response := λ s,
  let customId := StorageManager.getCustomId s in
  (fetchJson
     {| url := channelUrl self; method := m;
        cap_app_id := appId self; cap_device_id := deviceId self;
        cap_plugin_version := pluginVersion self;
        cap_custom_id := if truthy customId then customId else None;
        body_action := action; body_channel := channelName |},
   s).

(** [error instanceof Error ? error.message : 'Unknown error']; all that
    is thrown here is an [Error]. *)
Definition messageOf (e : Exn) : string :=
  match e with
  | Error message => message
  | FsError => fsErrorMessage
  end.

Definition setChannel (channelName : string) : Async ChannelRes :=
  try_catch
    (response ← makeRequest POST (Some "set") (Some channelName);
     let status := default "ok" (res_status response) in
     (if bool_decide (status = "ok") || bool_decide (status = "success")
      then modify (StorageManager.setChannel (Some channelName));;
           StorageManager.save
      else mret tt);;
     mret {| cr_status := status; cr_error := res_error response;
             cr_message := res_message response |})
    (λ e, mret {| cr_status := "error"; cr_error := Some (messageOf e);
                  cr_message := None |}).

Definition unsetChannel : Async unit :=
  try_catch (makeRequest POST (Some "unset") None;; mret tt) (λ _, mret tt);;
  modify (StorageManager.setChannel None);;
  StorageManager.save.

Definition getEffectiveChannel (s : Storage) : option string :=
  match StorageManager.getChannel s with
  | Some stored => Some stored
  | None => defaultChannel self
  end.

Definition getChannel : Async GetChannelRes :=
  try_catch
    (response ← makeRequest GET None None;
     localChannel ← gets getEffectiveChannel;
     mret {| gc_channel :=
               match res_channel response with
               | Some name => Some name
               | None => localChannel
               end;
             gc_allowSet := default true (res_allow_set response);
             gc_status := default "ok" (res_status response);
             gc_error := res_error response;
             gc_message := res_message response |})
    (λ _,
     localChannel ← gets getEffectiveChannel;
     mret {| gc_channel := localChannel; gc_allowSet := true;
             gc_status := "ok"; gc_error := None; gc_message := None |}).

End Methods.

End ChannelManager.

(** ** The device manager (device.ts) *)

Module DeviceManager.

Record t := mk { persistCustomId : bool }.

Section Methods.
(** [String.prototype.trim], the built-in. *)
Variable trim : string → string.
Variable self : t.

Definition getDeviceId (s : Storage) : string := StorageManager.getDeviceId s.

Definition setCustomId (customId : string) : Async unit :=
  let customId :=
    if bool_decide (trim customId = "") then None else Some (trim customId) in
  if persistCustomId self
  then modify (StorageManager.setCustomId customId);;
       StorageManager.save
  else modify (StorageManager.setCustomId customId).

Definition getCustomId (s : Storage) : option string :=
  StorageManager.getCustomId s.

Definition clearCustomId : Async unit :=
  modify (StorageManager.setCustomId None);;
  if persistCustomId self then StorageManager.save else mret tt.

End Methods.

End DeviceManager.

(** ** Predicates used in the statements *)

(** Disk I/O is available: none of the coming manifest writes is rejected. *)
Definition writesSucceed (s : Storage) : Prop :=
  Forall (λ rejected, rejected = false) (writeFaults (disk s)).

(** The bundle map is keyed by the bundles' own ids. *)
Definition keyedById (s : Storage) : Prop :=
  ∀ k b, StorageManager.getBundle k s = Some b → id b = k.

(** ** Where [rollback] leads *)

Definition rollbackTarget (s : Storage) : string :=
  default BUILTIN_BUNDLE_ID (StorageManager.getLastSuccessfulBundleId s).

(** The state [rollback] reaches when no save is rejected: the current
    bundle, if stored, marked and recorded, then the pointers reset. *)
Definition rolledBack (s : Storage) : Storage :=
  let currentId := StorageManager.getCurrentBundleId s in
  let marked :=
    match StorageManager.getBundle currentId s with
    | Some b =>
        StorageManager.setFailedUpdate (Some {| bundle := markError b |})
          (StorageManager.setBundle currentId (markError b) s)
    | None => s
    end in
  StorageManager.setNextBundleId None
    (StorageManager.setCurrentBundleId (rollbackTarget s) marked).

(** ** Counting separators *)

(** The number of occurrences of [sep] in [s]. *)
Fixpoint separators (sep : Ascii.ascii) (s : string) : nat :=
  match s with
  | EmptyString => 0
  | String c rest =>
      (if Ascii.eqb c sep then 1 else 0) + separators sep rest
  end.

(** ** A device with downloaded bundles *)

(** A download manager whose re-verification always passes. *)
Definition alwaysIntact : DownloadManager :=
  {| verifyBundleIntegrity := λ _ _, true |}.

(** A bundle manager with the constructor's defaults. *)
Definition manager : BundleManager.t :=
  {| BundleManager.downloadManager := alwaysIntact;
     BundleManager.builtinVersion := "1.0.0";
     BundleManager.builtinPath := "/app/www/index.html";
     BundleManager.autoDeleteFailed := true;
     BundleManager.autoDeletePrevious := true |}.

Definition b1 : BundleInfo :=
  {| id := "b1"; version := "1.0.1"; downloaded := "2026-01-01T00:00:00.000Z";
     checksum := "abc"; status := success |}.

Definition b2 : BundleInfo :=
  {| id := "b2"; version := "1.0.2"; downloaded := "2026-02-01T00:00:00.000Z";
     checksum := "def"; status := success |}.

(** First launch: the default document in memory, no storage file yet, a
    disk that works; the directory of [b1] has just been extracted. *)
Definition firstLaunch : Storage :=
  {| data := Some (StorageManager.createDefaultStorage "device-1");
     disk := {| storageFile := None; bundleDirs := {["b1"]};
                writeFaults := []; rmFaults := [] |} |}.

(** The download registers [b1] under its id. *)
Definition downloadedB1 : Storage := StorageManager.setBundle "b1" b1 firstLaunch.

(** [set({ id: 'b1' })], then the ready signal: [markBundleSuccessful()]. *)
Definition activatedB1 : Storage := (BundleManager.set manager "b1" downloadedB1).2.

Definition confirmedB1 : Storage := (BundleManager.markBundleSuccessful activatedB1).2.

(** A second download next to the active [b1], on a disk whose next [rm]
    is rejected. *)
Definition downloadedB2 : Storage :=
  StorageManager.setDisk
    {| storageFile := storageFile (disk activatedB1);
       bundleDirs := {["b1"; "b2"]};
       writeFaults := []; rmFaults := [true] |}
    (StorageManager.setBundle "b2" b2 activatedB1).

(** The watchdog expired on [b1]: the state after [rollback()]. *)
Definition rolledBackB1 : Storage := (BundleManager.rollback manager activatedB1).2.

(** A date parser for the examples: it knows one date and rejects the rest,
    as the built-in rejects what is not a date. *)
Definition parseKnownDate (v : string) : DelayManager.TimeValue :=
  if bool_decide (v = "2025-01-01") then DelayManager.Ms 1735689600000
  else DelayManager.NaN.

(** Stand-ins for the decoder and the RSA primitive in the examples. *)
Definition bytesOf (text : string) : CryptoManager.Buffer :=
  String.list_byte_of_string text.

Definition rsaIdentity (key : string) (buffer : CryptoManager.Buffer)
  : Outcome CryptoManager.Buffer := Ok buffer.

(** ** Memory and disk in step *)

(** The disk is available and the storage file holds the document that is
    in memory. *)
Definition synced (s : Storage) : Prop :=
  writesSucceed s ∧ ∀ d, data s = Some d → storageFile (disk s) = Some d.

(** ** Invariants of asynchronous code *)

(** [m] keeps [P]: from a state with [P] it ends, resolved or rejected, in a
    state with [P]. *)
Definition keeps (P : Storage → Prop) {A} (m : Async A) : Prop :=
  ∀ s, P s → P (m s).2.

(** ** The calls of the bundle manager *)

Inductive Call :=
| CallCurrent
| CallList (raw : bool)
| CallGetNextBundle
| CallNext (bundleId : string)
| CallSet (bundleId : string)
| CallDeleteBundle (bundleId : string)
| CallSetBundleError (bundleId : string) (allowManualBundleError : bool)
| CallGetFailedUpdate
| CallRecordFailedUpdate (b : BundleInfo)
| CallReset (toLastSuccessful : bool)
| CallApplyPendingUpdate
| CallMarkBundleSuccessful
| CallRollback
| CallCleanup (readdirRejects : bool).

(** The state a call leaves, whether it resolves or rejects. *)
Definition stateAfter (self : BundleManager.t) (call : Call) (s : Storage) : Storage :=
  match call with
  | CallCurrent => (BundleManager.current self s).2
  | CallList raw => (BundleManager.listBundles self raw s).2
  | CallGetNextBundle => (BundleManager.getNextBundle s).2
  | CallNext bundleId => (BundleManager.next self bundleId s).2
  | CallSet bundleId => (BundleManager.set self bundleId s).2
  | CallDeleteBundle bundleId => (BundleManager.deleteBundle bundleId s).2
  | CallSetBundleError bundleId allow =>
      (BundleManager.setBundleError self bundleId allow s).2
  | CallGetFailedUpdate => (BundleManager.getFailedUpdate s).2
  | CallRecordFailedUpdate b => (BundleManager.recordFailedUpdate b s).2
  | CallReset toLastSuccessful => (BundleManager.reset toLastSuccessful s).2
  | CallApplyPendingUpdate => (BundleManager.applyPendingUpdate self s).2
  | CallMarkBundleSuccessful => (BundleManager.markBundleSuccessful s).2
  | CallRollback => (BundleManager.rollback self s).2
  | CallCleanup readdirRejects => (BundleManager.cleanup self readdirRejects s).2
  end.

(** ** Ids that a plain object answers for without owning them *)

(** The property names of [Object.prototype].  The bundle map is a plain
    object: [bundles[id]] finds a function under these names also when the
    map has no such entry, so a lookup of one of them is not a lookup among
    the entries.  Bundle ids are the builtin id and the ids generated at
    download, 32 hexadecimal digits. *)
Definition objectPrototypeNames : list string :=
  ["constructor"; "hasOwnProperty"; "isPrototypeOf"; "propertyIsEnumerable";
   "toLocaleString"; "toString"; "valueOf"; "__proto__";
   "__defineGetter__"; "__defineSetter__"; "__lookupGetter__";
   "__lookupSetter__"].

Definition inheritedProperty (bundleId : string) : bool :=
  bool_decide (bundleId ∈ objectPrototypeNames).

(** The id a call looks up in the bundle map is none of these names. *)
Definition plainCall (call : Call) : Prop :=
  match call with
  | CallNext bundleId | CallSet bundleId | CallSetBundleError bundleId _ =>
      inheritedProperty bundleId = false
  | _ => True
  end.

(** Neither are the ids the manifest points to. *)
Definition plainIds (s : Storage) : Prop :=
  inheritedProperty (StorageManager.getCurrentBundleId s) = false ∧
  (∀ n, StorageManager.getNextBundleId s = Some n → inheritedProperty n = false) ∧
  (∀ l, StorageManager.getLastSuccessfulBundleId s = Some l →
        inheritedProperty l = false).

(** The queued bundle, if any, is stored. *)
Definition queuedIsStored (s : Storage) : Prop :=
  ∀ n, StorageManager.getNextBundleId s = Some n →
       is_Some (StorageManager.getBundle n s).

(** ** What the clean-up may delete *)

(** The guards of [deleteBundle] let [k] through in [s]. *)
Definition deletable (k : string) (s : Storage) : bool :=
  negb (bool_decide (k = BUILTIN_BUNDLE_ID))
  && negb (bool_decide (k = StorageManager.getCurrentBundleId s))
  && negb (bool_decide (StorageManager.getNextBundleId s = Some k)).

(** No coming [rm] is rejected. *)
Definition removalsSucceed (s : Storage) : Prop :=
  Forall (λ rejected, rejected = false) (rmFaults (disk s)).

(** ** Version components *)

(** The component of a version at an index, [0] past the end, as the loop
    of [compareVersions] reads it. *)
Definition versionComponent (parts : list DelayManager.Integer) (i : nat)
  : DelayManager.Integer :=
  default (DelayManager.Int 0) (parts !! i).


(** ** More of the device's life *)

(** [next({ id: 'b1' })] after the download: [b1] is queued. *)
Definition queuedB1 : Storage := (BundleManager.next manager "b1" downloadedB1).2.

(** [b2] is downloaded and set after [b1] was confirmed: the entry of [b1],
    the previous bundle, is deleted and stays the last successful id. *)
Definition activatedB2 : Storage :=
  (BundleManager.set manager "b2" (StorageManager.setBundle "b2" b2 confirmedB1)).2.

(** A directory [b2] that no bundle of the manifest owns. *)
Definition orphanedB2 : Storage :=
  StorageManager.setDisk
    {| storageFile := storageFile (disk activatedB1);
       bundleDirs := {["b1"; "b2"]};
       writeFaults := []; rmFaults := [] |}
    activatedB1.

(** ** Stand-ins for the built-ins and the remote end in the examples *)

Definition digitOf (c : Ascii.ascii) : option Z :=
  let n := Z.of_nat (Ascii.nat_of_ascii c) in
  if ((48 <=? n) && (n <=? 57))%Z then Some (n - 48)%Z else None.

(** The leading digits of a text, read in base ten; [None] when it starts
    with no digit. *)
Fixpoint digitsFrom (acc : option Z) (text : string) : option Z :=
  match text with
  | EmptyString => acc
  | String c rest =>
      match digitOf c with
      | Some d => digitsFrom (Some (10 * default 0 acc + d)%Z) rest
      | None => acc
      end
  end.

(** [parseInt(text, 10)] on texts without leading white space or sign and
    with few enough digits to be exact. *)
Definition parseDecimal (text : string) : DelayManager.Integer :=
  match digitsFrom None text with
  | Some n => DelayManager.Int n
  | None => DelayManager.NotANumber
  end.

Fixpoint trimLeft (text : string) : string :=
  match text with
  | String c rest => if Ascii.eqb c " " then trimLeft rest else text
  | EmptyString => EmptyString
  end.

Fixpoint trimRight (text : string) : string :=
  match text with
  | String c rest =>
      let kept := trimRight rest in
      if Ascii.eqb c " " && bool_decide (kept = "") then "" else String c kept
  | EmptyString => EmptyString
  end.

(** [text.trim()] on texts whose only white space is the space. *)
Definition trimSpaces (text : string) : string := trimLeft (trimRight text).

(** A host at version 1.2.0, in the foreground, and the same device after an
    update of the host to 1.10. *)
Definition host : DelayManager.t :=
  {| DelayManager.appVersion := "1.2.0";
     DelayManager.backgroundStartTime := None;
     DelayManager.wasKilled := false |}.

Definition updatedHost : DelayManager.t :=
  {| DelayManager.appVersion := "1.10";
     DelayManager.backgroundStartTime := None;
     DelayManager.wasKilled := false |}.

(** The update is held back until a date, and until the app was killed. *)
Definition untilNewYear : DelayCondition :=
  {| kind := date; value := Some "2025-01-01" |}.

Definition untilKilled : DelayCondition := {| kind := kill; value := None |}.

Definition delayedUntilNewYear : Storage :=
  StorageManager.setDelayConditions [untilNewYear] firstLaunch.

Definition delayedUntilKilled : Storage :=
  StorageManager.setDelayConditions [untilKilled; untilNewYear] firstLaunch.

(** A remote end that accepts what is posted and cannot be reached for a
    [GET]. *)
Definition acceptsPosts (request : ChannelManager.Request)
  : Outcome ChannelManager.Response :=
  match ChannelManager.method request with
  | ChannelManager.POST =>
      Ok {| ChannelManager.res_status := None;
            ChannelManager.res_error := None;
            ChannelManager.res_message := None;
            ChannelManager.res_channel := None;
            ChannelManager.res_allow_set := None |}
  | ChannelManager.GET => Throw (Error "fetch failed")
  end.

Definition channels : ChannelManager.t :=
  {| ChannelManager.channelUrl := "https://example.com/channel_self";
     ChannelManager.defaultChannel := Some "production";
     ChannelManager.appId := "com.example.app";
     ChannelManager.deviceId := "device-1";
     ChannelManager.pluginVersion := "1.0.0" |}.

(** The device manager with the constructor's default: custom ids are not
    persisted. *)
Definition memoryOnly : DeviceManager.t :=
  {| DeviceManager.persistCustomId := false |}.

(** A cipher for the examples that returns what it is given. *)
Definition aesIdentity (key initial encrypted : CryptoManager.Buffer)
  : Outcome CryptoManager.Buffer := Ok encrypted.

Definition textOf (buffer : CryptoManager.Buffer) : string :=
  String.string_of_list_byte buffer.
(** * Properties *)

(** ** Stepping through asynchronous code *)

Lemma bind_gets {A B} (f : Storage → A) (k : A → Async B) (s : Storage) :
  (gets f ≫= k) s = k (f s) s.
Proof. reflexivity. Qed.

Lemma bind_modify {B} (f : Storage → Storage) (k : unit → Async B) (s : Storage) :
  (modify f ≫= k) s = k tt (f s).
Proof. reflexivity. Qed.

Lemma bind_ret {A B} (a : A) (k : A → Async B) (s : Storage) :
  (mret a ≫= k) s = k a s.
Proof. reflexivity. Qed.

Lemma bind_throw {A B} (e : Exn) (k : A → Async B) (s : Storage) :
  (throw e ≫= k) s = (Throw e, s).
Proof. reflexivity. Qed.

Lemma bind_run {A B} (m : Async A) (k : A → Async B) (s : Storage) :
  (m ≫= k) s =
  match m s with
  | (Ok a, s') => k a s'
  | (Throw e, s') => (Throw e, s')
  end.
Proof. reflexivity. Qed.

Lemma catch_ignore_run (m : Async unit) (s : Storage) :
  catch_ignore m s = (Ok tt, (m s).2).
Proof. unfold catch_ignore, try_catch. by destruct (m s) as [[[]|e] s']. Qed.

Lemma bind_assoc {A B C} (m : Async A) (k : A → Async B) (h : B → Async C)
    (s : Storage) :
  ((m ≫= k) ≫= h) s = (m ≫= λ a, k a ≫= h) s.
Proof.
  unfold mbind, Async_bind. by destruct (m s) as [[a|e] s'].
Qed.

Ltac step :=
  repeat first
    [ rewrite bind_gets | rewrite bind_modify | rewrite bind_ret
    | rewrite bind_throw | rewrite bind_assoc ].

Ltac storage_unfold :=
  unfold StorageManager.getBundle, StorageManager.getCurrentBundleId,
    StorageManager.getNextBundleId, StorageManager.getLastSuccessfulBundleId,
    StorageManager.getFailedUpdate, StorageManager.getAllBundles,
    StorageManager.setBundle, StorageManager.deleteBundle,
    StorageManager.setCurrentBundleId, StorageManager.setNextBundleId,
    StorageManager.setLastSuccessfulBundleId, StorageManager.setFailedUpdate,
    StorageManager.clearFailedUpdate, StorageManager.updManifest,
    StorageManager.setDisk in *.

(** ** The disk *)

Section DiskFacts.
Import StorageManager.
Implicit Types (s : Storage) (fs : FileSystem).

Lemma getNextBundleId_cleared s : getNextBundleId (setNextBundleId None s) = None.
Proof. by destruct s as [[d|] ?]. Qed.

Lemma updManifest_setDisk f fs s :
  updManifest f (setDisk fs s) = setDisk fs (updManifest f s).
Proof. by destruct s as [[d|] ?]. Qed.

(** [save] only touches the disk; with the disk available it succeeds and
    the file holds the document in memory. *)
Lemma save_run s :
  ∃ r fs, save s = (r, setDisk fs s) ∧
    (writesSucceed s →
       r = Ok tt ∧ writesSucceed (setDisk fs s) ∧
       (is_Some (data s) → storageFile fs = data s)).
Proof.
  unfold save, writesSucceed. destruct s as [[d|] fs]; simpl.
  - unfold writeFile; simpl.
    destruct (writeFaults fs) as [|[] rest] eqn:E; simpl;
      eexists _, _; (split; [reflexivity|]); simpl; intros Hw.
    + by repeat split.
    + by apply Forall_cons_1 in Hw as [? _].
    + apply Forall_cons_1 in Hw as [_ ?]. by repeat split.
  - exists (Ok tt), fs. split; [done|]. intros Hw. repeat split; auto.
    by intros [? ?].
Qed.

Lemma save_data s : data (save s).2 = data s.
Proof. by destruct (save_run s) as (r & fs & -> & _). Qed.

(** Removing a bundle's files never rejects, whatever [rm] does, and does
    not consume a write. *)
Lemma deleteBundleFiles_run bundleId s :
  ∃ fs, deleteBundleFiles bundleId s = (Ok tt, setDisk fs s) ∧
    writeFaults fs = writeFaults (disk s).
Proof.
  unfold deleteBundleFiles, try_catch, rm.
  destruct (rmFaults (disk s)) as [|[] ?]; simpl; eauto.
Qed.

End DiskFacts.

(** ** Deleting a bundle *)

Section DeleteFacts.
Import StorageManager.
Implicit Types (s : Storage).

(** The three guards reject before anything is touched. *)
Lemma deleteBundle_rejected bundleId s :
  bundleId = BUILTIN_BUNDLE_ID ∨ bundleId = getCurrentBundleId s
    ∨ getNextBundleId s = Some bundleId →
  ∃ message,
    BundleManager.deleteBundle bundleId s = (Throw (Error message), s) ∧
    (bundleId ≠ BUILTIN_BUNDLE_ID → bundleId = getCurrentBundleId s →
       message = "Cannot delete currently active bundle").
Proof.
  intros Hguard. unfold BundleManager.deleteBundle. step.
  case_bool_decide as Hb; step; [eexists; split; [done|done]|].
  case_bool_decide as Hc; step; [eexists; split; [done|done]|].
  case_bool_decide as Hn; step; [eexists; split; [done|done]|].
  exfalso. destruct Hguard as [?|[?|?]]; congruence.
Qed.

(** Past the guards the entry goes, whatever the disk does. *)
Lemma deleteBundle_accepted bundleId s :
  bundleId ≠ BUILTIN_BUNDLE_ID → bundleId ≠ getCurrentBundleId s →
  getNextBundleId s ≠ Some bundleId →
  ∃ r fs,
    BundleManager.deleteBundle bundleId s
      = (r, setDisk fs (deleteBundle bundleId s)) ∧
    (writesSucceed s →
       r = Ok tt ∧ writesSucceed (setDisk fs (deleteBundle bundleId s))).
Proof.
  intros Hb Hc Hn. unfold BundleManager.deleteBundle. step.
  rewrite !bool_decide_eq_false_2 by congruence.
  rewrite bind_run.
  destruct (deleteBundleFiles_run bundleId s) as (fs & -> & Hfs).
  step. unfold deleteBundle at 1. rewrite updManifest_setDisk.
  fold (deleteBundle bundleId s).
  destruct (save_run (setDisk fs (deleteBundle bundleId s)))
    as (r & fs' & -> & Hsave).
  exists r, fs'. split; [done|]. intros Hw.
  destruct Hsave as (-> & Hw' & _); [|done].
  unfold writesSucceed in *. simpl. by rewrite Hfs.
Qed.

Lemma deleteBundle_pointers bundleId s :
  getNextBundleId (BundleManager.deleteBundle bundleId s).2 = getNextBundleId s ∧
  getCurrentBundleId (BundleManager.deleteBundle bundleId s).2
    = getCurrentBundleId s ∧
  getLastSuccessfulBundleId (BundleManager.deleteBundle bundleId s).2
    = getLastSuccessfulBundleId s.
Proof.
  destruct (decide (bundleId = BUILTIN_BUNDLE_ID ∨ bundleId = getCurrentBundleId s
    ∨ getNextBundleId s = Some bundleId)) as [Hg|Hg].
  - by destruct (deleteBundle_rejected _ _ Hg) as (? & -> & _).
  - destruct (deleteBundle_accepted bundleId s) as (r & fs & -> & _);
      [naive_solver..|].
    by destruct s as [[d|] ?].
Qed.

End DeleteFacts.

(** ** Applying the pending update *)

Section ApplyFacts.
Import StorageManager.
Variable self : BundleManager.t.
Implicit Types (s : Storage).

(** With nothing queued, or the current bundle queued, the call changes
    nothing and reports no activation. *)
Lemma applyPendingUpdate_nothing_queued s :
  getNextBundleId s = None ∨ getNextBundleId s = Some ""
    ∨ getNextBundleId s = Some (getCurrentBundleId s) →
  BundleManager.applyPendingUpdate self s
    = (Ok {| applied := false; bundleId := getCurrentBundleId s |}, s).
Proof.
  intros Hq. unfold BundleManager.applyPendingUpdate. step.
  destruct (getNextBundleId s) as [nextId|]; [|done].
  destruct Hq as [?|[[= ->]|[= ->]]]; [done|done|].
  rewrite (bool_decide_eq_true_2 (_ = getCurrentBundleId s)) by done.
  by rewrite orb_true_r.
Qed.

(** Whatever branch the call takes, and whether or not its save is
    rejected, it leaves nothing queued that a second call would activate. *)
Lemma applyPendingUpdate_settles s :
  let s1 := (BundleManager.applyPendingUpdate self s).2 in
  getNextBundleId s1 = None ∨ getNextBundleId s1 = Some ""
    ∨ getNextBundleId s1 = Some (getCurrentBundleId s1).
Proof.
  simpl. unfold BundleManager.applyPendingUpdate. step.
  destruct (getNextBundleId s) as [nextId|] eqn:Hn; [|left; by step].
  case_bool_decide as He; simpl.
  { step. subst. auto. }
  case_bool_decide as Hc; simpl.
  { step. subst. auto. }
  step. left.
  destruct (getBundle nextId s) as [b|]; step.
  - unfold BundleManager.verify. step.
    destruct (verifyBundleIntegrity _ _ _); simpl; step; rewrite bind_run.
    + destruct (save_run (setNextBundleId None (setCurrentBundleId nextId s)))
        as ([[]|e] & fs & -> & _); simpl.
      * rewrite bind_run.
        destruct (_ && _); [rewrite catch_ignore_run|]; step; simpl.
        -- destruct (deleteBundle_pointers (getCurrentBundleId s)
             (setDisk fs (setNextBundleId None (setCurrentBundleId nextId s))))
             as (-> & _).
           apply getNextBundleId_cleared.
        -- apply getNextBundleId_cleared.
      * apply getNextBundleId_cleared.
    + destruct (save_run (setNextBundleId None (setBundle nextId (markError b) s)))
        as ([[]|e] & fs & -> & _); simpl; apply getNextBundleId_cleared.
  - rewrite bind_run.
    destruct (save_run (setNextBundleId None s))
      as ([[]|e] & fs & -> & _); simpl; apply getNextBundleId_cleared.
Qed.

End ApplyFacts.

(** C3.  [applyPendingUpdate()] is idempotent with respect to activation:
    called a second time right after a first call (nothing queued in
    between), it returns [applied = false] with the current bundle id of the
    first call, and leaves that id, and the whole state, as the first call
    left them.  This holds in every state, whatever the integrity verdict
    and the disk do. *)
Theorem applyPendingUpdate_idempotent (self : BundleManager.t) (s : Storage) :
  let s1 := (BundleManager.applyPendingUpdate self s).2 in
  BundleManager.applyPendingUpdate self s1
    = (Ok {| applied := false;
             bundleId := StorageManager.getCurrentBundleId s1 |}, s1).
Proof.
  intros s1. apply applyPendingUpdate_nothing_queued.
  apply applyPendingUpdate_settles.
Qed.

(** ** Listing *)

Section ListFacts.
Import StorageManager.
Variable self : BundleManager.t.
Implicit Types (s : Storage).

Lemma elem_of_getAllBundles s x :
  x ∈ getAllBundles s ↔ ∃ k, getBundle k s = Some x.
Proof.
  unfold getAllBundles, getBundle. destruct (data s) as [d|].
  - rewrite list_elem_of_fmap. split.
    + intros ([k v] & -> & Hin). exists k. by apply elem_of_map_to_list.
    + intros (k & Hk). exists (k, x). split; [done|].
      by apply elem_of_map_to_list.
  - split; [by intros ?%elem_of_nil|by intros (? & ?)].
Qed.

(** The existence checks read the disk, change nothing, never reject, and
    only drop bundles. *)
Lemma onDisk_run storedBundles s :
  ∃ shown, BundleManager.onDisk storedBundles s = (Ok shown, s) ∧
    ∀ x, x ∈ shown → x ∈ storedBundles.
Proof.
  induction storedBundles as [|b rest (kept & IH & Hsub)]; simpl.
  - exists []. split; [done|]. by intros x ?%elem_of_nil.
  - unfold bundleExists. step. rewrite bind_run, IH. step.
    eexists. split; [done|]. intros x.
    destruct (bool_decide _); rewrite ?elem_of_cons; [|by auto].
    intros [->|?]; auto.
Qed.

Lemma listBundles_run raw s :
  ∃ l, BundleManager.listBundles self raw s = (Ok l, s) ∧
    ∀ x, x ∈ l →
      x = BundleManager.getBuiltinBundle self ∨ ∃ k, getBundle k s = Some x.
Proof.
  unfold BundleManager.listBundles. step. rewrite bind_run.
  destruct raw.
  - step. eexists. split; [done|]. intros x [->|Hx]%elem_of_cons; [by left|].
    right. by apply elem_of_getAllBundles.
  - destruct (onDisk_run (getAllBundles s) s) as (shown & -> & Hsub). step.
    eexists. split; [done|]. intros x [->|Hx]%elem_of_cons; [by left|].
    right. by apply elem_of_getAllBundles, Hsub.
Qed.

(** On a concrete document the key invariant is checked by evaluation. *)
Lemma keyedById_decide s :
  bool_decide (map_Forall (λ k b, id b = k) (bundles (getManifest s))) →
  keyedById s.
Proof.
  intros Hkeys%bool_decide_unpack k b Hb.
  unfold getBundle, getManifest in *. destruct (data s) as [d|]; [|done].
  by apply (Hkeys k b).
Qed.

Lemma getBundle_deleted bundleId k fs s :
  getBundle k (setDisk fs (deleteBundle bundleId s))
    = if decide (bundleId = k) then None else getBundle k s.
Proof.
  destruct s as [[d|] ?]; simpl; [|by case_decide].
  unfold getBundle; simpl. apply lookup_delete.
Qed.

End ListFacts.

(** C5.  [deleteBundle(b)] throws, and changes nothing, when [b] is the
    builtin id, the current id or the queued id.  In every other case, for a
    stored [b] (the map being keyed by the bundles' ids, the manifest write
    not rejected), it resolves, the entry of [b] is gone from the bundle map
    while the other entries stay, and no bundle with id [b] is in the output
    of a [list()] that follows, raw or not. *)
Theorem deleteBundle_guards (self : BundleManager.t) (s : Storage) (b : string) :
  (b = BUILTIN_BUNDLE_ID ∨ b = StorageManager.getCurrentBundleId s
     ∨ StorageManager.getNextBundleId s = Some b →
   ∃ message, BundleManager.deleteBundle b s = (Throw (Error message), s))
  ∧
  (b ≠ BUILTIN_BUNDLE_ID → b ≠ StorageManager.getCurrentBundleId s →
   StorageManager.getNextBundleId s ≠ Some b →
   is_Some (StorageManager.getBundle b s) → keyedById s → writesSucceed s →
   ∃ s', BundleManager.deleteBundle b s = (Ok tt, s') ∧
     StorageManager.getBundle b s' = None ∧
     (∀ k, k ≠ b → StorageManager.getBundle k s' = StorageManager.getBundle k s) ∧
     ∀ raw, ∃ l, BundleManager.listBundles self raw s' = (Ok l, s') ∧
       ∀ x, x ∈ l → id x ≠ b).
Proof.
  split.
  - intros Hguard.
    destruct (deleteBundle_rejected b s Hguard) as (message & -> & _). eauto.
  - intros Hb Hc Hn _ Hkeys Hw.
    destruct (deleteBundle_accepted b s Hb Hc Hn) as (r & fs & -> & Hr).
    destruct (Hr Hw) as [-> _]. eexists. split; [done|].
    split; [|split].
    + rewrite getBundle_deleted. by case_decide.
    + intros k Hk. rewrite getBundle_deleted. by case_decide.
    + intros raw.
      destruct (listBundles_run self raw
        (StorageManager.setDisk fs (StorageManager.deleteBundle b s)))
        as (l & -> & Hl).
      exists l. split; [done|]. intros x [->|(k & Hx)]%Hl; [done|].
      rewrite getBundle_deleted in Hx. case_decide; [done|].
      by rewrite (Hkeys k x Hx).
Qed.

(** C10.  A failure of the file system while the bundle's directory is
    removed never fails [deleteBundle(b)]: for a stored [b] that is neither
    the builtin id nor current nor queued, and for every script of [rm]
    outcomes, the file-deletion step resolves, the entry of [b] is removed
    from the bundle map, and the call resolves as soon as the manifest write
    is not rejected. *)
Theorem deleteBundle_survives_rm_failure (s : Storage) (b : string) :
  is_Some (StorageManager.getBundle b s) →
  b ≠ BUILTIN_BUNDLE_ID → b ≠ StorageManager.getCurrentBundleId s →
  StorageManager.getNextBundleId s ≠ Some b →
  (StorageManager.deleteBundleFiles b s).1 = Ok tt ∧
  StorageManager.getBundle b (BundleManager.deleteBundle b s).2 = None ∧
  (writesSucceed s → (BundleManager.deleteBundle b s).1 = Ok tt).
Proof.
  intros _ Hb Hc Hn. split; [|split].
  - by destruct (deleteBundleFiles_run b s) as (fs & -> & _).
  - destruct (deleteBundle_accepted b s Hb Hc Hn) as (r & fs & -> & _).
    simpl. rewrite getBundle_deleted. by case_decide.
  - intros Hw.
    destruct (deleteBundle_accepted b s Hb Hc Hn) as (r & fs & -> & Hr).
    by destruct (Hr Hw) as [-> _].
Qed.

(** ** The bundle map stays keyed by id *)

Section Keeps.
Context (P : Storage → Prop).

Lemma keeps_ret {A} (a : A) : keeps P (mret a).
Proof. by intros s Hs. Qed.

Lemma keeps_throw {A} (e : Exn) : keeps P (throw (A:=A) e).
Proof. by intros s Hs. Qed.

Lemma keeps_modify f : (∀ s, P s → P (f s)) → keeps P (modify f).
Proof. intros Hf s Hs. by apply Hf. Qed.

Lemma keeps_bind {A B} (m : Async A) (k : A → Async B) :
  keeps P m → (∀ a, keeps P (k a)) → keeps P (m ≫= k).
Proof.
  intros Hm Hk s Hs. rewrite bind_run. specialize (Hm s Hs).
  destruct (m s) as [[a|e] s']; [by apply Hk|done].
Qed.

(** What is read from a state with [P] may be used as a fact [Q]. *)
Lemma keeps_bind_gets {A B} (Q : A → Prop) (f : Storage → A) (k : A → Async B) :
  (∀ s, P s → Q (f s)) → (∀ a, Q a → keeps P (k a)) → keeps P (gets f ≫= k).
Proof. intros Hf Hk s Hs. rewrite bind_gets. apply Hk; auto. Qed.

Lemma keeps_catch_ignore m : keeps P m → keeps P (catch_ignore m).
Proof. intros Hm s Hs. rewrite catch_ignore_run. by apply Hm. Qed.

End Keeps.

Section KeyFacts.
Import StorageManager.
Variable self : BundleManager.t.
Implicit Types (s : Storage).

Lemma keyedById_first_launch uuid fs :
  keyedById {| data := Some (createDefaultStorage uuid); disk := fs |}.
Proof. intros k b. unfold getBundle. simpl. by rewrite lookup_empty. Qed.

Lemma keyedById_data s s' : data s' = data s → keyedById s → keyedById s'.
Proof. intros Hd Hs k b. unfold getBundle. rewrite Hd. apply Hs. Qed.

(** Registering or marking a bundle under its own id. *)
Lemma keyedById_setBundle k b s :
  id b = k → keyedById s → keyedById (setBundle k b s).
Proof.
  intros Hid Hs k' b'. destruct s as [[d|] ?]; [|done].
  unfold getBundle; simpl. rewrite lookup_insert. case_decide.
  - intros [= <-]. congruence.
  - apply (Hs k' b').
Qed.

Lemma keyedById_deleteBundle k s : keyedById s → keyedById (deleteBundle k s).
Proof.
  intros Hs k' b'. destruct s as [[d|] ?]; [|done].
  unfold getBundle; simpl. rewrite lookup_delete. case_decide; [done|].
  apply (Hs k' b').
Qed.

Lemma keeps_keys_save : keeps keyedById save.
Proof. intros s. apply keyedById_data, save_data. Qed.

Lemma keeps_keys_deleteBundleFiles k : keeps keyedById (deleteBundleFiles k).
Proof.
  intros s. destruct (deleteBundleFiles_run k s) as (fs & -> & _).
  by apply keyedById_data.
Qed.

Lemma keeps_keys_pointer f :
  (∀ m, bundles (f m) = bundles m) →
  ∀ s, keyedById s → keyedById (updManifest f s).
Proof.
  intros Hf s Hs k b. destruct s as [[d|] ?]; [|done].
  unfold getBundle; simpl. rewrite Hf. apply (Hs k b).
Qed.

Lemma keeps_gets {A} (f : Storage → A) : keeps keyedById (gets f).
Proof. by intros s Hs. Qed.

Lemma keeps_keys_marked k (stored : option BundleInfo) :
  (∀ b, stored = Some b → id b = k) →
  ∀ b, stored = Some b → keeps keyedById (modify (setBundle k (markError b))).
Proof.
  intros Hid b Hb. apply keeps_modify. intros s.
  apply keyedById_setBundle. simpl. by apply Hid.
Qed.

(** One step of a proof that a method keeps the keys. *)
Ltac keys_prim :=
  first
    [ apply keeps_ret | apply keeps_throw | apply keeps_gets
    | apply keeps_keys_save | apply keeps_keys_deleteBundleFiles
    | apply keeps_catch_ignore
    | apply keeps_modify; first
        [ apply keeps_keys_pointer; by intros ?
        | intros ?; apply keyedById_deleteBundle ]
    | apply keeps_bind; [|intros ?] ].

Lemma keeps_keys_deleteBundle k : keeps keyedById (BundleManager.deleteBundle k).
Proof.
  unfold BundleManager.deleteBundle. do 2 (keys_prim; [keys_prim|]).
  repeat case_match; repeat keys_prim.
Qed.

Ltac keys_step := first [ apply keeps_keys_deleteBundle | keys_prim ].

(** Reading a bundle under a key: its id is the key. *)
Ltac keys_read :=
  lazymatch goal with
  | |- keeps _ (gets (getBundle ?key) ≫= _) =>
      apply (keeps_bind_gets _ (λ stored, ∀ b, stored = Some b → id b = key));
      [ let s := fresh "s" in let Hs := fresh "Hs" in
        intros s Hs ?; apply Hs | ]
  end.

Lemma keeps_keys_next k : keeps keyedById (BundleManager.next self k).
Proof.
  unfold BundleManager.next, BundleManager.verify.
  keys_step; [keys_step|]. repeat case_match; repeat keys_step.
  case_match; repeat keys_step.
Qed.

Lemma keeps_keys_set k : keeps keyedById (BundleManager.set self k).
Proof.
  unfold BundleManager.set, BundleManager.verify.
  keys_step; [keys_step|]. case_match; repeat keys_step.
  - case_match; repeat keys_step. case_match; repeat keys_step.
  - case_match; repeat keys_step.
Qed.

Lemma keeps_keys_setBundleError k allowManualBundleError :
  keeps keyedById (BundleManager.setBundleError self k allowManualBundleError).
Proof.
  unfold BundleManager.setBundleError. case_match; [keys_step|].
  keys_read. intros [b|] Hid; [|keys_step]. cbv zeta.
  keys_step; [by eapply keeps_keys_marked|].
  keys_step; [|repeat keys_step].
  case_match; repeat keys_step.
Qed.

Lemma keeps_keys_getFailedUpdate : keeps keyedById BundleManager.getFailedUpdate.
Proof. intros s. by apply keeps_keys_pointer. Qed.

Lemma keeps_keys_recordFailedUpdate b :
  keeps keyedById (BundleManager.recordFailedUpdate b).
Proof. unfold BundleManager.recordFailedUpdate. repeat keys_step. Qed.

Lemma keeps_keys_reset toLastSuccessful :
  keeps keyedById (BundleManager.reset toLastSuccessful).
Proof. unfold BundleManager.reset. repeat keys_step. Qed.

Lemma keeps_keys_markBundleSuccessful :
  keeps keyedById BundleManager.markBundleSuccessful.
Proof. unfold BundleManager.markBundleSuccessful. repeat keys_step. Qed.

Lemma keeps_keys_applyPendingUpdate :
  keeps keyedById (BundleManager.applyPendingUpdate self).
Proof.
  unfold BundleManager.applyPendingUpdate, BundleManager.verify.
  do 2 (keys_step; [keys_step|]).
  case_match; [|keys_step]. case_match; [keys_step|].
  keys_read. intros [b|] Hid; [|repeat keys_step].
  keys_step; [keys_step|]. case_match.
  - keys_step; [by eapply keeps_keys_marked|]. repeat keys_step.
  - cbv zeta. repeat keys_step.
    case_match; repeat keys_step.
Qed.

Lemma keeps_keys_rollback : keeps keyedById (BundleManager.rollback self).
Proof.
  unfold BundleManager.rollback.
  do 2 (keys_step; [keys_step|]). cbv zeta.
  keys_read. intros [b|] Hid.
  - keys_step.
    + keys_step; [by eapply keeps_keys_marked|].
      keys_step; [apply keeps_keys_recordFailedUpdate|].
      case_match; repeat keys_step.
    + repeat keys_step.
  - repeat keys_step.
Qed.

End KeyFacts.

(** ** Rolling back *)

Section RollbackFacts.
Import StorageManager.
Variable self : BundleManager.t.
Implicit Types (s : Storage).

Lemma recordFailedUpdate_run b s :
  ∃ r fs,
    BundleManager.recordFailedUpdate b s
      = (r, setDisk fs (setFailedUpdate (Some {| bundle := b |}) s)) ∧
    (writesSucceed s → r = Ok tt ∧ writesSucceed (setDisk fs s)).
Proof.
  unfold BundleManager.recordFailedUpdate. step.
  destruct (save_run (setFailedUpdate (Some {| bundle := b |}) s))
    as (r & fs & -> & Hr).
  exists r, fs. split; [done|]. intros Hw.
  destruct Hr as (-> & Hw' & _); [by destruct s as [[d|] ?]|].
  split; [done|]. by destruct s as [[d|] ?].
Qed.

(** [rollback] step by step.  Either a save is rejected and the call
    rejects, or it resolves in [rolledBack s]; the bundle that was current
    is marked and recorded in both cases. *)
Lemma rollback_run s :
  ∃ r s', BundleManager.rollback self s = (r, s') ∧
    (∀ b, getBundle (getCurrentBundleId s) s = Some b →
       getBundle (getCurrentBundleId s) s' = Some (markError b) ∧
       getFailedUpdate s' = Some {| bundle := markError b |}) ∧
    (writesSucceed s →
       data s' = data (rolledBack s) ∧ synced s' ∧
       r = Ok (default (BundleManager.getBuiltinBundle self)
                 (getBundle (rollbackTarget s) s'))).
Proof.
  unfold BundleManager.rollback. step.
  fold (rollbackTarget s).
  destruct (getBundle (getCurrentBundleId s) s) as [b|] eqn:Hcur.
  - rewrite bind_run. step. rewrite bind_run.
    destruct (recordFailedUpdate_run (markError b)
      (setBundle (getCurrentBundleId s) (markError b) s))
      as (r1 & fs1 & -> & Hr1).
    set (s1 := setFailedUpdate _ _) in *.
    assert (Hs1 : getBundle (getCurrentBundleId s) s1 = Some (markError b) ∧
                  getFailedUpdate s1 = Some {| bundle := markError b |}).
    { unfold s1. destruct s as [[d|] ?]; [|done]. unfold getBundle; simpl.
      by rewrite lookup_insert_eq. }
    assert (Hc1 : getCurrentBundleId (setDisk fs1 s1) = getCurrentBundleId s).
    { unfold s1. by destruct s as [[d|] ?]. }
    destruct r1 as [[]|e].
    + (* the failed update is saved; the delete, if any, is rejected *)
      assert (∃ u, (if BundleManager.autoDeleteFailed self
                    then catch_ignore
                           (BundleManager.deleteBundle (getCurrentBundleId s))
                    else mret tt) (setDisk fs1 s1) = (Ok u, setDisk fs1 s1))
        as [[] ->].
      { destruct (BundleManager.autoDeleteFailed self); [|by exists tt].
        rewrite catch_ignore_run.
        destruct (deleteBundle_rejected (getCurrentBundleId s) (setDisk fs1 s1))
          as (msg & -> & _); [rewrite Hc1; auto|]. by exists tt. }
      step.
      destruct (save_run (setNextBundleId None
        (setCurrentBundleId (rollbackTarget s) (setDisk fs1 s1))))
        as (r2 & fs2 & E2 & Hr2).
      rewrite bind_run, E2.
      set (s2 := setDisk fs2 _) in *.
      assert (Hd2 : data s2 = data (rolledBack s)).
      { unfold s2, rolledBack, s1. rewrite Hcur.
        by destruct s as [[d|] ?]. }
      assert (Hs2 : getBundle (getCurrentBundleId s) s2 = Some (markError b) ∧
                    getFailedUpdate s2 = Some {| bundle := markError b |}).
      { unfold s2, s1. destruct s as [[d|] ?]; [|done]. unfold getBundle; simpl.
        by rewrite lookup_insert_eq. }
      destruct r2 as [[]|e]; step.
      * eexists _, s2. split; [done|]. split; [by intros ? [= <-]|].
        intros Hw. split; [done|]. split; [|done].
        destruct Hr1 as [_ Hw1].
        { unfold writesSucceed in *. by destruct s as [[d|] ?]. }
        destruct Hr2 as (_ & Hw2 & Hfile).
        { unfold writesSucceed in *. unfold s1 in *. by destruct s as [[d|] ?]. }
        split; [done|]. intros d Hd. unfold s2 in *. simpl in *.
        rewrite <- Hd. apply Hfile. by eexists.
      * eexists _, s2. split; [done|]. split; [by intros ? [= <-]|].
        intros Hw. exfalso.
        destruct Hr1 as [_ Hw1].
        { unfold writesSucceed in *. by destruct s as [[d|] ?]. }
        destruct Hr2 as (? & _); [|done].
        unfold writesSucceed in *. unfold s1 in *. by destruct s as [[d|] ?].
    + eexists _, _. split; [done|]. split; [by intros ? [= <-]|].
      intros Hw. exfalso. destruct Hr1 as [? _]; [|done].
      unfold writesSucceed in *. by destruct s as [[d|] ?].
  - step.
    destruct (save_run (setNextBundleId None
      (setCurrentBundleId (rollbackTarget s) s))) as (r2 & fs2 & E2 & Hr2).
    rewrite bind_run, E2.
    set (s2 := setDisk fs2 _) in *.
    assert (Hd2 : data s2 = data (rolledBack s)).
    { unfold s2, rolledBack. by rewrite Hcur. }
    destruct r2 as [[]|e]; step.
    + eexists _, s2. split; [done|]. split; [done|].
      intros Hw. split; [done|]. split; [|done].
      destruct Hr2 as (_ & Hw2 & Hfile).
      { unfold writesSucceed in *. by destruct s as [[d|] ?]. }
      split; [done|]. intros d Hd. unfold s2 in *. simpl in *.
      rewrite <- Hd. apply Hfile. by eexists.
    + eexists _, s2. split; [done|]. split; [done|].
      intros Hw. exfalso. destruct Hr2 as (? & _); [|done].
      unfold writesSucceed in *. by destruct s as [[d|] ?].
Qed.

Lemma rolledBack_pointers s :
  getCurrentBundleId (rolledBack s) = rollbackTarget s ∧
  getNextBundleId (rolledBack s) = None.
Proof.
  unfold rolledBack.
  destruct (getBundle (getCurrentBundleId s) s); by destruct s as [[d|] ?].
Qed.

(** The getters read the document in memory only. *)
Lemma getters_data s s' :
  data s = data s' →
  getCurrentBundleId s = getCurrentBundleId s' ∧
  getNextBundleId s = getNextBundleId s' ∧
  getLastSuccessfulBundleId s = getLastSuccessfulBundleId s' ∧
  getFailedUpdate s = getFailedUpdate s' ∧
  ∀ k, getBundle k s = getBundle k s'.
Proof. storage_unfold. by intros ->. Qed.

Lemma rolledBack_other_bundles s k :
  k ≠ getCurrentBundleId s → getBundle k (rolledBack s) = getBundle k s.
Proof.
  intros Hk. unfold rolledBack.
  destruct (getBundle (getCurrentBundleId s) s) as [b|] eqn:Hb;
    destruct s as [[d|] ?]; try done.
  unfold getBundle; simpl. apply lookup_insert_ne. congruence.
Qed.

(** Away from the missed case the target is as good as it was: when the
    last successful bundle is not the current one and is not marked
    [error], the bundle that [current()] resolves after [rollback()] is
    not an [error] bundle. *)
Lemma rollback_to_good_bundle s :
  writesSucceed s →
  rollbackTarget s ≠ getCurrentBundleId s →
  (∀ b, getBundle (rollbackTarget s) s = Some b → status b ≠ error) →
  ∃ r s' c, BundleManager.rollback self s = (Ok r, s') ∧
    BundleManager.current self s' = (Ok c, s') ∧
    status (cur_bundle c) ≠ error.
Proof.
  intros Hw Hne Hgood.
  destruct (rollback_run s) as (r & s' & Hrun & _ & Hok).
  destruct (Hok Hw) as (Hdata & _ & ->).
  destruct (getters_data _ _ Hdata) as (Hcur & _ & _ & _ & Hbundles).
  destruct (rolledBack_pointers s) as [Htarget _].
  assert (∃ c, BundleManager.current self s' = (Ok c, s') ∧
               status (cur_bundle c) ≠ error) as (c & Hc & Hstatus).
  { unfold BundleManager.current. step. rewrite Hcur, Htarget.
    case_bool_decide as Hb; step; [by eexists|].
    rewrite Hbundles, rolledBack_other_bundles by done.
    eexists. split; [done|]. simpl.
    destruct (getBundle (rollbackTarget s) s) as [b|] eqn:Hb'; simpl; [|done].
    by apply Hgood. }
  by eexists _, s', c.
Qed.

End RollbackFacts.

(** C2.  With the disk available, [rollback()] resolves and leaves this
    state: when the current bundle id resolved to a stored bundle, that
    bundle now has status [error] under the same key and is the
    failed-update record; and, stored current bundle or not, the current id
    is the last successful id if there is one and the builtin id otherwise,
    and nothing is queued. *)
Theorem rollback_effect (self : BundleManager.t) (s : Storage) :
  writesSucceed s →
  ∃ r s', BundleManager.rollback self s = (Ok r, s') ∧
    (∀ b, StorageManager.getBundle (StorageManager.getCurrentBundleId s) s = Some b →
       StorageManager.getBundle (StorageManager.getCurrentBundleId s) s'
         = Some (markError b) ∧
       status (markError b) = error ∧
       StorageManager.getFailedUpdate s' = Some {| bundle := markError b |}) ∧
    StorageManager.getCurrentBundleId s'
      = default BUILTIN_BUNDLE_ID (StorageManager.getLastSuccessfulBundleId s) ∧
    StorageManager.getNextBundleId s' = None.
Proof.
  intros Hw.
  destruct (rollback_run self s) as (r & s' & Hrun & Hmark & Hok).
  destruct (Hok Hw) as (Hdata & _ & ->).
  eexists _, s'. split; [done|]. split.
  - intros b Hb. destruct (Hmark b Hb) as [? ?]. by repeat split.
  - destruct (getters_data _ _ Hdata) as (-> & -> & _).
    apply rolledBack_pointers.
Qed.

(** C9.  With auto-delete-failed enabled and the current bundle id resolving
    to a stored bundle, [rollback()] does not remove that bundle's entry:
    [deleteBundle] on the id that is still current is rejected, without any
    change, by its guards (by the currently-active-bundle guard, the id not
    being the builtin one), and after [rollback()], whether it resolved or
    rejected, the bundle is in the map with status [error]. *)
Theorem rollback_keeps_failed_entry
    (self : BundleManager.t) (s : Storage) (b : BundleInfo) :
  BundleManager.autoDeleteFailed self = true →
  StorageManager.getBundle (StorageManager.getCurrentBundleId s) s = Some b →
  (∀ s1,
     StorageManager.getCurrentBundleId s1 = StorageManager.getCurrentBundleId s →
     ∃ message,
       BundleManager.deleteBundle (StorageManager.getCurrentBundleId s) s1
         = (Throw (Error message), s1) ∧
       (StorageManager.getCurrentBundleId s ≠ BUILTIN_BUNDLE_ID →
          message = "Cannot delete currently active bundle")) ∧
  StorageManager.getBundle (StorageManager.getCurrentBundleId s)
    (BundleManager.rollback self s).2 = Some (markError b) ∧
  status (markError b) = error.
Proof.
  intros _ Hb. split; [|split; [|done]].
  - intros s1 Hs1.
    destruct (deleteBundle_rejected (StorageManager.getCurrentBundleId s) s1)
      as (message & -> & Hmsg); [by rewrite Hs1; auto|].
    exists message. split; [done|]. intros Hne. by apply Hmsg.
  - destruct (rollback_run self s) as (r & s' & -> & Hmark & _).
    by destruct (Hmark b Hb).
Qed.

(** C1, as the code has it.  When the last successful bundle is the current
    one (the state [markBundleSuccessful()] leaves), [rollback()] marks that
    bundle [error] and then keeps it current: the bundle that [current()]
    resolves afterwards has status [error]. *)
Theorem rollback_onto_failed_bundle
    (self : BundleManager.t) (s : Storage) (b : BundleInfo) :
  writesSucceed s →
  StorageManager.getCurrentBundleId s ≠ BUILTIN_BUNDLE_ID →
  StorageManager.getBundle (StorageManager.getCurrentBundleId s) s = Some b →
  StorageManager.getLastSuccessfulBundleId s
    = Some (StorageManager.getCurrentBundleId s) →
  ∃ r s', BundleManager.rollback self s = (Ok r, s') ∧
    StorageManager.getCurrentBundleId s' = StorageManager.getCurrentBundleId s ∧
    ∃ c, BundleManager.current self s' = (Ok c, s') ∧
      status (cur_bundle c) = error.
Proof.
  intros Hw Hne Hb Hlast.
  destruct (rollback_run self s) as (r & s' & Hrun & Hmark & Hok).
  destruct (Hok Hw) as (Hdata & _ & ->).
  destruct (Hmark b Hb) as [Hb' _].
  assert (Hcur : StorageManager.getCurrentBundleId s'
                 = StorageManager.getCurrentBundleId s).
  { destruct (getters_data _ _ Hdata) as (-> & _).
    destruct (rolledBack_pointers s) as [-> _].
    unfold rollbackTarget. by rewrite Hlast. }
  eexists _, s'. split; [done|]. split; [done|].
  unfold BundleManager.current. step. rewrite Hcur.
  rewrite bool_decide_eq_false_2 by done. cbv iota. step.
  rewrite Hb'. by eexists.
Qed.

(** ** Queueing the next bundle *)

(** C4.  For a bundle id [b]: if [b] is stored with a status other than
    [success], or fails the integrity check, or is unknown, [next(b)] throws
    and the state is untouched.  If [b] is stored with status [success] and
    passes the check, the manifest becomes the old one with [nextBundleId]
    set to [b] and nothing else changed: afterwards the queued id reads [b],
    and the current id, every entry of the bundle map, the last successful
    id, the failed-update record, the delay conditions, the custom id, the
    channel and the device id read as before.  The call resolves (with the
    stored bundle, the document saved, so that a later process loads [b] as
    the queued id) as soon as the manifest write is not rejected.
    Conversely [next(b)] only resolves for a stored [b] of status [success]
    that passes the check. *)
Theorem next_spec (self : BundleManager.t) (s : Storage) (b : string) :
  let verified :=
    verifyBundleIntegrity (BundleManager.downloadManager self) b s in
  (∀ info, StorageManager.getBundle b s = Some info →
     (¬ (status info = success ∧ verified = true) →
        ∃ message, BundleManager.next self b s = (Throw (Error message), s)) ∧
     (status info = success → verified = true →
        ∃ r fs,
          BundleManager.next self b s
            = (r, StorageManager.setDisk fs
                    (StorageManager.setNextBundleId (Some b) s)) ∧
          (writesSucceed s →
             r = Ok info ∧
             storageFile fs
               = data (StorageManager.setNextBundleId (Some b) s)) ∧
          (∀ s', s' = StorageManager.setDisk fs
                        (StorageManager.setNextBundleId (Some b) s) →
             StorageManager.getNextBundleId s' = Some b ∧
             StorageManager.getCurrentBundleId s'
               = StorageManager.getCurrentBundleId s ∧
             (∀ k, StorageManager.getBundle k s' = StorageManager.getBundle k s) ∧
             StorageManager.getLastSuccessfulBundleId s'
               = StorageManager.getLastSuccessfulBundleId s ∧
             StorageManager.getFailedUpdate s' = StorageManager.getFailedUpdate s ∧
             StorageManager.getDelayConditions s'
               = StorageManager.getDelayConditions s ∧
             StorageManager.getCustomId s' = StorageManager.getCustomId s ∧
             StorageManager.getChannel s' = StorageManager.getChannel s ∧
             StorageManager.getDeviceId s' = StorageManager.getDeviceId s ∧
             (writesSucceed s → ∀ uuid,
                nextBundleId (manifest (StorageManager.loadStorage uuid fs))
                  = Some b)))) ∧
  (StorageManager.getBundle b s = None →
     ∃ message, BundleManager.next self b s = (Throw (Error message), s)) ∧
  (∀ r s', BundleManager.next self b s = (Ok r, s') →
     ∃ info, StorageManager.getBundle b s = Some info ∧
       status info = success ∧ verified = true).
Proof.
  intros verified. unfold verified. clear verified.
  unfold BundleManager.next, BundleManager.verify. step.
  destruct (StorageManager.getBundle b s) as [info|] eqn:Hb.
  - case_bool_decide as Hst; cbv iota beta delta [negb].
    + step.
      destruct (verifyBundleIntegrity _ b s) eqn:Hv; cbv iota beta delta [negb].
      * step.
        destruct (save_run (StorageManager.setNextBundleId (Some b) s))
          as (r & fs & Hsave & Hr).
        rewrite bind_run, Hsave.
        split; [|split; [done|]].
        -- intros ? [= <-]. split; [by intros []|]. intros _ _.
           assert (Hreads : ∀ s', s' = StorageManager.setDisk fs
                        (StorageManager.setNextBundleId (Some b) s) →
             StorageManager.getNextBundleId s' = Some b ∧
             StorageManager.getCurrentBundleId s'
               = StorageManager.getCurrentBundleId s ∧
             (∀ k, StorageManager.getBundle k s' = StorageManager.getBundle k s) ∧
             StorageManager.getLastSuccessfulBundleId s'
               = StorageManager.getLastSuccessfulBundleId s ∧
             StorageManager.getFailedUpdate s' = StorageManager.getFailedUpdate s ∧
             StorageManager.getDelayConditions s'
               = StorageManager.getDelayConditions s ∧
             StorageManager.getCustomId s' = StorageManager.getCustomId s ∧
             StorageManager.getChannel s' = StorageManager.getChannel s ∧
             StorageManager.getDeviceId s' = StorageManager.getDeviceId s ∧
             (writesSucceed s → ∀ uuid,
                nextBundleId (manifest (StorageManager.loadStorage uuid fs))
                  = Some b)).
           { intros s' ->. destruct s as [[d|] fs0]; [|done].
             repeat (split; [done|]). intros Hw uuid.
             destruct Hr as (_ & _ & Hfile); [done|].
             unfold StorageManager.loadStorage. rewrite Hfile by by eexists.
             done. }
           destruct r as [[]|e]; step.
           ++ eexists _, fs. split; [done|]. split; [|done]. intros Hw.
              destruct Hr as (_ & _ & Hfile).
              { unfold writesSucceed in *. by destruct s as [[d|] ?]. }
              split; [done|]. apply Hfile.
              destruct s as [[d|] ?]; [by eexists|done].
           ++ eexists _, fs. split; [done|]. split; [|done]. intros Hw. exfalso.
              destruct Hr as (? & _); [|done].
              unfold writesSucceed in *. by destruct s as [[d|] ?].
        -- intros r0 s' _. by exists info.
      * step. split; [|split; [done|by intros ? ? [=]]].
        intros ? [= <-]. split; [by eexists|]. by intros _ [=].
    + step. split; [|split; [done|by intros ? ? [=]]].
      intros ? [= <-]. split; [by eexists|]. by intros ? _.
  - step. split; [by intros ? [=]|]. split; [by eexists|by intros ? ? [=]].
Qed.

(** ** The date condition *)

Section DateFacts.
Import DelayManager.
Variable Date_parse : string → TimeValue.
Variable now : Z.

(** An absent or empty value: satisfied. *)
Lemma date_absent_satisfied (value : option string) :
  value = None ∨ value = Some "" →
  isDateConditionSatisfied Date_parse now value = true.
Proof. by intros [->| ->]. Qed.

(** A value that parses: satisfied exactly from the parsed instant on. *)
Lemma date_parsed_satisfied (v : string) (t : Z) :
  v ≠ "" → Date_parse v = Ms t →
  isDateConditionSatisfied Date_parse now (Some v) = true ↔ (t ≤ now)%Z.
Proof.
  intros Hv Ht. unfold isDateConditionSatisfied, dateReached; simpl.
  rewrite (bool_decide_eq_false_2 (v = "")) by done. simpl.
  rewrite Ht. simpl. apply bool_decide_eq_true.
Qed.

End DateFacts.

(** C6, as the code has it.  A date condition whose value is a non-empty
    string that the date parser rejects is not satisfied, at any time:
    [new Date(value)] does not throw, its time value is [NaN], and
    [Date.now() >= NaN] is false, so the [catch] that would answer [true]
    is never entered. *)
Theorem date_unparsable_not_satisfied
    (Date_parse : string → DelayManager.TimeValue) (now : Z) (v : string) :
  v ≠ "" → Date_parse v = DelayManager.NaN →
  DelayManager.isDateConditionSatisfied Date_parse now (Some v) = false.
Proof.
  intros Hv Hnan. unfold DelayManager.isDateConditionSatisfied; simpl.
  rewrite (bool_decide_eq_false_2 (v = "")) by done. simpl.
  unfold DelayManager.dateReached. by rewrite Hnan.
Qed.

(** ** Every other mutator saves

    With the disk available, each operation of the bundle manager that
    changes the manifest leaves the storage file equal to the document in
    memory.  [getFailedUpdate] is the exception. *)

Section SyncFacts.
Import StorageManager.
Variable self : BundleManager.t.
Implicit Types (s : Storage).















End SyncFacts.

(** ** The failed-update record *)

(** C7, as the code has it.  [getFailedUpdate()] returns the stored record
    and clears it in memory, but does not touch the disk: starting with
    memory and disk in step, the storage file still holds the record after
    the call, memory and disk are out of step, and the storage loaded by the
    next process has the record again. *)
Theorem getFailedUpdate_not_saved
    (s : Storage) (f : UpdateFailedEvent) (uuid : string) :
  synced s →
  StorageManager.getFailedUpdate s = Some f →
  ∃ s', BundleManager.getFailedUpdate s = (Ok (Some f), s') ∧
    StorageManager.getFailedUpdate s' = None ∧
    disk s' = disk s ∧
    ¬ synced s' ∧
    failedUpdate (manifest (StorageManager.loadStorage uuid (disk s'))) = Some f.
Proof.
  intros [Hw Hfile] Hf. destruct s as [[d|] fs]; [|done].
  specialize (Hfile d eq_refl). simpl in *.
  unfold BundleManager.getFailedUpdate. simpl.
  eexists. split; [by rewrite Hf|]. split; [done|]. split; [done|].
  unfold StorageManager.getFailedUpdate in Hf. simpl in Hf. split.
  - intros [_ Hfile']. specialize (Hfile' _ eq_refl). simpl in Hfile'.
    rewrite Hfile in Hfile'. injection Hfile' as Hd.
    apply (f_equal (λ d, failedUpdate (manifest d))) in Hd. simpl in Hd.
    congruence.
  - simpl. unfold StorageManager.loadStorage. by rewrite Hfile.
Qed.

(** ** Session keys *)

Section SessionKeyFacts.
Import CryptoManager.

(** [split] yields one field more than there are separators. *)
Lemma length_split sep s : length (split sep s) = S (separators sep s).
Proof.
  induction s as [|c rest IH]; [done|]. simpl.
  destruct (Ascii.eqb c sep); simpl; [by rewrite IH|].
  destruct (split sep rest) as [|first others]; [done|]. simpl in *. lia.
Qed.

Lemma split_two sep s :
  length (split sep s) = 2 → ∃ p0 p1, split sep s = [p0; p1].
Proof.
  destruct (split sep s) as [|p0 [|p1 [|]]]; try done. by eexists _, _.
Qed.

End SessionKeyFacts.

(** C8.  For every input string, whatever the decoder and the RSA
    primitive do, [parseSessionKey] returns and does not throw.  The result
    is [null] when the input does not split on colons into exactly two
    fields, and [null] for every input when no public key is set (or the
    key is empty).  A recovered key comes only from a two-field input under
    a set key: its IV is the decoded first field and its AES key is what
    the RSA primitive recovered from the decoded second field. *)
Theorem parseSessionKey_no_verdict
    (fromBase64 : string → CryptoManager.Buffer)
    (publicDecrypt : string → CryptoManager.Buffer → Outcome CryptoManager.Buffer)
    (self : CryptoManager.t) (sessionKey : string) :
  ∃ r,
    CryptoManager.parseSessionKey fromBase64 publicDecrypt self sessionKey = Ok r ∧
    (length (CryptoManager.split ":" sessionKey) ≠ 2 → r = None) ∧
    (separators ":" sessionKey ≠ 1 → r = None) ∧
    (CryptoManager.publicKey self = None
       ∨ CryptoManager.publicKey self = Some "" → r = None) ∧
    (∀ k, r = Some k →
       ∃ key p0 p1,
         CryptoManager.publicKey self = Some key ∧ key ≠ "" ∧
         CryptoManager.split ":" sessionKey = [p0; p1] ∧
         CryptoManager.iv k = fromBase64 p0 ∧
         publicDecrypt key (fromBase64 p1) = Ok (CryptoManager.aesKey k)).
Proof.
  assert (Hsep : separators ":" sessionKey ≠ 1 →
                 length (CryptoManager.split ":" sessionKey) ≠ 2).
  { rewrite length_split. lia. }
  unfold CryptoManager.parseSessionKey.
  destruct (CryptoManager.publicKey self) as [key|]; simpl.
  - case_bool_decide as Hkey; simpl.
    { exists None. repeat split; try done. }
    unfold CryptoManager.decryptParts.
    destruct (length (CryptoManager.split ":" sessionKey) =? 2) eqn:Hlen; simpl.
    + apply Nat.eqb_eq in Hlen.
      destruct (split_two _ _ Hlen) as (p0 & p1 & Hparts).
      rewrite Hparts. simpl.
      destruct (publicDecrypt key (fromBase64 p1)) as [aesKey|e] eqn:Hrsa.
      * eexists. split; [done|]. split; [by intros []|].
        split; [by intros []%Hsep|]. split; [by intros [?|[= ?]]|].
        intros k [= <-]. by exists key, p0, p1.
      * exists None. split; [done|]. repeat split; try done.
    + exists None. split; [done|]. repeat split; try done.
  - exists None. split; [done|]. repeat split; try done.
Qed.

(** * The theorems at work on a device *)

Lemma second_apply_example :
  BundleManager.applyPendingUpdate manager
    (BundleManager.applyPendingUpdate manager
       (BundleManager.next manager "b1" downloadedB1).2).2
  = (Ok {| applied := false; bundleId := "b1" |},
     (BundleManager.applyPendingUpdate manager
        (BundleManager.next manager "b1" downloadedB1).2).2).
Proof. by vm_compute. Qed.

Lemma rollback_effect_witness :
  ∃ r s', BundleManager.rollback manager activatedB1 = (Ok r, s') ∧
    StorageManager.getBundle "b1" s' = Some (markError b1) ∧
    StorageManager.getFailedUpdate s' = Some {| bundle := markError b1 |} ∧
    StorageManager.getCurrentBundleId s' = BUILTIN_BUNDLE_ID ∧
    StorageManager.getNextBundleId s' = None.
Proof.
  destruct (rollback_effect manager activatedB1) as (r & s' & Hrun & Hmark & Hcur & Hnext).
  { unfold writesSucceed. vm_compute. constructor. }
  exists r, s'. split; [exact Hrun|].
  destruct (Hmark b1) as (Hb & _ & Hf); [vm_compute; reflexivity|].
  split; [exact Hb|]. split; [exact Hf|]. split; [exact Hcur|exact Hnext].
Defined.

Lemma rollback_keeps_failed_entry_witness :
  StorageManager.getBundle "b1" (BundleManager.rollback manager activatedB1).2
    = Some (markError b1)
  ∧ ∃ message,
      BundleManager.deleteBundle "b1" activatedB1
        = (Throw (Error message), activatedB1) ∧
      message = "Cannot delete currently active bundle".
Proof.
  destruct (rollback_keeps_failed_entry manager activatedB1 b1)
    as (Hguard & Hkept & _); [reflexivity|vm_compute; reflexivity|].
  split; [exact Hkept|].
  destruct (Hguard activatedB1) as (message & Hrun & Hmsg); [reflexivity|].
  exists message. split; [exact Hrun|]. apply Hmsg. vm_compute. discriminate.
Defined.

Lemma rollback_onto_failed_bundle_witness :
  ∃ r s', BundleManager.rollback manager confirmedB1 = (Ok r, s') ∧
    StorageManager.getCurrentBundleId s'
      = StorageManager.getCurrentBundleId confirmedB1 ∧
    ∃ c, BundleManager.current manager s' = (Ok c, s') ∧
      status (cur_bundle c) = error.
Proof.
  apply (rollback_onto_failed_bundle manager confirmedB1 b1).
  - unfold writesSucceed. vm_compute. constructor.
  - vm_compute. discriminate.
  - vm_compute. reflexivity.
  - vm_compute. reflexivity.
Defined.

Lemma deleteBundle_guards_witness :
  (∃ message,
     BundleManager.deleteBundle "b1" downloadedB2
       = (Throw (Error message), downloadedB2)) ∧
  ∃ s', BundleManager.deleteBundle "b2" downloadedB2 = (Ok tt, s') ∧
    StorageManager.getBundle "b2" s' = None ∧
    ∀ raw, ∃ l, BundleManager.listBundles manager raw s' = (Ok l, s') ∧
      ∀ x, x ∈ l → id x ≠ "b2".
Proof.
  split.
  - destruct (deleteBundle_guards manager downloadedB2 "b1") as [Hguard _].
    apply Hguard. right. left. vm_compute. reflexivity.
  - destruct (deleteBundle_guards manager downloadedB2 "b2") as [_ Hgone].
    destruct Hgone as (s' & Hrun & Hnone & _ & Hlist).
    + vm_compute. discriminate.
    + vm_compute. discriminate.
    + vm_compute. discriminate.
    + exists b2. vm_compute. reflexivity.
    + apply keyedById_decide. vm_compute. exact I.
    + unfold writesSucceed. vm_compute. constructor.
    + exists s'. split; [exact Hrun|]. split; [exact Hnone|exact Hlist].
Defined.

(** The [rm] of [b2]'s directory is rejected, the directory stays, and the
    entry is removed all the same. *)
Lemma deleteBundle_survives_rm_failure_witness :
  (StorageManager.rm "b2" downloadedB2).1 = Throw FsError ∧
  (StorageManager.deleteBundleFiles "b2" downloadedB2).1 = Ok tt ∧
  StorageManager.getBundle "b2" (BundleManager.deleteBundle "b2" downloadedB2).2
    = None ∧
  (BundleManager.deleteBundle "b2" downloadedB2).1 = Ok tt.
Proof.
  split; [vm_compute; reflexivity|].
  destruct (deleteBundle_survives_rm_failure downloadedB2 "b2")
    as (Hfiles & Hgone & Hok).
  - exists b2. vm_compute. reflexivity.
  - vm_compute. discriminate.
  - vm_compute. discriminate.
  - vm_compute. discriminate.
  - split; [exact Hfiles|]. split; [exact Hgone|]. apply Hok.
    unfold writesSucceed. vm_compute. constructor.
Defined.

Lemma next_spec_witness :
  ∃ fs,
    BundleManager.next manager "b1" downloadedB1
      = (Ok b1, StorageManager.setDisk fs
                  (StorageManager.setNextBundleId (Some "b1") downloadedB1)) ∧
    storageFile fs
      = data (StorageManager.setNextBundleId (Some "b1") downloadedB1) ∧
    StorageManager.getNextBundleId
      (StorageManager.setDisk fs
         (StorageManager.setNextBundleId (Some "b1") downloadedB1)) = Some "b1" ∧
    StorageManager.getCurrentBundleId
      (StorageManager.setDisk fs
         (StorageManager.setNextBundleId (Some "b1") downloadedB1))
      = BUILTIN_BUNDLE_ID ∧
    nextBundleId (manifest (StorageManager.loadStorage "device-2" fs))
      = Some "b1".
Proof.
  destruct (next_spec manager downloadedB1 "b1") as (Hstored & _ & _).
  destruct (Hstored b1) as (_ & Hpass); [vm_compute; reflexivity|].
  destruct Hpass as (r & fs & Hrun & Hr & Hreads); [reflexivity|reflexivity|].
  assert (writesSucceed downloadedB1) as Hw.
  { unfold writesSucceed. vm_compute. constructor. }
  destruct (Hr Hw) as (-> & Hfile).
  destruct (Hreads _ eq_refl)
    as (Hqueued & Hcurrent & _ & _ & _ & _ & _ & _ & _ & Hloaded).
  exists fs. split; [exact Hrun|]. split; [exact Hfile|].
  split; [exact Hqueued|]. split; [exact Hcurrent|]. exact (Hloaded Hw "device-2").
Defined.

(** After the rollback of [b1] the record is read once and cleared, and the
    next process reads it again. *)
Lemma getFailedUpdate_not_saved_witness :
  ∃ s', BundleManager.getFailedUpdate rolledBackB1
          = (Ok (Some {| bundle := markError b1 |}), s') ∧
    StorageManager.getFailedUpdate s' = None ∧
    disk s' = disk rolledBackB1 ∧
    ¬ synced s' ∧
    failedUpdate (manifest (StorageManager.loadStorage "device-2" (disk s')))
      = Some {| bundle := markError b1 |}.
Proof.
  apply (getFailedUpdate_not_saved rolledBackB1 {| bundle := markError b1 |}
           "device-2").
  - split.
    + unfold writesSucceed. vm_compute. constructor.
    + intros d. vm_compute. intros Hd. exact Hd.
  - vm_compute. reflexivity.
Defined.

Lemma date_unparsable_not_satisfied_witness :
  DelayManager.isDateConditionSatisfied parseKnownDate 1767225600000
    (Some "not-a-date") = false.
Proof.
  apply date_unparsable_not_satisfied.
  - discriminate.
  - vm_compute. reflexivity.
Defined.

Lemma parseSessionKey_no_verdict_witness :
  CryptoManager.parseSessionKey bytesOf rsaIdentity
    {| CryptoManager.publicKey := Some "PEM" |} "iv:key:extra" = Ok None ∧
  CryptoManager.parseSessionKey bytesOf rsaIdentity
    {| CryptoManager.publicKey := None |} "iv:key" = Ok None.
Proof.
  split.
  - destruct (parseSessionKey_no_verdict bytesOf rsaIdentity
      {| CryptoManager.publicKey := Some "PEM" |} "iv:key:extra")
      as (r & Hrun & Hfields & _).
    rewrite Hrun. f_equal. apply Hfields. vm_compute. discriminate.
  - destruct (parseSessionKey_no_verdict bytesOf rsaIdentity
      {| CryptoManager.publicKey := None |} "iv:key")
      as (r & Hrun & _ & _ & Hkey & _).
    rewrite Hrun. f_equal. apply Hkey. left. reflexivity.
Defined.

(** A two-field input under a key does yield the IV and the key. *)
Lemma parseSessionKey_recovers :
  CryptoManager.parseSessionKey bytesOf rsaIdentity
    {| CryptoManager.publicKey := Some "PEM" |} "iv:key"
  = Ok (Some {| CryptoManager.iv := bytesOf "iv";
                CryptoManager.aesKey := bytesOf "key" |}).
Proof. reflexivity. Qed.

(** * The interface as a whole *)

(** ** What every call is made of

    Every call of the bundle manager changes the storage only through a few
    steps: writes and removals on disk, pointer updates, the deletion of an
    entry past the guards of [deleteBundle], the marking of a stored bundle,
    the queueing of a stored bundle.  A property kept by each of these steps
    is kept by every call. *)

Section ApiSteps.
Import StorageManager.
Context (P : Storage → Prop).
Variable self : BundleManager.t.
Implicit Types (s : Storage).

Hypothesis P_data : ∀ s s', data s' = data s → P s → P s'.
Hypothesis P_current : ∀ bundleId s, P s → P (setCurrentBundleId bundleId s).
Hypothesis P_unqueue : ∀ s, P s → P (setNextBundleId None s).
Hypothesis P_queue : ∀ bundleId b s,
  P s → getBundle bundleId s = Some b → P (setNextBundleId (Some bundleId) s).
Hypothesis P_failed : ∀ f s, P s → P (setFailedUpdate f s).
Hypothesis P_delete : ∀ bundleId s,
  P s → bundleId ≠ BUILTIN_BUNDLE_ID → bundleId ≠ getCurrentBundleId s →
  getNextBundleId s ≠ Some bundleId → P (deleteBundle bundleId s).
Hypothesis P_mark : ∀ bundleId b s,
  P s → getBundle bundleId s = Some b → P (setBundle bundleId (markError b) s).

Lemma keeps_read {A} (f : Storage → A) : keeps P (gets f).
Proof. by intros s Hs. Qed.

(** A computation that keeps [P], run from a state with [P]. *)
Lemma keeps_from {A} (m : Async A) s : keeps P m → P s → P (m s).2.
Proof. intros Hm. apply Hm. Qed.

Lemma api_save : keeps P save.
Proof. intros s. apply P_data, save_data. Qed.

Lemma api_deleteBundleFiles bundleId : keeps P (deleteBundleFiles bundleId).
Proof.
  intros s. destruct (deleteBundleFiles_run bundleId s) as (fs & -> & _).
  by apply P_data.
Qed.

Lemma api_deleteBundle bundleId : keeps P (BundleManager.deleteBundle bundleId).
Proof.
  intros s Hs.
  destruct (decide (bundleId = BUILTIN_BUNDLE_ID ∨ bundleId = getCurrentBundleId s
    ∨ getNextBundleId s = Some bundleId)) as [Hg|Hg].
  - by destruct (deleteBundle_rejected _ _ Hg) as (? & -> & _).
  - destruct (deleteBundle_accepted bundleId s) as (r & fs & -> & _);
      [naive_solver..|].
    apply (P_data (deleteBundle bundleId s)); [by destruct s as [[d|] ?]|].
    apply P_delete; naive_solver.
Qed.

Ltac api_step :=
  first
    [ apply keeps_ret | apply keeps_throw | apply keeps_read
    | apply api_save | apply api_deleteBundleFiles | apply api_deleteBundle
    | apply keeps_catch_ignore
    | apply keeps_modify; intros ?;
      first [ apply P_current | apply P_unqueue | apply P_failed ]
    | apply keeps_bind; [|intros ?] ].

Ltac api_steps := repeat first [ api_step | case_match ].

Lemma api_current : keeps P (BundleManager.current self).
Proof. unfold BundleManager.current. api_steps. Qed.

Lemma api_onDisk storedBundles : keeps P (BundleManager.onDisk storedBundles).
Proof.
  intros s Hs. by destruct (onDisk_run storedBundles s) as (? & -> & _).
Qed.

Lemma api_listBundles raw : keeps P (BundleManager.listBundles self raw).
Proof.
  intros s Hs. by destruct (listBundles_run self raw s) as (? & -> & _).
Qed.

Lemma api_getNextBundle : keeps P BundleManager.getNextBundle.
Proof. unfold BundleManager.getNextBundle. api_steps. Qed.

Lemma api_next bundleId : keeps P (BundleManager.next self bundleId).
Proof.
  unfold BundleManager.next, BundleManager.verify. intros s Hs. step.
  destruct (getBundle bundleId s) as [b|] eqn:Hb; [|done].
  case_match; [done|]. step. case_match; [done|]. step.
  apply keeps_from; [api_steps|]. by eapply P_queue.
Qed.

Lemma api_set bundleId : keeps P (BundleManager.set self bundleId).
Proof. unfold BundleManager.set, BundleManager.verify. api_steps. Qed.

Lemma api_setBundleError bundleId allow :
  keeps P (BundleManager.setBundleError self bundleId allow).
Proof.
  unfold BundleManager.setBundleError. intros s Hs.
  case_match; [done|]. step.
  destruct (getBundle bundleId s) as [b|] eqn:Hb; [|done].
  cbv zeta. step. apply keeps_from; [api_steps|]. by eapply P_mark.
Qed.

Lemma api_getFailedUpdate : keeps P BundleManager.getFailedUpdate.
Proof. intros s Hs. by apply P_failed. Qed.

Lemma api_recordFailedUpdate b : keeps P (BundleManager.recordFailedUpdate b).
Proof. unfold BundleManager.recordFailedUpdate. api_steps. Qed.

Lemma api_reset toLastSuccessful : keeps P (BundleManager.reset toLastSuccessful).
Proof. unfold BundleManager.reset. api_steps. Qed.

Lemma api_applyPendingUpdate : keeps P (BundleManager.applyPendingUpdate self).
Proof.
  unfold BundleManager.applyPendingUpdate, BundleManager.verify.
  intros s Hs. step.
  destruct (getNextBundleId s) as [nextId|]; [|done].
  case_match; [done|]. step.
  destruct (getBundle nextId s) as [b|] eqn:Hb.
  - step. case_match.
    + step. apply keeps_from; [api_steps|].
      apply P_unqueue. by eapply P_mark.
    + cbv zeta. apply keeps_from; [api_steps|done].
  - apply keeps_from; [api_steps|done].
Qed.

Lemma api_rollback : keeps P (BundleManager.rollback self).
Proof.
  unfold BundleManager.rollback. intros s Hs. step. cbv zeta.
  destruct (getBundle (getCurrentBundleId s) s) as [b|] eqn:Hb.
  - rewrite bind_assoc. step.
    apply keeps_from; [|by eapply P_mark].
    api_step; [apply api_recordFailedUpdate|]. api_steps.
  - apply keeps_from; [api_steps|done].
Qed.

Lemma api_deleteFailed storedBundles :
  keeps P (BundleManager.deleteFailed storedBundles).
Proof.
  induction storedBundles as [|b rest IH]; simpl;
    repeat first [ apply IH | api_step | case_match ].
Qed.

Lemma api_removeOrphans ids entries : keeps P (removeOrphans ids entries).
Proof.
  induction entries as [|name rest IH]; simpl;
    repeat first [ apply IH | api_step | case_match ].
Qed.

Lemma api_cleanupOrphanedBundles readdirRejects :
  keeps P (cleanupOrphanedBundles readdirRejects).
Proof.
  intros s Hs. unfold cleanupOrphanedBundles, try_catch, readdir.
  destruct readdirRejects; [done|]. rewrite bind_run. step.
  pose proof (api_removeOrphans (dom (bundles (getManifest s)))
    (elements (bundleDirs (disk s))) s Hs) as Hloop.
  by destruct (removeOrphans _ _ s) as [[[]|e] s'].
Qed.

Lemma api_cleanup readdirRejects :
  keeps P (BundleManager.cleanup self readdirRejects).
Proof.
  unfold BundleManager.cleanup.
  api_step; [|apply api_cleanupOrphanedBundles].
  case_match; [|api_step]. api_step; [api_step|]. apply api_deleteFailed.
Qed.

(** Every call but [markBundleSuccessful], which alone sets the last
    successful id, keeps [P]; and that one keeps it too when the step it
    takes does. *)
Lemma api_call call s :
  (call = CallMarkBundleSuccessful →
     P s → P (setLastSuccessfulBundleId (Some (getCurrentBundleId s)) s)) →
  P s → P (stateAfter self call s).
Proof.
  intros Hlast Hs. destruct call; simpl.
  - by apply api_current.
  - by apply api_listBundles.
  - by apply api_getNextBundle.
  - by apply api_next.
  - by apply api_set.
  - by apply api_deleteBundle.
  - by apply api_setBundleError.
  - by apply api_getFailedUpdate.
  - by apply api_recordFailedUpdate.
  - by apply api_reset.
  - by apply api_applyPendingUpdate.
  - unfold BundleManager.markBundleSuccessful. step.
    apply api_save. by apply Hlast.
  - by apply api_rollback.
  - by apply api_cleanup.
Qed.

End ApiSteps.

(** ** Invariants of the interface *)

Section ApiInvariants.
Import StorageManager.
Variable self : BundleManager.t.
Implicit Types (s : Storage).

Lemma getBundle_setBundle key v k s :
  is_Some (data s) →
  getBundle k (setBundle key v s)
    = if decide (key = k) then Some v else getBundle k s.
Proof.
  intros [d Hd]. destruct s as [[?|] ?]; [|done].
  unfold getBundle; simpl. apply lookup_insert.
Qed.

Lemma getBundle_deleteBundle key k s :
  getBundle k (deleteBundle key s)
    = if decide (key = k) then None else getBundle k s.
Proof.
  destruct s as [[?|] ?]; [|by case_decide].
  unfold getBundle; simpl. apply lookup_delete.
Qed.

Lemma getBundle_pointer f k s :
  (∀ m, bundles (f m) = bundles m) →
  getBundle k (updManifest f s) = getBundle k s.
Proof.
  intros Hf. destruct s as [[?|] ?]; [|done]. unfold getBundle; simpl.
  by rewrite Hf.
Qed.

Lemma stored_initialised k b s : getBundle k s = Some b → is_Some (data s).
Proof. destruct s as [[?|] ?]; [by eexists|done]. Qed.

End ApiInvariants.

(** ** Ids that are no inherited property names

    With such ids in the manifest and in the call, every lookup in the bundle
    map is a lookup among its entries; the calls keep it that way. *)

Section PlainIds.
Import StorageManager.
Variable self : BundleManager.t.
Implicit Types (s : Storage).

Lemma plain_builtin : inheritedProperty BUILTIN_BUNDLE_ID = false.
Proof. by vm_compute. Qed.

Lemma plainIds_data s s' : data s' = data s → plainIds s → plainIds s'.
Proof.
  unfold plainIds, getCurrentBundleId, getNextBundleId,
    getLastSuccessfulBundleId. by intros ->.
Qed.

Lemma plainIds_current bundleId s :
  inheritedProperty bundleId = false → plainIds s →
  plainIds (setCurrentBundleId bundleId s).
Proof.
  intros Hid. destruct s as [[d|] ?]; [|done]. intros (_ & Hn & Hl).
  split; [exact Hid|]. split; [exact Hn|exact Hl].
Qed.

Lemma plainIds_queue queued s :
  (∀ n, queued = Some n → inheritedProperty n = false) → plainIds s →
  plainIds (setNextBundleId queued s).
Proof.
  intros Hid. destruct s as [[d|] ?]; [|done]. intros (Hc & _ & Hl).
  split; [exact Hc|]. split; [exact Hid|exact Hl].
Qed.

Lemma plainIds_unqueue s : plainIds s → plainIds (setNextBundleId None s).
Proof. apply plainIds_queue. by intros n [=]. Qed.

Lemma plainIds_last s :
  plainIds s →
  plainIds (setLastSuccessfulBundleId (Some (getCurrentBundleId s)) s).
Proof.
  destruct s as [[d|] ?]; [|done]. intros (Hc & Hn & _).
  split; [exact Hc|]. split; [exact Hn|]. by intros l [= <-].
Qed.

Lemma plainIds_failed f s : plainIds s → plainIds (setFailedUpdate f s).
Proof. by destruct s as [[d|] ?]. Qed.

Lemma plainIds_setBundle k b s : plainIds s → plainIds (setBundle k b s).
Proof. by destruct s as [[d|] ?]. Qed.

Lemma plainIds_deleteBundle k s : plainIds s → plainIds (deleteBundle k s).
Proof. by destruct s as [[d|] ?]. Qed.

Lemma plainIds_target s : plainIds s → inheritedProperty (rollbackTarget s) = false.
Proof.
  intros (_ & _ & Hl). unfold rollbackTarget.
  destruct (getLastSuccessfulBundleId s) as [l|]; [by apply Hl|].
  apply plain_builtin.
Qed.

Ltac plain_step :=
  first
    [ apply keeps_ret | apply keeps_throw | apply keeps_read
    | apply api_save; apply plainIds_data
    | apply api_deleteBundle;
      [ apply plainIds_data | intros; by apply plainIds_deleteBundle ]
    | apply api_recordFailedUpdate;
      [ apply plainIds_data | intros; by apply plainIds_failed ]
    | apply keeps_catch_ignore
    | apply keeps_modify; intros ?;
      first [ apply plainIds_unqueue | apply plainIds_failed
            | apply plainIds_setBundle ]
    | apply keeps_bind; [|intros ?] ].

Ltac plain_steps := repeat first [ plain_step | case_match ].

Lemma plain_next bundleId :
  inheritedProperty bundleId = false →
  keeps plainIds (BundleManager.next self bundleId).
Proof.
  intros Hid. unfold BundleManager.next, BundleManager.verify. intros s Hs. step.
  destruct (getBundle bundleId s) as [b|] eqn:Hb; [|done].
  case_match; [done|]. step. case_match; [done|]. step.
  apply keeps_from; [plain_steps|].
  apply plainIds_queue; [|done]. by intros n [= <-].
Qed.

Lemma plain_set bundleId :
  inheritedProperty bundleId = false →
  keeps plainIds (BundleManager.set self bundleId).
Proof.
  intros Hid. unfold BundleManager.set, BundleManager.verify.
  repeat first
    [ plain_step | case_match
    | apply keeps_modify; intros ?; by apply plainIds_current ].
Qed.

Lemma plain_reset toLastSuccessful :
  keeps plainIds (BundleManager.reset toLastSuccessful).
Proof.
  unfold BundleManager.reset. intros s Hs. step. cbv zeta.
  apply keeps_from; [plain_steps|].
  apply plainIds_unqueue, plainIds_current; [|done].
  destruct toLastSuccessful; [by apply plainIds_target|apply plain_builtin].
Qed.

Lemma plain_applyPendingUpdate :
  keeps plainIds (BundleManager.applyPendingUpdate self).
Proof.
  unfold BundleManager.applyPendingUpdate, BundleManager.verify.
  intros s Hs. step.
  destruct (getNextBundleId s) as [nextId|] eqn:Hnext; [|done].
  assert (inheritedProperty nextId = false) as Hid.
  { destruct Hs as (_ & Hn & _). by apply Hn. }
  case_match; [done|]. step.
  destruct (getBundle nextId s) as [b|] eqn:Hb.
  - step. case_match.
    + step. apply keeps_from; [plain_steps|].
      by apply plainIds_unqueue, plainIds_setBundle.
    + cbv zeta. step. apply keeps_from; [plain_steps|].
      by apply plainIds_unqueue, plainIds_current.
  - step. apply keeps_from; [plain_steps|]. by apply plainIds_unqueue.
Qed.

Lemma plain_markBundleSuccessful :
  keeps plainIds BundleManager.markBundleSuccessful.
Proof.
  unfold BundleManager.markBundleSuccessful. intros s Hs. step.
  apply keeps_from; [plain_steps|]. by apply plainIds_last.
Qed.

Lemma plain_rollback : keeps plainIds (BundleManager.rollback self).
Proof.
  unfold BundleManager.rollback. intros s Hs. step. cbv zeta.
  pose proof (plainIds_target s Hs) as Htarget. unfold rollbackTarget in Htarget.
  repeat rewrite bind_assoc.
  apply keeps_from; [|done].
  repeat first
    [ plain_step | case_match
    | apply keeps_modify; intros ?; by apply plainIds_current ].
Qed.

(** Every call that looks up no inherited name keeps the ids plain. *)
Lemma plain_call call s :
  plainCall call → plainIds s → plainIds (stateAfter self call s).
Proof.
  intros Hcall Hs. destruct call; simpl in *.
  - by apply api_current.
  - by apply api_listBundles.
  - by apply api_getNextBundle.
  - by apply plain_next.
  - by apply plain_set.
  - revert Hs. plain_step.
  - revert Hs. apply api_setBundleError;
      [ apply plainIds_data | intros; by apply plainIds_deleteBundle
      | intros; by apply plainIds_setBundle ].
  - revert Hs. apply api_getFailedUpdate. intros. by apply plainIds_failed.
  - revert Hs. plain_step.
  - by apply plain_reset.
  - by apply plain_applyPendingUpdate.
  - by apply plain_markBundleSuccessful.
  - by apply plain_rollback.
  - revert Hs. apply api_cleanup;
      [ apply plainIds_data | intros; by apply plainIds_deleteBundle ].
Qed.

End PlainIds.

Ltac unfold_pointers :=
  unfold StorageManager.setCurrentBundleId, StorageManager.setNextBundleId,
    StorageManager.setLastSuccessfulBundleId, StorageManager.setFailedUpdate.

(** X1.  As long as no name inherited from [Object.prototype] is looked up
    (the id given to the call, and the current, queued and last successful
    ids of the manifest are none), no call of the bundle manager creates or
    rewrites an entry of the bundle map: after any call, resolved or
    rejected, each key holds what it held before, or that bundle marked
    [error], or nothing. *)
Theorem calls_only_mark_or_delete
    (self : BundleManager.t) (call : Call) (s : Storage) (k : string) :
  plainCall call → plainIds s →
  let before := StorageManager.getBundle k s in
  let after := StorageManager.getBundle k (stateAfter self call s) in
  after = before ∨ after = markError <$> before ∨ after = None.
Proof.
  intros _ _. simpl.
  apply (api_call
    (λ s', ∀ k, StorageManager.getBundle k s' = StorageManager.getBundle k s
                ∨ StorageManager.getBundle k s'
                    = markError <$> StorageManager.getBundle k s
                ∨ StorageManager.getBundle k s' = None) self); try done.
  - intros s1 s2 Hd H k'. unfold StorageManager.getBundle at 1 3 5.
    rewrite Hd. apply H.
  - intros ? s1 H k'. unfold_pointers. by rewrite getBundle_pointer.
  - intros s1 H k'. unfold_pointers. by rewrite getBundle_pointer.
  - intros ? ? s1 H _ k'. unfold_pointers. by rewrite getBundle_pointer.
  - intros ? s1 H k'. unfold_pointers. by rewrite getBundle_pointer.
  - intros bundleId s1 H _ _ _ k'. rewrite getBundle_deleteBundle.
    case_decide; auto.
  - intros bundleId b s1 H Hb k'.
    rewrite getBundle_setBundle by by eapply stored_initialised.
    case_decide as Hk; [subst k'|done].
    destruct (H bundleId) as [H'|[H'|H']]; rewrite Hb in H'; [| |done].
    + right. left. by rewrite <- H'.
    + right. left.
      destruct (StorageManager.getBundle bundleId s) as [b0|]; [|done].
      simpl in *. by injection H' as ->.
  - intros _ H k'. unfold_pointers. by rewrite getBundle_pointer.
  - auto.
Qed.

(** X2.  A manifest whose bundle map is keyed by the bundles' ids, and whose
    current, queued and last successful ids are no names inherited from
    [Object.prototype], stays so through every call (the clean-up included)
    that is given no such name. *)
Theorem calls_keep_keys (self : BundleManager.t) (call : Call) (s : Storage) :
  plainCall call → plainIds s → keyedById s →
  keyedById (stateAfter self call s) ∧ plainIds (stateAfter self call s).
Proof.
  intros Hcall Hplain Hkeys. split; [|by apply plain_call].
  revert Hkeys.
  apply (api_call keyedById self); try done.
  - intros s1 s2 Hd. by apply keyedById_data.
  - intros ? ?. by apply keeps_keys_pointer.
  - intros ?. by apply keeps_keys_pointer.
  - intros ? ? ? H _. revert H. by apply keeps_keys_pointer.
  - intros ? ?. by apply keeps_keys_pointer.
  - intros ? ? H _ _ _. by apply keyedById_deleteBundle.
  - intros bundleId b s' H Hb. apply keyedById_setBundle; [|done].
    simpl. by apply H.
  - intros _. by apply keeps_keys_pointer.
Qed.

(** X3.  A queued bundle is never deleted: if the queued id, when there is
    one, refers to a stored bundle before a call, it does so after the call,
    whatever the call. *)
Theorem calls_keep_queued_stored
    (self : BundleManager.t) (call : Call) (s : Storage) :
  queuedIsStored s → queuedIsStored (stateAfter self call s).
Proof.
  apply (api_call queuedIsStored self); try done.
  - intros s1 s2 Hd H n.
    unfold StorageManager.getNextBundleId, StorageManager.getBundle.
    rewrite Hd. apply H.
  - intros ? [[d|] ?] H; apply H.
  - intros [[d|] ?] H n; [|apply H]. by intros [=].
  - intros bundleId b [[d|] ?] H Hb n; [|done].
    unfold StorageManager.getNextBundleId, StorageManager.getBundle in *.
    simpl in *. intros [= <-]. by rewrite Hb.
  - intros ? [[d|] ?] H; apply H.
  - intros bundleId [[d|] ?] H _ _ Hn n; [|apply H].
    unfold StorageManager.getNextBundleId, StorageManager.getBundle in *.
    simpl in *. intros Hq. rewrite lookup_delete_ne by congruence. by apply H.
  - intros bundleId b [[d|] ?] H Hb n; [|apply H].
    unfold StorageManager.getNextBundleId, StorageManager.getBundle in *.
    simpl in *. intros Hq. rewrite lookup_insert. case_decide; [done|].
    by apply H.
  - intros _. destruct s as [[d|] ?]; intros H; apply H.
Qed.

(** X4.  The bundle manager leaves what is not its own alone: no call
    changes the delay conditions, the custom id, the channel or the device
    id, and only [markBundleSuccessful()] changes the last successful id. *)
Theorem calls_frame (self : BundleManager.t) (call : Call) (s : Storage) :
  let s' := stateAfter self call s in
  StorageManager.getDelayConditions s' = StorageManager.getDelayConditions s ∧
  StorageManager.getCustomId s' = StorageManager.getCustomId s ∧
  StorageManager.getChannel s' = StorageManager.getChannel s ∧
  StorageManager.getDeviceId s' = StorageManager.getDeviceId s ∧
  (call ≠ CallMarkBundleSuccessful →
   StorageManager.getLastSuccessfulBundleId s'
     = StorageManager.getLastSuccessfulBundleId s).
Proof.
  simpl.
  apply (api_call
    (λ s', StorageManager.getDelayConditions s' = StorageManager.getDelayConditions s ∧
           StorageManager.getCustomId s' = StorageManager.getCustomId s ∧
           StorageManager.getChannel s' = StorageManager.getChannel s ∧
           StorageManager.getDeviceId s' = StorageManager.getDeviceId s ∧
           (call ≠ CallMarkBundleSuccessful →
            StorageManager.getLastSuccessfulBundleId s'
              = StorageManager.getLastSuccessfulBundleId s)) self);
    try done.
  - intros s1 s2 Hd.
    unfold StorageManager.getDelayConditions, StorageManager.getCustomId,
      StorageManager.getChannel, StorageManager.getDeviceId,
      StorageManager.getLastSuccessfulBundleId. by rewrite Hd.
  - by intros ? [[d|] ?] H.
  - by intros [[d|] ?] H.
  - by intros ? ? [[d|] ?] H _.
  - by intros ? [[d|] ?] H.
  - by intros ? [[d|] ?] H _ _ _.
  - by intros ? ? [[d|] ?] H _.
  - intros ->. destruct s as [[d|] ?]; intros H; [|done].
    by repeat split.
Qed.

Section CleanupSync.
Import StorageManager.
Variable self : BundleManager.t.
Implicit Types (s : Storage).





End CleanupSync.


(** ** Immediate activation *)

Section SetFacts.
Import StorageManager.
Variable self : BundleManager.t.
Implicit Types (s : Storage).

Lemma writesSucceed_disk s s' :
  writeFaults (disk s') = writeFaults (disk s) → writesSucceed s → writesSucceed s'.
Proof. unfold writesSucceed. by intros ->. Qed.

(** A save that is not rejected: only the disk changes. *)
Lemma save_ok s :
  writesSucceed s →
  ∃ fs, save s = (Ok tt, setDisk fs s) ∧ writesSucceed (setDisk fs s).
Proof.
  intros Hw. destruct (save_run s) as (r & fs & Hrun & Hr).
  destruct (Hr Hw) as (-> & ? & _). eauto.
Qed.

(** The best-effort delete of the previous bundle, once [bundleId] is
    current and nothing is queued. *)
Lemma delete_previous_run (enabled : bool) previousId s :
  getNextBundleId s = None →
  ∃ fs,
    (if enabled then catch_ignore (BundleManager.deleteBundle previousId)
     else mret tt) s
    = (Ok tt,
       setDisk fs
         (if enabled && negb (bool_decide (previousId = BUILTIN_BUNDLE_ID))
             && negb (bool_decide (previousId = getCurrentBundleId s))
          then deleteBundle previousId s else s)).
Proof.
  intros Hn. destruct enabled; simpl; [|by exists (disk s); destruct s].
  rewrite catch_ignore_run.
  case_bool_decide as Hb; simpl.
  { destruct (deleteBundle_rejected previousId s) as (? & -> & _); [auto|].
    by exists (disk s); destruct s. }
  case_bool_decide as Hc; simpl.
  { destruct (deleteBundle_rejected previousId s) as (? & -> & _); [auto|].
    by exists (disk s); destruct s. }
  destruct (deleteBundle_accepted previousId s) as (r & fs & -> & _);
    [done|done|by rewrite Hn|]. by exists fs.
Qed.

Lemma pointers_deleteBundle k s :
  getCurrentBundleId (deleteBundle k s) = getCurrentBundleId s ∧
  getNextBundleId (deleteBundle k s) = getNextBundleId s ∧
  getLastSuccessfulBundleId (deleteBundle k s) = getLastSuccessfulBundleId s.
Proof. by destruct s as [[d|] ?]. Qed.

Lemma getNextBundleId_unqueued bundleId s :
  getNextBundleId (setNextBundleId None (setCurrentBundleId bundleId s)) = None.
Proof. by destruct s as [[d|] ?]. Qed.

Lemma getBundle_activated bundleId k s :
  getBundle k (setNextBundleId None (setCurrentBundleId bundleId s))
    = getBundle k s.
Proof. by destruct s as [[d|] ?]. Qed.

End SetFacts.

(** X6.  [set(id)] throws and changes nothing when [id] is neither stored
    nor the builtin id nor a name inherited from [Object.prototype], or when
    a non-builtin [id] fails the integrity check.  For the builtin id, and
    for a stored id that passes the check, whatever the status of the
    bundle, and with the disk available, it resolves with the stored bundle
    (the builtin descriptor when none is stored), [id] is current and
    nothing is queued; the entry of the previous current bundle is removed
    when auto-delete-previous is on and that bundle is neither the builtin
    one nor [id] itself, and every other entry is as before. *)
Theorem set_spec (self : BundleManager.t) (s : Storage) (bundleId : string) :
  let stored := StorageManager.getBundle bundleId s in
  let verified :=
    verifyBundleIntegrity (BundleManager.downloadManager self) bundleId s in
  let previousId := StorageManager.getCurrentBundleId s in
  let deletes :=
    BundleManager.autoDeletePrevious self
    && negb (bool_decide (previousId = BUILTIN_BUNDLE_ID))
    && negb (bool_decide (previousId = bundleId)) in
  (bundleId ≠ BUILTIN_BUNDLE_ID →
   (stored = None ∧ inheritedProperty bundleId = false) ∨ verified = false →
   ∃ message, BundleManager.set self bundleId s = (Throw (Error message), s)) ∧
  (bundleId = BUILTIN_BUNDLE_ID ∨ (is_Some stored ∧ verified = true) →
   writesSucceed s →
   ∃ s', BundleManager.set self bundleId s
           = (Ok (default (BundleManager.getBuiltinBundle self) stored), s') ∧
     StorageManager.getCurrentBundleId s' = bundleId ∧
     StorageManager.getNextBundleId s' = None ∧
     ∀ k, StorageManager.getBundle k s'
          = if deletes && bool_decide (k = previousId) then None
            else StorageManager.getBundle k s).
Proof.
  intros stored verified previousId deletes.
  unfold BundleManager.set, BundleManager.verify. step. fold stored. split.
  - intros Hb [[Hnone _]|Hver].
    + rewrite Hnone. rewrite bool_decide_eq_true_2 by done.
      rewrite (bool_decide_eq_false_2 (bundleId = _)) by done. simpl.
      step. by eexists.
    + rewrite (bool_decide_eq_false_2 (bundleId = _)) by done. simpl.
      destruct (bool_decide (stored = None)); simpl; step; [by eexists|].
      fold verified. rewrite Hver. simpl. step. by eexists.
  - intros Hpass Hw.
    assert (Hguard : bool_decide (stored = None)
                     && negb (bool_decide (bundleId = BUILTIN_BUNDLE_ID)) = false).
    { destruct Hpass as [->|[[b Hb] _]]; [by rewrite andb_false_r|].
      rewrite Hb. by rewrite bool_decide_eq_false_2. }
    rewrite Hguard.
    assert (Hcheck : ∀ B (k : unit → Async B),
      ((if negb (bool_decide (bundleId = BUILTIN_BUNDLE_ID))
        then valid ← gets (verifyBundleIntegrity
                             (BundleManager.downloadManager self) bundleId);
             if negb valid
             then throw (Error ("Bundle " +:+ bundleId +:+ " failed integrity check"))
             else mret tt
        else mret tt) ≫= k) s = k tt s).
    { intros B k.
      destruct (bool_decide (bundleId = BUILTIN_BUNDLE_ID)) eqn:Hb;
        cbv beta iota delta [negb]; step; [done|].
      apply bool_decide_eq_false in Hb. fold verified.
      destruct Hpass as [?|[_ ->]]; [done|]. by step. }
    rewrite Hcheck. step. fold previousId.
    set (s1 := StorageManager.setNextBundleId None (StorageManager.setCurrentBundleId bundleId s)).
    assert (Hw1 : writesSucceed s1).
    { revert Hw. apply writesSucceed_disk. unfold s1. by destruct s as [[d|] ?]. }
    destruct (save_ok s1 Hw1) as (fs & Hsave & Hw2).
    rewrite bind_run, Hsave. rewrite bind_run.
    assert (Hcur1 : StorageManager.getCurrentBundleId (StorageManager.setDisk fs s1) = bundleId).
    { unfold s1. destruct s as [[d|] ?]; [done|].
      destruct Hpass as [->|[[b Hb] _]]; [done|]. by subst stored. }
    destruct (delete_previous_run
      (BundleManager.autoDeletePrevious self
         && negb (bool_decide (previousId = BUILTIN_BUNDLE_ID))
         && negb (bool_decide (previousId = bundleId))) previousId (StorageManager.setDisk fs s1))
      as (fs' & Hdel); [unfold s1; by destruct s as [[d|] ?]|].
    rewrite Hdel. step. rewrite Hcur1. fold deletes.
    replace (deletes && negb (bool_decide (previousId = BUILTIN_BUNDLE_ID))
               && negb (bool_decide (previousId = bundleId))) with deletes
      by (unfold deletes; by repeat destruct (bool_decide _), (BundleManager.autoDeletePrevious self)).
    eexists. split; [done|].
    assert (Hq1 : StorageManager.getNextBundleId (StorageManager.setDisk fs s1) = None)
      by apply getNextBundleId_unqueued.
    destruct deletes.
    + destruct (pointers_deleteBundle previousId (StorageManager.setDisk fs s1))
        as (Hc & Hn & _).
      split; [|split].
      * etrans; [exact Hc|exact Hcur1].
      * etrans; [exact Hn|exact Hq1].
      * intros k. simpl. rewrite getBundle_deleted.
        rewrite (bool_decide_ext (k = previousId) (previousId = k)) by done.
        destruct (decide (previousId = k)) as [Hk|Hk].
        -- by rewrite bool_decide_eq_true_2.
        -- rewrite bool_decide_eq_false_2 by done. apply getBundle_activated.
    + split; [exact Hcur1|]. split; [exact Hq1|].
      intros k. simpl. apply getBundle_activated.
Qed.

(** ** Activation at start-up *)

Section ApplySpec.
Import StorageManager.
Variable self : BundleManager.t.
Implicit Types (s : Storage).

(** The activating branch, with the state it ends in. *)
Lemma applyPendingUpdate_activates s (nextId : string) (b : BundleInfo) :
getNextBundleId s = Some nextId → nextId ≠ "" →
nextId ≠ getCurrentBundleId s → writesSucceed s →
getBundle nextId s = Some b →
verifyBundleIntegrity (BundleManager.downloadManager self) nextId s = true →
let deletes :=
  BundleManager.autoDeletePrevious self
  && negb (bool_decide (getCurrentBundleId s = BUILTIN_BUNDLE_ID)) in
∃ fs fs',
  let s1 := setDisk fs (setNextBundleId None (setCurrentBundleId nextId s)) in
  BundleManager.applyPendingUpdate self s
    = (Ok {| applied := true; bundleId := nextId |},
       setDisk fs' (if deletes then deleteBundle (getCurrentBundleId s) s1 else s1)).
Proof.
intros Hn Hne Hcur Hw Hb Hv activate.
unfold BundleManager.applyPendingUpdate, BundleManager.verify. step.
rewrite Hn. rewrite !bool_decide_eq_false_2 by done.
cbv beta iota delta [orb]. step. rewrite Hb. step. rewrite Hv. cbn [negb].
cbv zeta. step.
set (s1 := setNextBundleId None (setCurrentBundleId nextId s)).
assert (Hw1 : writesSucceed s1).
{ revert Hw. apply writesSucceed_disk. unfold s1. by destruct s as [[d|] ?]. }
destruct (save_ok s1 Hw1) as (fs & Hsave & Hw2).
rewrite bind_run, Hsave. rewrite bind_run.
assert (Hcur1 : getCurrentBundleId (setDisk fs s1) = nextId).
{ unfold s1. destruct s as [[d|] ?]; [done|done]. }
assert (Hq1 : getNextBundleId (setDisk fs s1) = None)
  by apply getNextBundleId_unqueued.
destruct (delete_previous_run activate
  (getCurrentBundleId s) (setDisk fs s1) Hq1) as (fs' & Hdel).
fold activate. rewrite Hdel. step. rewrite Hcur1.
replace (activate && negb (bool_decide (getCurrentBundleId s = BUILTIN_BUNDLE_ID))
         && negb (bool_decide (getCurrentBundleId s = nextId))) with activate.
2:{ rewrite (bool_decide_eq_false_2 (getCurrentBundleId s = nextId)) by done.
    unfold activate.
    by destruct (BundleManager.autoDeletePrevious self), (bool_decide _). }
by exists fs, fs'.
Qed.

(** The pointers and the entries after an activation. *)
Lemma activated_state s (nextId : string) fs fs' (deletes : bool) :
is_Some (getBundle nextId s) →
let s1 := setDisk fs (setNextBundleId None (setCurrentBundleId nextId s)) in
let s' := setDisk fs' (if deletes then deleteBundle (getCurrentBundleId s) s1
                       else s1) in
getCurrentBundleId s' = nextId ∧ getNextBundleId s' = None ∧
getLastSuccessfulBundleId s' = getLastSuccessfulBundleId s ∧
∀ k, getBundle k s' = if deletes && bool_decide (k = getCurrentBundleId s)
                      then None else getBundle k s.
Proof.
intros [b Hb]. simpl.
assert (Hc : getCurrentBundleId
               (setNextBundleId None (setCurrentBundleId nextId s)) = nextId)
  by (by destruct s as [[d|] ?]).
assert (Hl : getLastSuccessfulBundleId
               (setNextBundleId None (setCurrentBundleId nextId s))
             = getLastSuccessfulBundleId s)
  by (by destruct s as [[d|] ?]).
destruct deletes.
- destruct (pointers_deleteBundle (getCurrentBundleId s)
    (setDisk fs (setNextBundleId None (setCurrentBundleId nextId s))))
    as (Hc' & Hq & Hl').
  split; [by etrans|]. split; [etrans; [done|apply getNextBundleId_unqueued]|].
  split; [by etrans|].
  intros k. rewrite getBundle_deleted.
  rewrite (bool_decide_ext (k = getCurrentBundleId s) (getCurrentBundleId s = k))
    by done.
  destruct (decide (getCurrentBundleId s = k)) as [Hk|Hk].
  + by rewrite bool_decide_eq_true_2.
  + rewrite bool_decide_eq_false_2 by done. apply getBundle_activated.
- split; [done|]. split; [apply getNextBundleId_unqueued|]. split; [done|].
  intros k. apply getBundle_activated.
Qed.

(** X7.  With a bundle id queued that is not the current one, and the disk
  available, [applyPendingUpdate()] does one of three things.  If the
  queued id is not stored it clears the queue.  If the stored bundle fails
  the integrity check it marks the bundle [error] and clears the queue.  In
  both cases it reports [applied = false] with the unchanged current id.
  If the check passes, whatever the bundle's status, it makes the bundle
  current, clears the queue, reports [applied = true], and removes the
  entry of the previous current bundle when auto-delete-previous is on and
  that bundle is not the builtin one. *)
Theorem applyPendingUpdate_spec s (nextId : string) :
getNextBundleId s = Some nextId → nextId ≠ "" →
nextId ≠ getCurrentBundleId s → writesSucceed s →
let currentId := getCurrentBundleId s in
let verified :=
  verifyBundleIntegrity (BundleManager.downloadManager self) nextId s in
let deletes :=
  BundleManager.autoDeletePrevious self
  && negb (bool_decide (currentId = BUILTIN_BUNDLE_ID)) in
∃ r s', BundleManager.applyPendingUpdate self s = (Ok r, s') ∧
  getNextBundleId s' = None ∧
  match getBundle nextId s with
  | None =>
      r = {| applied := false; bundleId := currentId |} ∧
      getCurrentBundleId s' = currentId ∧
      ∀ k, getBundle k s' = getBundle k s
  | Some b =>
      if verified then
        r = {| applied := true; bundleId := nextId |} ∧
        getCurrentBundleId s' = nextId ∧
        ∀ k, getBundle k s' = if deletes && bool_decide (k = currentId)
                              then None else getBundle k s
      else
        r = {| applied := false; bundleId := currentId |} ∧
        getCurrentBundleId s' = currentId ∧
        getBundle nextId s' = Some (markError b) ∧
        ∀ k, k ≠ nextId → getBundle k s' = getBundle k s
  end.
Proof.
intros Hn Hne Hcur Hw currentId verified deletes.
subst currentId verified.
destruct (getBundle nextId s) as [b|] eqn:Hb;
  [destruct (verifyBundleIntegrity _ nextId s) eqn:Hv|].
- destruct (applyPendingUpdate_activates s nextId b) as (fs & fs' & ->);
    [done..|].
  destruct (activated_state s nextId fs fs' deletes) as (? & ? & _ & ?);
    [by rewrite Hb|].
  by eexists _, _.
- unfold BundleManager.applyPendingUpdate, BundleManager.verify. step.
  rewrite Hn. rewrite !bool_decide_eq_false_2 by done.
  cbv beta iota delta [orb]. step. rewrite Hb. step. rewrite Hv. cbn [negb].
  step.
  set (s1 := setNextBundleId None (setBundle nextId (markError b) s)).
  assert (Hw1 : writesSucceed s1).
  { revert Hw. apply writesSucceed_disk. unfold s1. by destruct s as [[d|] ?]. }
  destruct (save_ok s1 Hw1) as (fs & Hsave & Hw2).
  rewrite bind_run, Hsave. step.
  eexists _, _. split; [done|]. unfold s1.
  destruct s as [[d|] ?]; [|done]. unfold getBundle in *. simpl in *.
  split; [done|]. split; [done|]. split; [done|].
  split; [by rewrite lookup_insert_eq|].
  intros k Hk. by rewrite lookup_insert_ne.
- unfold BundleManager.applyPendingUpdate, BundleManager.verify. step.
  rewrite Hn. rewrite !bool_decide_eq_false_2 by done.
  cbv beta iota delta [orb]. step. rewrite Hb. step.
  set (s1 := setNextBundleId None s).
  assert (Hw1 : writesSucceed s1).
  { revert Hw. apply writesSucceed_disk. unfold s1. by destruct s as [[d|] ?]. }
  destruct (save_ok s1 Hw1) as (fs & Hsave & Hw2).
  rewrite bind_run, Hsave. step.
  eexists _, _. split; [done|]. unfold s1.
  by destruct s as [[d|] ?].
Qed.

End ApplySpec.

(** ** Marking a bundle by hand *)

Section MarkSpec.
Import StorageManager.
Variable self : BundleManager.t.
Implicit Types (s : Storage).

(** Whether the guards of [deleteBundle] let [bundleId] through. *)
Lemma best_effort_delete_run (enabled : bool) bundleId s :
let deletes :=
  enabled && negb (bool_decide (bundleId = BUILTIN_BUNDLE_ID))
  && negb (bool_decide (bundleId = getCurrentBundleId s))
  && negb (bool_decide (getNextBundleId s = Some bundleId)) in
∃ fs,
  (if enabled then catch_ignore (BundleManager.deleteBundle bundleId)
   else mret tt) s
  = (Ok tt, setDisk fs (if deletes then deleteBundle bundleId s else s)) ∧
  (writesSucceed s → Forall (λ rejected, rejected = false) (writeFaults fs)).
Proof.
simpl. destruct enabled; simpl; [|by exists (disk s); destruct s].
rewrite catch_ignore_run.
case_bool_decide as Hb; simpl.
{ destruct (deleteBundle_rejected bundleId s) as (? & -> & _); [auto|].
  by exists (disk s); destruct s. }
case_bool_decide as Hc; simpl.
{ destruct (deleteBundle_rejected bundleId s) as (? & -> & _); [auto|].
  by exists (disk s); destruct s. }
case_bool_decide as Hn; simpl.
{ destruct (deleteBundle_rejected bundleId s) as (? & -> & _); [auto|].
  by exists (disk s); destruct s. }
destruct (deleteBundle_accepted bundleId s) as (r & fs & -> & Hr);
  [done..|].
exists fs. split; [done|]. intros Hw. by destruct (Hr Hw) as [_ ?].
Qed.

Lemma getBundle_setDisk fs k s : getBundle k (setDisk fs s) = getBundle k s.
Proof. reflexivity. Qed.

(** X8.  [setBundleError(id)] throws and changes nothing when manual marking
  is not allowed, and when it is allowed but [id] is not stored (and is no
  name inherited from [Object.prototype]).  Allowed
  on a stored bundle, with the disk available, it resolves with the bundle
  marked [error]; in the map the bundle is marked, or its entry is removed
  when auto-delete-failed is on and [id] is neither the builtin id nor
  current nor queued.  The other entries and the current and queued ids
  stay. *)
Theorem setBundleError_spec s (bundleId : string) (allowManualBundleError : bool) :
let deletes :=
  BundleManager.autoDeleteFailed self
  && negb (bool_decide (bundleId = BUILTIN_BUNDLE_ID))
  && negb (bool_decide (bundleId = getCurrentBundleId s))
  && negb (bool_decide (getNextBundleId s = Some bundleId)) in
(allowManualBundleError = false
 ∨ (getBundle bundleId s = None ∧ inheritedProperty bundleId = false) →
 ∃ message,
   BundleManager.setBundleError self bundleId allowManualBundleError s
     = (Throw (Error message), s)) ∧
(∀ b, allowManualBundleError = true → getBundle bundleId s = Some b →
 writesSucceed s →
 ∃ s', BundleManager.setBundleError self bundleId allowManualBundleError s
         = (Ok (markError b), s') ∧
   getBundle bundleId s' = (if deletes then None else Some (markError b)) ∧
   (∀ k, k ≠ bundleId → getBundle k s' = getBundle k s) ∧
   getCurrentBundleId s' = getCurrentBundleId s ∧
   getNextBundleId s' = getNextBundleId s).
Proof.
intros deletes. unfold BundleManager.setBundleError. split.
- intros [->|[Hnone _]]; [by eexists|].
  destruct allowManualBundleError; simpl; [|by eexists].
  step. rewrite Hnone. by eexists.
- intros b -> Hb Hw. simpl. step. rewrite Hb. cbv zeta. step.
  set (s1 := setBundle bundleId (markError b) s).
  assert (Hw1 : writesSucceed s1).
  { revert Hw. apply writesSucceed_disk. unfold s1. by destruct s as [[d|] ?]. }
  assert (Hp1 : getCurrentBundleId s1 = getCurrentBundleId s
                ∧ getNextBundleId s1 = getNextBundleId s)
    by (unfold s1; by destruct s as [[d|] ?]).
  destruct Hp1 as [Hc1 Hn1]. rewrite bind_run.
  destruct (best_effort_delete_run (BundleManager.autoDeleteFailed self)
    bundleId s1) as (fs & -> & Hfs).
  rewrite Hc1, Hn1. fold deletes.
  set (s2 := setDisk fs (if deletes then deleteBundle bundleId s1 else s1)).
  assert (Hw2 : writesSucceed s2) by (by apply Hfs).
  destruct (save_ok s2 Hw2) as (fs' & Hsave & _).
  rewrite bind_run, Hsave. step.
  eexists. split; [done|]. unfold s2, s1.
  destruct deletes.
  + split; [|split; [|split]].
    * rewrite !getBundle_setDisk, getBundle_deleteBundle. by case_decide.
    * intros k Hk. rewrite !getBundle_setDisk, getBundle_deleteBundle.
      case_decide; [done|].
      rewrite getBundle_setBundle by by eapply stored_initialised.
      by case_decide.
    * by destruct s as [[d|] ?].
    * by destruct s as [[d|] ?].
  + split; [|split; [|split]].
    * rewrite !getBundle_setDisk.
      rewrite getBundle_setBundle by by eapply stored_initialised.
      by case_decide.
    * intros k Hk. rewrite !getBundle_setDisk.
      rewrite getBundle_setBundle by by eapply stored_initialised.
      by case_decide.
    * by destruct s as [[d|] ?].
    * by destruct s as [[d|] ?].
Qed.

End MarkSpec.

(** ** Calls in sequence *)

Section Sequences.
Import StorageManager.
Variable self : BundleManager.t.
Implicit Types (s : Storage).

(** [next] on a stored, ready and intact bundle, with the state it ends in. *)
Lemma next_queues s (bundleId : string) (b : BundleInfo) :
getBundle bundleId s = Some b → status b = success →
verifyBundleIntegrity (BundleManager.downloadManager self) bundleId s = true →
writesSucceed s →
∃ fs, BundleManager.next self bundleId s
        = (Ok b, setDisk fs (setNextBundleId (Some bundleId) s)) ∧
      writesSucceed (setDisk fs (setNextBundleId (Some bundleId) s)).
Proof.
intros Hb Hst Hv Hw. unfold BundleManager.next, BundleManager.verify. step.
rewrite Hb. rewrite bool_decide_eq_true_2 by done. cbn [negb]. step.
rewrite Hv. cbn [negb]. step.
destruct (save_ok (setNextBundleId (Some bundleId) s)) as (fs & Hsave & Hw').
{ revert Hw. apply writesSucceed_disk. by destruct s as [[d|] ?]. }
rewrite bind_run, Hsave. step. by exists fs.
Qed.

(** X9.  Queue, restart, activate: for a stored bundle of status [success]
  that is not the current one and passes the integrity check when queued
  and again at start-up, with the disk available, [next(b)] resolves and
  the [applyPendingUpdate()] that follows reports [applied = true] and
  leaves [b] current, stored as it was, with nothing queued. *)
Theorem queue_then_activate s (bundleId : string) (b : BundleInfo) :
getBundle bundleId s = Some b → status b = success →
bundleId ≠ "" → bundleId ≠ getCurrentBundleId s → writesSucceed s →
verifyBundleIntegrity (BundleManager.downloadManager self) bundleId s = true →
verifyBundleIntegrity (BundleManager.downloadManager self) bundleId
  (BundleManager.next self bundleId s).2 = true →
∃ s1 s2,
  BundleManager.next self bundleId s = (Ok b, s1) ∧
  BundleManager.applyPendingUpdate self s1
    = (Ok {| applied := true; bundleId := bundleId |}, s2) ∧
  getCurrentBundleId s2 = bundleId ∧ getNextBundleId s2 = None ∧
  getBundle bundleId s2 = Some b.
Proof.
intros Hb Hst Hne Hcur Hw Hv Hv'.
destruct (next_queues s bundleId b Hb Hst Hv Hw) as (fs & Hnext & Hw1).
rewrite Hnext in Hv'. simpl in Hv'.
set (s1 := setDisk fs (setNextBundleId (Some bundleId) s)) in *.
assert (Hs1 : getNextBundleId s1 = Some bundleId
              ∧ getCurrentBundleId s1 = getCurrentBundleId s
              ∧ getBundle bundleId s1 = Some b).
{ unfold s1. destruct s as [[d|] ?]; [done|done]. }
destruct Hs1 as (Hq1 & Hc1 & Hb1).
destruct (applyPendingUpdate_activates self s1 bundleId b) as (fs1 & fs2 & Happly);
  [done|done|by rewrite Hc1|done|done|done|].
destruct (activated_state s1 bundleId fs1 fs2
  (BundleManager.autoDeletePrevious self
     && negb (bool_decide (getCurrentBundleId s1 = BUILTIN_BUNDLE_ID))))
  as (Hc2 & Hq2 & _ & Hmap); [by rewrite Hb1|].
eexists s1, _. split; [done|]. split; [exact Happly|].
split; [exact Hc2|]. split; [exact Hq2|].
rewrite Hmap, Hb1. rewrite (bool_decide_eq_false_2 (bundleId = _)) by congruence.
by rewrite andb_false_r.
Qed.

(** X10.  The failed-update record is read once: [getFailedUpdate()]
  returns the stored record and the call that follows it returns [null];
  after a [rollback()] from a stored current bundle, whatever the disk
  does, the record read is that bundle with status [error]. *)
Theorem failed_update_read_once s :
(∃ s1 s2,
   BundleManager.getFailedUpdate s = (Ok (getFailedUpdate s), s1) ∧
   BundleManager.getFailedUpdate s1 = (Ok None, s2)) ∧
(∀ b, getBundle (getCurrentBundleId s) s = Some b →
   (BundleManager.getFailedUpdate (BundleManager.rollback self s).2).1
     = Ok (Some {| bundle := markError b |})).
Proof.
split.
- unfold BundleManager.getFailedUpdate, clearFailedUpdate.
  eexists _, _. split; [done|]. by destruct s as [[d|] ?].
- intros b Hb.
  destruct (rollback_run self s) as (r & s' & -> & Hmark & _).
  destruct (Hmark b Hb) as [_ Hf].
  unfold BundleManager.getFailedUpdate, clearFailedUpdate. simpl.
  by rewrite Hf.
Qed.

(** X11.  [rollback()] does not look whether its target is stored: when the
  last successful id refers to a bundle that is no longer in the map (it
  was the previous bundle of a [set] with auto-delete-previous on), the
  rollback makes that id current all the same, and [current()] and the
  value returned by [rollback()] fall back to the builtin descriptor. *)
Theorem rollback_onto_deleted_bundle s (lastId : string) :
writesSucceed s →
getLastSuccessfulBundleId s = Some lastId → lastId ≠ BUILTIN_BUNDLE_ID →
getBundle lastId s = None →
∃ s', BundleManager.rollback self s
        = (Ok (BundleManager.getBuiltinBundle self), s') ∧
  getCurrentBundleId s' = lastId ∧ getBundle lastId s' = None ∧
  BundleManager.current self s'
    = (Ok {| cur_bundle := BundleManager.getBuiltinBundle self;
             native := BundleManager.builtinVersion self |}, s').
Proof.
intros Hw Hlast Hne Hgone.
destruct (rollback_run self s) as (r & s' & Hrun & _ & Hok).
destruct (Hok Hw) as (Hdata & _ & ->).
destruct (getters_data _ _ Hdata) as (Hcur & _ & _ & _ & Hbundles).
destruct (rolledBack_pointers s) as [Htarget _].
assert (Ht : rollbackTarget s = lastId) by (unfold rollbackTarget; by rewrite Hlast).
assert (Hgone' : getBundle lastId s' = None).
{ rewrite Hbundles. unfold rolledBack.
  destruct (getBundle (getCurrentBundleId s) s) as [b|] eqn:Hb.
  - unfold_pointers. rewrite !getBundle_pointer by done.
    rewrite getBundle_setBundle by by eapply stored_initialised.
    case_decide as Hk; [|done]. congruence.
  - unfold_pointers. by rewrite !getBundle_pointer. }
rewrite Ht, Hgone' in Hrun. simpl in Hrun.
exists s'. split; [done|]. split; [by rewrite Hcur, Htarget|].
split; [done|].
unfold BundleManager.current. step. rewrite Hcur, Htarget, Ht.
rewrite bool_decide_eq_false_2 by done. step. by rewrite Hgone'.
Qed.

End Sequences.

(** ** Cleaning up *)

Section CleanupSpec.
Import StorageManager.
Variable self : BundleManager.t.
Implicit Types (s : Storage).

Lemma deletable_data k s s' : data s' = data s → deletable k s' = deletable k s.
Proof.
intros Hd. unfold deletable, getCurrentBundleId, getNextBundleId. by rewrite Hd.
Qed.

Lemma best_effort_delete_deletable (enabled : bool) bundleId s :
∃ fs,
  (if enabled then catch_ignore (BundleManager.deleteBundle bundleId)
   else mret tt) s
  = (Ok tt, setDisk fs (if enabled && deletable bundleId s
                        then deleteBundle bundleId s else s)).
Proof.
destruct (best_effort_delete_run enabled bundleId s) as (fs & Hrun & _).
exists fs. rewrite Hrun. unfold deletable.
by rewrite !andb_assoc.
Qed.

(** The loop over the snapshot: it resolves, and removes the entries whose
  key is the id of a listed [error] bundle and passes the guards. *)
Lemma deleteFailed_run storedBundles s :
∃ s', BundleManager.deleteFailed storedBundles s = (Ok tt, s') ∧
  getCurrentBundleId s' = getCurrentBundleId s ∧
  getNextBundleId s' = getNextBundleId s ∧
  ∀ k, getBundle k s'
       = if bool_decide (Exists (λ b, id b = k ∧ status b = error) storedBundles)
            && deletable k s
         then None else getBundle k s.
Proof.
revert s. induction storedBundles as [|b rest IH]; intros s; simpl.
- exists s. split; [done|]. split; [done|]. split; [done|]. intros k.
  first [ done
        | rewrite bool_decide_eq_false_2; [done|by intros ?%Exists_nil] ].
- rewrite bind_run.
  destruct (best_effort_delete_deletable (bool_decide (status b = error))
    (id b) s) as (fs & ->).
  set (s1 := setDisk fs (if bool_decide (status b = error) && deletable (id b) s
                         then deleteBundle (id b) s else s)).
  assert (Hp : getCurrentBundleId s1 = getCurrentBundleId s
               ∧ getNextBundleId s1 = getNextBundleId s).
  { unfold s1. destruct (_ && _); [|done].
    destruct (pointers_deleteBundle (id b) s) as (? & ? & _). done. }
  destruct Hp as [Hc Hn].
  assert (Hg : ∀ k, deletable k s1 = deletable k s).
  { intros k. unfold deletable. by rewrite Hc, Hn. }
  assert (Hb1 : ∀ k, getBundle k s1
    = if bool_decide (id b = k ∧ status b = error) && deletable k s
      then None else getBundle k s).
  { intros k. unfold s1. rewrite getBundle_setDisk.
    destruct (decide (status b = error)) as [He|He].
    - rewrite (bool_decide_eq_true_2 (status b = error)) by done. simpl.
      destruct (decide (id b = k)) as [<-|Hk].
      + rewrite (bool_decide_eq_true_2 (_ ∧ _)) by done. simpl.
        destruct (deletable (id b) s); [|done].
        rewrite getBundle_deleteBundle. by case_decide.
      + rewrite (bool_decide_eq_false_2 (_ ∧ _)) by (by intros [? _]). simpl.
        destruct (deletable (id b) s); [|done].
        rewrite getBundle_deleteBundle. by case_decide.
    - rewrite (bool_decide_eq_false_2 (status b = error)) by done.
      by rewrite (bool_decide_eq_false_2 (_ ∧ _)) by (by intros [_ ?]). }
  destruct (IH s1) as (s' & Hrun & Hc' & Hn' & Hmap).
  exists s'. split; [exact Hrun|].
  split; [by etrans|]. split; [by etrans|].
  intros k. rewrite Hmap, Hg, Hb1.
  destruct (deletable k s); [|by rewrite !andb_false_r].
  rewrite !andb_true_r.
  destruct (decide (id b = k ∧ status b = error)) as [Hhead|Hhead].
  + rewrite (bool_decide_eq_true_2 (id b = k ∧ _)) by done.
    rewrite (bool_decide_eq_true_2 (Exists _ (b :: rest)))
      by by apply Exists_cons_hd.
    by destruct (bool_decide (Exists _ rest)).
  + rewrite (bool_decide_eq_false_2 (id b = k ∧ _)) by done.
    apply (f_equal (λ c : bool, if c then None else getBundle k s)).
    apply bool_decide_ext. rewrite Exists_cons. tauto.
Qed.

(** The orphan sweep touches neither the document nor the storage file,
  never rejects, only removes directories, and not those of stored
  bundles. *)
Lemma removeOrphans_run ids entries s :
∃ fs, removeOrphans ids entries s = (Ok tt, setDisk fs s) ∧
  storageFile fs = storageFile (disk s) ∧
  writeFaults fs = writeFaults (disk s) ∧
  bundleDirs fs ⊆ bundleDirs (disk s) ∧
  (∀ k, k ∈ ids → k ∈ bundleDirs (disk s) → k ∈ bundleDirs fs) ∧
  (removalsSucceed s →
     ∀ k, k ∈ bundleDirs fs ↔
          k ∈ bundleDirs (disk s) ∧ (k ∈ entries → k ∈ ids)).
Proof.
revert s. induction entries as [|name rest IH]; intros s; simpl.
- exists (disk s). destruct s as [d fs]. simpl.
  split; [done|]. split; [done|]. split; [done|]. split; [done|].
  split; [auto|]. intros _ k. split; [|by intros [? _]].
  intros ?. split; [done|]. by intros ?%elem_of_nil.
- case_bool_decide as Hin.
  + step. destruct (IH s) as (fs & -> & Hfile & Hwf & Hsub & Hkeep & Hall).
    exists fs. split; [done|]. split; [done|]. split; [done|].
    split; [done|]. split; [done|].
    intros Hrm k. rewrite (Hall Hrm k), elem_of_cons. split.
    * intros [Hk Himp]. split; [done|]. intros [->|?]; [done|by apply Himp].
    * intros [Hk Himp]. split; [done|]. intros ?. apply Himp. by right.
  + rewrite bind_run. unfold deleteBundleFiles, try_catch, rm.
    destruct (rmFaults (disk s)) as [|[] faults] eqn:Hfaults; simpl.
    * set (s1 := setDisk _ s).
      destruct (IH s1) as (fs & -> & Hfile & Hwf & Hsub & Hkeep & Hall).
      exists fs. unfold s1 in *. simpl in *.
      split; [done|]. split; [done|]. split; [done|].
      split.
      { intros x Hx. apply Hsub in Hx. by apply elem_of_difference in Hx as [? _]. }
      split.
      { intros k Hk Hd. apply Hkeep; [done|]. apply elem_of_difference.
        split; [done|]. intros ->%elem_of_singleton. done. }
      intros _ k. rewrite Hall by (unfold removalsSucceed; simpl; constructor).
      rewrite elem_of_difference, elem_of_singleton, elem_of_cons. split.
      -- intros [[Hk Hne] Himp]. split; [done|]. intros [?|?]; [done|auto].
      -- intros [Hk Himp]. split; [split; [done|]|].
         ++ intros ->. apply Hin, Himp. by left.
         ++ intros ?. apply Himp. by right.
    * set (s1 := setDisk _ s).
      destruct (IH s1) as (fs & -> & Hfile & Hwf & Hsub & Hkeep & Hall).
      exists fs. unfold s1 in *. simpl in *.
      split; [done|]. split; [done|]. split; [done|].
      split; [done|]. split; [done|].
      intros Hrm. unfold removalsSucceed in Hrm. rewrite Hfaults in Hrm.
      by apply Forall_cons_1 in Hrm as [? _].
    * set (s1 := setDisk _ s).
      destruct (IH s1) as (fs & -> & Hfile & Hwf & Hsub & Hkeep & Hall).
      exists fs. unfold s1 in *. simpl in *.
      split; [done|]. split; [done|]. split; [done|].
      split.
      { intros x Hx. apply Hsub in Hx. by apply elem_of_difference in Hx as [? _]. }
      split.
      { intros k Hk Hd. apply Hkeep; [done|]. apply elem_of_difference.
        split; [done|]. intros ->%elem_of_singleton. done. }
      intros Hrm k. rewrite Hall.
      2:{ unfold removalsSucceed in *. simpl. rewrite Hfaults in Hrm.
          by apply Forall_cons_1 in Hrm as [_ ?]. }
      rewrite elem_of_difference, elem_of_singleton, elem_of_cons. split.
      -- intros [[Hk Hne] Himp]. split; [done|]. intros [?|?]; [done|auto].
      -- intros [Hk Himp]. split; [split; [done|]|].
         ++ intros ->. apply Hin, Himp. by left.
         ++ intros ?. apply Himp. by right.
Qed.

Lemma cleanupOrphanedBundles_run (readdirRejects : bool) s :
∃ fs, cleanupOrphanedBundles readdirRejects s = (Ok tt, setDisk fs s).
Proof.
unfold cleanupOrphanedBundles, try_catch, readdir.
destruct readdirRejects; [by exists (disk s); destruct s|].
rewrite bind_run. step.
destruct (removeOrphans_run (dom (bundles (getManifest s)))
  (elements (bundleDirs (disk s))) s) as (fs & -> & _).
by exists fs.
Qed.

(** X12.  [cleanupOrphanedBundles] never rejects and leaves the document
  and the storage file alone, whatever [readdir] and [rm] do.  It only
  removes directories, and never the directory of a bundle that is in the
  manifest.  When [readdir] and every [rm] succeed, the directories left
  are exactly those of the bundles in the manifest. *)
Theorem cleanupOrphanedBundles_spec (readdirRejects : bool) s :
∃ fs, cleanupOrphanedBundles readdirRejects s = (Ok tt, setDisk fs s) ∧
  storageFile fs = storageFile (disk s) ∧
  bundleDirs fs ⊆ bundleDirs (disk s) ∧
  (∀ k, is_Some (getBundle k s) → k ∈ bundleDirs (disk s) → k ∈ bundleDirs fs) ∧
  (readdirRejects = false → removalsSucceed s →
     ∀ k, k ∈ bundleDirs fs ↔
          k ∈ bundleDirs (disk s) ∧ is_Some (getBundle k s)).
Proof.
assert (Hdom : ∀ k, k ∈ dom (bundles (getManifest s)) ↔ is_Some (getBundle k s)).
{ intros k. rewrite elem_of_dom. unfold getManifest, getBundle.
  destruct (data s); [done|]. simpl. by rewrite lookup_empty. }
unfold cleanupOrphanedBundles, try_catch, readdir.
destruct readdirRejects.
- exists (disk s). destruct s as [d fs]. simpl.
  split; [done|]. split; [done|]. split; [done|]. split; [auto|done].
- rewrite bind_run. step.
  destruct (removeOrphans_run (dom (bundles (getManifest s)))
    (elements (bundleDirs (disk s))) s)
    as (fs & -> & Hfile & _ & Hsub & Hkeep & Hall).
  exists fs. split; [done|]. split; [done|]. split; [done|]. split.
  + intros k Hk. apply Hkeep. by apply Hdom.
  + intros _ Hrm k. rewrite (Hall Hrm k), elem_of_elements, Hdom. tauto.
Qed.

(** X13.  [cleanup()] always resolves, whatever the disk does, and leaves
  the current and the queued id as they are.  In a map keyed by the
  bundles' ids it removes, when auto-delete-failed is on, exactly the
  entries of the [error] bundles that are neither current nor queued nor
  under the builtin id, and leaves every other entry as it is; with
  auto-delete-failed off it removes none. *)
Theorem cleanup_spec (readdirRejects : bool) s :
keyedById s →
∃ s', BundleManager.cleanup self readdirRejects s = (Ok tt, s') ∧
  getCurrentBundleId s' = getCurrentBundleId s ∧
  getNextBundleId s' = getNextBundleId s ∧
  ∀ k, getBundle k s'
       = match getBundle k s with
         | Some b =>
             if BundleManager.autoDeleteFailed self
                && bool_decide (status b = error) && deletable k s
             then None else Some b
         | None => None
         end.
Proof.
intros Hkeys. unfold BundleManager.cleanup. rewrite bind_run.
assert (∃ s1,
  (if BundleManager.autoDeleteFailed self
   then storedBundles ← gets getAllBundles;
        BundleManager.deleteFailed storedBundles
   else mret tt) s = (Ok tt, s1) ∧
  getCurrentBundleId s1 = getCurrentBundleId s ∧
  getNextBundleId s1 = getNextBundleId s ∧
  ∀ k, getBundle k s1
       = match getBundle k s with
         | Some b =>
             if BundleManager.autoDeleteFailed self
                && bool_decide (status b = error) && deletable k s
             then None else Some b
         | None => None
         end) as (s1 & -> & Hc & Hn & Hmap).
{ destruct (BundleManager.autoDeleteFailed self).
  - step.
    destruct (deleteFailed_run (getAllBundles s) s) as (s1 & Hrun & Hc & Hn & Hmap).
    exists s1. split; [done|]. split; [done|]. split; [done|].
    intros k. rewrite Hmap. simpl.
    destruct (getBundle k s) as [b|] eqn:Hb.
    + destruct (deletable k s); [|by rewrite !andb_false_r].
      rewrite !andb_true_r.
      apply (f_equal (λ c : bool, if c then None else Some b)).
      apply bool_decide_ext. rewrite Exists_exists. split.
      * intros (b' & [k' Hb']%elem_of_getAllBundles & Hid & He).
        rewrite <- (Hkeys k' b' Hb') in Hb'. rewrite Hid in Hb'. congruence.
      * intros He. exists b. split; [apply elem_of_getAllBundles; eauto|].
        split; [by apply Hkeys|done].
    + by destruct (_ && _).
  - exists s. split; [done|]. split; [done|]. split; [done|].
    intros k. simpl. by destruct (getBundle k s). }
destruct (cleanupOrphanedBundles_run readdirRejects s1) as (fs & ->).
exists (setDisk fs s1). split; [done|]. by repeat split.
Qed.

End CleanupSpec.

(** * The delay manager *)

(** ** Numbers *)

Section Numbers.
Import DelayManager.
Implicit Types (x y z : Integer).

Lemma ltNumber_irrefl x : ltNumber x x = false.
Proof.
destruct x as [|a|[]]; simpl; try done.
apply bool_decide_eq_false_2. lia.
Qed.

Lemma ltNumber_asym x y : ltNumber x y = true → ltNumber y x = false.
Proof.
destruct x as [|a|[]], y as [|b|[]]; simpl; try done.
intros ?%bool_decide_eq_true. apply bool_decide_eq_false_2. lia.
Qed.

Lemma ltNumber_trans x y z :
ltNumber x y = true → ltNumber y z = true → ltNumber x z = true.
Proof.
destruct x as [|a|[]], y as [|b|[]], z as [|c|[]]; simpl; try done.
intros ?%bool_decide_eq_true ?%bool_decide_eq_true.
apply bool_decide_eq_true_2. lia.
Qed.

(** Two numbers, neither [NaN] nor one below the other, are the same. *)
Lemma ltNumber_neither x y :
x ≠ NotANumber → y ≠ NotANumber →
ltNumber x y = false → ltNumber y x = false → x = y.
Proof.
destruct x as [|a|[]], y as [|b|[]]; simpl; try done.
intros _ _ ?%bool_decide_eq_false ?%bool_decide_eq_false. f_equal. lia.
Qed.

Lemma orZero_number x : orZero x ≠ NotANumber.
Proof. by destruct x. Qed.

End Numbers.

(** ** Splitting *)

Section Splitting.
Import CryptoManager.

Lemma split_nonempty sep s : split sep s ≠ [].
Proof.
intros Hnil. apply (f_equal length) in Hnil. by rewrite length_split in Hnil.
Qed.

(** Splitting a string that has a separator in it: the fields before it,
  then the fields after it. *)
Lemma split_app sep (a b : string) :
split sep (a +:+ String sep b) = split sep a ++ split sep b.
Proof.
induction a as [|c a IH]; simpl.
- by rewrite Ascii.eqb_refl.
- destruct (Ascii.eqb c sep); [by rewrite IH|]. rewrite IH.
  pose proof (split_nonempty sep a) as Hne.
  by destruct (split sep a) as [|first others].
Qed.

End Splitting.

(** ** Comparing versions *)

Section Versions.
Import DelayManager.
Variable parseInt : string → Integer.
Implicit Types (la lb lc : list Integer) (i n m : nat).

Lemma compareFrom_antisym la lb i n :
compareFrom la lb i n = (- compareFrom lb la i n)%Z.
Proof.
revert i. induction n as [|n IH]; intros i; simpl; [done|].
destruct (ltNumber (default (Int 0) (la !! i)) (default (Int 0) (lb !! i))) eqn:Hab.
- by rewrite (ltNumber_asym _ _ Hab).
- destruct (ltNumber (default (Int 0) (lb !! i)) (default (Int 0) (la !! i)));
    [done|apply IH].
Qed.

(** More rounds: the first rounds decide, or the others do. *)
Lemma compareFrom_add la lb i n m :
compareFrom la lb i (n + m)
= if decide (compareFrom la lb i n = 0%Z) then compareFrom la lb (i + n) m
  else compareFrom la lb i n.
Proof.
revert i. induction n as [|n IH]; intros i; simpl.
- by rewrite Nat.add_0_r.
- destruct (ltNumber _ _); [done|]. destruct (ltNumber _ _); [done|].
  rewrite IH. by replace (S i + n) with (i + S n) by lia.
Qed.

(** Past the end of both lists all components are [0]. *)
Lemma compareFrom_beyond la lb i n :
length la ≤ i → length lb ≤ i → compareFrom la lb i n = 0%Z.
Proof.
revert i. induction n as [|n IH]; intros i Ha Hb; simpl; [done|].
rewrite !lookup_ge_None_2 by done. simpl.
try rewrite bool_decide_eq_false_2 by lia. apply IH; lia.
Qed.

(** Any number of rounds that covers both lists gives the same verdict. *)
Lemma compareFrom_enough la lb n :
Nat.max (length la) (length lb) ≤ n →
compareFrom la lb 0 n
= compareFrom la lb 0 (Nat.max (length la) (length lb)).
Proof.
intros Hn. replace n with (Nat.max (length la) (length lb)
                           + (n - Nat.max (length la) (length lb))) by lia.
rewrite compareFrom_add. case_decide; [|done].
rewrite compareFrom_beyond by lia. done.
Qed.

(** Only the components count. *)
Lemma compareFrom_ext la la' lb lb' i n :
(∀ j, versionComponent la j = versionComponent la' j) →
(∀ j, versionComponent lb j = versionComponent lb' j) →
compareFrom la lb i n = compareFrom la' lb' i n.
Proof.
intros Ha Hb. revert i. induction n as [|n IH]; intros i; simpl; [done|].
fold (versionComponent la i) (versionComponent lb i)
  (versionComponent la' i) (versionComponent lb' i).
by rewrite Ha, Hb, IH.
Qed.

Lemma compareFrom_trans la lb lc i n :
Forall (λ x, x ≠ NotANumber) la → Forall (λ x, x ≠ NotANumber) lb →
Forall (λ x, x ≠ NotANumber) lc →
(compareFrom la lb i n ≤ 0)%Z → (compareFrom lb lc i n ≤ 0)%Z →
(compareFrom la lc i n ≤ 0)%Z.
Proof.
intros Ha Hb Hc.
assert (Hnum : ∀ l j, Forall (λ x, x ≠ NotANumber) l →
                      default (Int 0) (l !! j) ≠ NotANumber).
{ intros l j Hl. destruct (l !! j) as [x|] eqn:Hx; simpl; [|done].
  by apply (Forall_lookup_1 _ _ _ _ Hl Hx). }
revert i. induction n as [|n IH]; intros i; simpl; [done|].
pose proof (Hnum la i Ha) as Hx. pose proof (Hnum lb i Hb) as Hy.
pose proof (Hnum lc i Hc) as Hz.
set (x := default (Int 0) (la !! i)) in *.
set (y := default (Int 0) (lb !! i)) in *.
set (z := default (Int 0) (lc !! i)) in *.
destruct (ltNumber x y) eqn:Hxy.
- intros _. destruct (ltNumber y z) eqn:Hyz.
  + intros _. by rewrite (ltNumber_trans x y z).
  + destruct (ltNumber z y) eqn:Hzy; [lia|]. intros _.
    rewrite <- (ltNumber_neither y z) by done. by rewrite Hxy.
- destruct (ltNumber y x) eqn:Hyx; [lia|]. intros Hab.
  rewrite <- (ltNumber_neither x y) in * by done.
  destruct (ltNumber x z) eqn:Hxz; [done|].
  destruct (ltNumber z x) eqn:Hzx; [lia|]. by apply IH.
Qed.

Lemma versionParts_numbers v :
Forall (λ x, x ≠ NotANumber) (versionParts parseInt v).
Proof.
unfold versionParts. apply Forall_fmap, Forall_forall. intros p _.
apply orZero_number.
Qed.

End Versions.

Section VersionTheorems.
Import DelayManager.
Variable parseInt : string → Integer.

Lemma compareVersions_le_trans (a b c : string) :
(compareVersions parseInt a b ≤ 0)%Z → (compareVersions parseInt b c ≤ 0)%Z →
(compareVersions parseInt a c ≤ 0)%Z.
Proof.
unfold compareVersions.
set (la := versionParts parseInt a). set (lb := versionParts parseInt b).
set (lc := versionParts parseInt c).
set (n := Nat.max (length la) (Nat.max (length lb) (length lc))).
rewrite <- (compareFrom_enough la lb n), <- (compareFrom_enough lb lc n),
  <- (compareFrom_enough la lc n) by lia.
apply compareFrom_trans; apply versionParts_numbers.
Qed.

Lemma compareFrom_range la lb i n :
(compareFrom la lb i n = -1 ∨ compareFrom la lb i n = 0
 ∨ compareFrom la lb i n = 1)%Z.
Proof.
revert i. induction n as [|n IH]; intros i; simpl; [auto|].
destruct (ltNumber _ _); [auto|]. destruct (ltNumber _ _); [auto|]. apply IH.
Qed.

Lemma compareVersions_swap (a b : string) :
compareVersions parseInt a b = (- compareVersions parseInt b a)%Z.
Proof.
unfold compareVersions.
rewrite (Nat.max_comm (length (versionParts parseInt b))).
apply compareFrom_antisym.
Qed.

Lemma versionComponent_padded la j :
versionComponent (la ++ [Int 0]) j = versionComponent la j.
Proof.
unfold versionComponent. destruct (decide (j < length la)) as [Hj|Hj].
- by rewrite lookup_app_l.
- rewrite lookup_app_r by lia. rewrite (lookup_ge_None_2 la) by lia.
  by destruct (j - length la) as [|[|?]].
Qed.

(** X14.  [compareVersions] is a three-way comparison: it answers -1, 0 or
  1, swapping the arguments negates the answer, and a version compares
  equal to itself, whatever its components parse to. *)
Theorem compareVersions_antisym (a b : string) :
compareVersions parseInt a b = (- compareVersions parseInt b a)%Z ∧
compareVersions parseInt a a = 0%Z ∧
(compareVersions parseInt a b = -1 ∨ compareVersions parseInt a b = 0
 ∨ compareVersions parseInt a b = 1)%Z.
Proof.
pose proof compareVersions_swap as Hanti.
split; [apply Hanti|]. split; [specialize (Hanti a a); lia|].
unfold compareVersions. apply compareFrom_range.
Qed.

(** X15.  The version condition is monotone in the host version: when a host
  version satisfies a [nativeVersion] condition, so does every host version
  that does not compare below it. *)
Theorem version_condition_monotone (self self' : t) (value : option string) :
isVersionConditionSatisfied parseInt self value = true →
(0 ≤ compareVersions parseInt (appVersion self') (appVersion self))%Z →
isVersionConditionSatisfied parseInt self' value = true.
Proof.
unfold isVersionConditionSatisfied. destruct (negb (truthy value)); [done|].
intros Hold%bool_decide_eq_true Hnew. apply bool_decide_eq_true_2.
pose proof (compareVersions_swap (appVersion self) (default "" value))
  as Ha.
pose proof (compareVersions_swap (appVersion self') (appVersion self))
  as Hb.
pose proof (compareVersions_swap (appVersion self') (default "" value))
  as Hc.
pose proof (compareVersions_le_trans (default "" value) (appVersion self)
  (appVersion self')) as Htrans.
lia.
Qed.

(** X16.  Shorter versions are padded with zeros: a trailing [.0] on either
  side never changes the comparison (for a [parseInt] under which the
  component [0] is zero or not a number, as the built-in's is). *)
Theorem compareVersions_trailing_zero (a b : string) :
orZero (parseInt "0") = Int 0 →
compareVersions parseInt (a +:+ ".0") b = compareVersions parseInt a b ∧
compareVersions parseInt a (b +:+ ".0") = compareVersions parseInt a b.
Proof.
intros Hzero.
assert (Hparts : ∀ v, versionParts parseInt (v +:+ ".0")
                      = versionParts parseInt v ++ [Int 0]).
{ intros v. unfold versionParts.
  change (v +:+ ".0") with (v +:+ String "."%char "0").
  rewrite split_app, fmap_app. simpl. by rewrite Hzero. }
unfold compareVersions. rewrite !Hparts, !length_app. simpl.
split.
- rewrite (compareFrom_ext _ (versionParts parseInt a) _ (versionParts parseInt b))
    by (done || apply versionComponent_padded).
  apply compareFrom_enough. lia.
- rewrite (compareFrom_ext _ (versionParts parseInt a) _ (versionParts parseInt b))
    by (done || apply versionComponent_padded).
  apply compareFrom_enough. lia.
Qed.

End VersionTheorems.

(** ** The delay gate *)

Section GateFacts.
Import StorageManager DelayManager.
Variable parseInt : string → Integer.
Variable Date_parse : string → TimeValue.
Implicit Types (self : t) (s : Storage) (now : Z).

Lemma allSatisfied_Forall self now conditions :
allSatisfied parseInt Date_parse self now conditions = true ↔
Forall (λ c, isConditionSatisfied parseInt Date_parse self now c = true) conditions.
Proof.
induction conditions as [|c rest IH]; simpl.
- split; [constructor|done].
- rewrite Forall_cons.
  destruct (isConditionSatisfied parseInt Date_parse self now c); simpl.
  + rewrite IH. tauto.
  + split; [done|]. by intros [? _].
Qed.

Lemma gate_elements self now s :
areConditionsSatisfied parseInt Date_parse self now s = true ↔
∀ c, c ∈ getDelayConditions s →
     isConditionSatisfied parseInt Date_parse self now c = true.
Proof.
unfold areConditionsSatisfied. rewrite <- Forall_forall, <- allSatisfied_Forall.
by destruct (getDelayConditions s).
Qed.

Lemma geNumbers_later (a b : Z) required :
(a ≤ b)%Z → geNumbers (Int a) required = true → geNumbers (Int b) required = true.
Proof.
intros Hab. destruct required as [|d|[]]; simpl; try done.
rewrite !negb_true_iff, !bool_decide_eq_false. lia.
Qed.

Lemma condition_later self now now' c :
(now ≤ now')%Z →
isConditionSatisfied parseInt Date_parse self now c = true →
isConditionSatisfied parseInt Date_parse self now' c = true.
Proof.
intros Hnow. unfold isConditionSatisfied. destruct (kind c); try done.
- unfold isBackgroundConditionSatisfied.
  destruct (notBackgrounded self); [done|].
  destruct (negb (truthy (value c))); [done|].
  destruct (parseInt (default "" (value c))) as [|d|negative] eqn:Hp; [done|..];
    apply geNumbers_later; lia.
- unfold isDateConditionSatisfied, dateReached.
  destruct (negb (truthy (value c))); [done|].
  destruct (value c) as [v|]; [|done].
  destruct (Date_parse v) as [|target]; simpl; [done|].
  rewrite !bool_decide_eq_true. lia.
Qed.

Lemma getDelayConditions_set conditions s :
getDelayConditions (setDelayConditions conditions s)
  = match data s with Some _ => conditions | None => [] end.
Proof. by destruct s as [[d|] ?]. Qed.

Lemma getDelayConditions_setDisk fs s :
getDelayConditions (setDisk fs s) = getDelayConditions s.
Proof. reflexivity. Qed.

Lemma setMultiDelay_run conditions s :
∃ r fs, setMultiDelay conditions s
          = (r, setDisk fs (setDelayConditions conditions s)) ∧
  (writesSucceed s →
     r = Ok tt ∧
     (is_Some (data s) → storageFile fs = data (setDelayConditions conditions s))).
Proof.
unfold setMultiDelay. step.
destruct (save_run (setDelayConditions conditions s)) as (r & fs & Hsave & Hok).
exists r, fs. split; [done|]. intros Hw.
destruct Hok as (-> & _ & Hfile).
{ by destruct s as [[d|] ?]. }
split; [done|]. intros Hd. apply Hfile. by destruct s as [[d|] ?].
Qed.

End GateFacts.

Section GateTheorems.
Import StorageManager DelayManager.
Variable parseInt : string → Integer.
Variable Date_parse : string → TimeValue.
Implicit Types (self : t) (s : Storage) (now : Z).

(** X17.  The gate is the conjunction of the stored conditions: it is open
  exactly when every stored condition is satisfied, so neither the order of
  the conditions nor a repeated condition matters, and with no condition
  stored (or storage not initialised) it is open. *)
Theorem areConditionsSatisfied_all self now s :
(areConditionsSatisfied parseInt Date_parse self now s = true ↔
 ∀ c, c ∈ getDelayConditions s →
      isConditionSatisfied parseInt Date_parse self now c = true) ∧
(∀ s', getDelayConditions s' ≡ₚ getDelayConditions s →
       areConditionsSatisfied parseInt Date_parse self now s'
       = areConditionsSatisfied parseInt Date_parse self now s) ∧
(data s = None → areConditionsSatisfied parseInt Date_parse self now s = true).
Proof.
split; [apply gate_elements|]. split.
- intros s' Hperm. apply eq_true_iff_eq. rewrite !gate_elements.
  by setoid_rewrite Hperm.
- intros Hd. apply gate_elements. unfold getDelayConditions. rewrite Hd.
  by intros c ?%elem_of_nil.
Qed.

(** X18.  Time only opens the gate: with the manager's state and the stored
  conditions fixed, a gate that is open at one instant is open at every
  later instant. *)
Theorem gate_stays_open self now now' s :
(now ≤ now')%Z →
areConditionsSatisfied parseInt Date_parse self now s = true →
areConditionsSatisfied parseInt Date_parse self now' s = true.
Proof.
intros Hnow. rewrite !gate_elements. intros Hall c Hc.
apply (condition_later parseInt Date_parse self now now' c Hnow). by apply Hall.
Qed.

(** X19.  [setMultiDelay] replaces the stored conditions, whatever the disk
  does, and with the disk available it resolves with the file holding the
  new document; the gate is then open exactly when every new condition is
  satisfied.  On storage that is not initialised the conditions are dropped
  without an error and the gate stays open. *)
Theorem setMultiDelay_spec self now conditions s :
∃ r fs, setMultiDelay conditions s
          = (r, setDisk fs (setDelayConditions conditions s)) ∧
  (writesSucceed s →
     r = Ok tt ∧
     (is_Some (data s) → storageFile fs = data (setDelayConditions conditions s))) ∧
  (is_Some (data s) →
     getDelayConditions (setMultiDelay conditions s).2 = conditions ∧
     areConditionsSatisfied parseInt Date_parse self now
       (setMultiDelay conditions s).2
     = allSatisfied parseInt Date_parse self now conditions) ∧
  (data s = None →
     setMultiDelay conditions s = (Ok tt, s) ∧
     areConditionsSatisfied parseInt Date_parse self now s = true).
Proof.
destruct (setMultiDelay_run conditions s) as (r & fs & Hrun & Hok).
exists r, fs. split; [done|]. split; [done|]. split.
- intros [d Hd]. rewrite Hrun. simpl.
  unfold areConditionsSatisfied.
  rewrite getDelayConditions_setDisk, getDelayConditions_set, Hd.
  split; [done|]. by destruct conditions.
- intros Hd. destruct s as [[d|] fs0]; [done|]. by split.
Qed.

(** X20.  [cancelDelay] opens the gate at once and for every manager state,
  also when the save is rejected; it is [setMultiDelay] with no condition,
  and with the disk available the file holds the document without
  conditions. *)
Theorem cancelDelay_opens_gate self now s :
areConditionsSatisfied parseInt Date_parse self now (cancelDelay s).2 = true ∧
cancelDelay s = setMultiDelay [] s ∧
(writesSucceed s → ∃ fs,
   cancelDelay s = (Ok tt, setDisk fs (clearDelayConditions s)) ∧
   (is_Some (data s) → storageFile fs = data (clearDelayConditions s))).
Proof.
assert (Hsame : cancelDelay s = setMultiDelay [] s) by reflexivity.
destruct (setMultiDelay_run [] s) as (r & fs & Hrun & Hok).
split; [|split; [done|]].
- rewrite Hsame, Hrun. simpl. unfold areConditionsSatisfied.
  rewrite getDelayConditions_setDisk, getDelayConditions_set.
  by destruct (data s).
- intros Hw. destruct (Hok Hw) as (-> & Hfile). exists fs.
  by rewrite Hsame, Hrun.
Qed.

(** X21.  The background condition measures from the first [onBackground]
  since the last [onForeground]: a later [onBackground] does not move the
  start, a condition of [d] milliseconds is satisfied exactly when [d]
  milliseconds have passed since the start, and [onForeground] closes every
  background condition again. *)
Theorem background_condition_elapsed self start now text d :
start ≠ 0%Z → text ≠ "" → parseInt text = Int d →
isBackgroundConditionSatisfied parseInt (onBackground start (onForeground self))
  now (Some text) = bool_decide (d ≤ now - start)%Z ∧
(∀ later, onBackground later (onBackground start (onForeground self))
          = onBackground start (onForeground self)) ∧
(∀ value, isBackgroundConditionSatisfied parseInt
            (onForeground (onBackground start (onForeground self))) now value
          = false).
Proof.
intros Hstart Htext Hparse. split; [|split].
- unfold isBackgroundConditionSatisfied, onBackground, onForeground,
    notBackgrounded. simpl.
  rewrite (bool_decide_eq_false_2 (start = 0%Z)) by done.
  rewrite (bool_decide_eq_false_2 (text = "")) by done. simpl.
  rewrite Hparse. simpl.
  destruct (decide (d ≤ now - start)%Z).
  + rewrite bool_decide_eq_false_2, bool_decide_eq_true_2 by lia. done.
  + rewrite bool_decide_eq_true_2, bool_decide_eq_false_2 by lia. done.
- intros later. unfold onBackground, onForeground, notBackgrounded. simpl.
  by rewrite (bool_decide_eq_false_2 (start = 0%Z)) by done.
- intros value. reflexivity.
Qed.

(** X22.  A stored [kill] condition is satisfied from the next app start on:
  after [onAppStart] every stored condition of kind [kill] holds, until
  [resetKillState]; when no [kill] condition is stored, [onAppStart]
  changes nothing. *)
Theorem kill_condition_after_start self now s :
(∀ c, c ∈ getDelayConditions s → kind c = kill →
      isConditionSatisfied parseInt Date_parse (onAppStart s self) now c = true ∧
      isConditionSatisfied parseInt Date_parse
        (resetKillState (onAppStart s self)) now c = false) ∧
((∀ c, c ∈ getDelayConditions s → kind c ≠ kill) → onAppStart s self = self).
Proof.
unfold onAppStart, hasKillCondition. split.
- intros c Hc Hkind.
  assert (Hex : existsb (λ c, match kind c with kill => true | _ => false end)
                  (getDelayConditions s) = true).
  { apply existsb_exists. exists c. split; [by apply list_elem_of_In|].
    by rewrite Hkind. }
  rewrite Hex. unfold isConditionSatisfied. by rewrite Hkind.
- intros Hnone.
  destruct (existsb _ (getDelayConditions s)) eqn:Hex; [|done].
  apply existsb_exists in Hex as (c & Hc%list_elem_of_In & Hk).
  destruct (kind c) eqn:Hkind; try done. by destruct (Hnone c Hc).
Qed.

End GateTheorems.

(** ** Encrypted checksums *)

Section ChecksumFacts.
Import CryptoManager.
Variable fromBase64 : string → Buffer.
Variable publicDecrypt : string → Buffer → Outcome Buffer.
Variable aes128cbc : Buffer → Buffer → Buffer → Outcome Buffer.
Variable toUtf8 : Buffer → string.

(** When [parseSessionKey] gives a key, and only then, the two fields were
  there and the RSA primitive accepted the second. *)
Lemma parseSessionKey_some self sessionKey k :
parseSessionKey fromBase64 publicDecrypt self sessionKey = Ok (Some k) ↔
∃ key ivPart keyPart,
  publicKey self = Some key ∧ key ≠ "" ∧
  split ":" sessionKey = [ivPart; keyPart] ∧
  publicDecrypt key (fromBase64 keyPart) = Ok (aesKey k) ∧
  iv k = fromBase64 ivPart.
Proof.
unfold parseSessionKey, decryptParts. split.
- destruct (publicKey self) as [key|]; simpl; [|done].
  case_bool_decide as Hkey; simpl; [done|].
  destruct (length (split ":" sessionKey) =? 2) eqn:Hlen; simpl; [|done].
  apply Nat.eqb_eq in Hlen.
  destruct (split_two _ _ Hlen) as (p0 & p1 & Hparts). rewrite Hparts. simpl.
  destruct (publicDecrypt key (fromBase64 p1)) as [recovered|e] eqn:Hrsa; [|done].
  intros [= <-]. by exists key, p0, p1.
- intros (key & p0 & p1 & -> & Hkey & -> & Hrsa & Hiv). simpl.
  rewrite bool_decide_eq_false_2 by done. simpl. rewrite Hrsa.
  destruct k as [i a]. simpl in *. by rewrite Hiv.
Qed.

Lemma parseSessionKey_returns self sessionKey :
∃ r, parseSessionKey fromBase64 publicDecrypt self sessionKey = Ok r.
Proof.
unfold parseSessionKey. destruct (publicKey self) as [key|]; simpl; [|by eexists].
destruct (negb _); [by eexists|].
destruct (decryptParts _ _ _ _); by eexists.
Qed.

(** X23.  [decryptChecksum] and [decryptSessionKey] return and do not throw,
  whatever the decoder, the RSA primitive and the cipher do.
  [decryptChecksum] returns a text exactly when a public key is set, the
  session key has two colon-separated fields, the RSA primitive recovers an
  AES key from the second, and the cipher accepts the decoded checksum
  under that key and the IV decoded from the first field; the text is the
  decrypted buffer read as UTF-8.  In every other case it returns
  [null]. *)
Theorem decryptChecksum_spec (self : t) (encryptedChecksum sessionKey : string) :
(∃ r, decryptChecksum fromBase64 publicDecrypt aes128cbc toUtf8 self
        encryptedChecksum sessionKey = Ok r) ∧
(∃ r, decryptSessionKey fromBase64 publicDecrypt self sessionKey = Ok r) ∧
∀ text,
  decryptChecksum fromBase64 publicDecrypt aes128cbc toUtf8 self
    encryptedChecksum sessionKey = Ok (Some text) ↔
  ∃ key ivPart keyPart recovered plain,
    publicKey self = Some key ∧ key ≠ "" ∧
    split ":" sessionKey = [ivPart; keyPart] ∧
    publicDecrypt key (fromBase64 keyPart) = Ok recovered ∧
    aes128cbc recovered (fromBase64 ivPart) (fromBase64 encryptedChecksum)
      = Ok plain ∧
    text = toUtf8 plain.
Proof.
split; [|split].
- unfold decryptChecksum. destruct (decryptChecksumBody _ _ _ _ _ _ _); by eexists.
- unfold decryptSessionKey.
  destruct (parseSessionKey_returns self sessionKey) as (r & ->). by eexists.
- intros text. unfold decryptChecksum, decryptChecksumBody, decryptContent.
  destruct (parseSessionKey_returns self sessionKey) as ([k|] & Hparse);
    rewrite Hparse.
  + apply parseSessionKey_some in Hparse
      as (key & p0 & p1 & Hkey & Hne & Hparts & Hrsa & Hiv).
    rewrite Hiv. split.
    * destruct (aes128cbc _ _ _) as [plain|e] eqn:Haes; [|done].
      intros [= <-]. by exists key, p0, p1, (aesKey k), plain.
    * intros (key' & p0' & p1' & recovered & plain & Hkey' & _ & Hparts'
              & Hrsa' & Haes & ->).
      rewrite Hkey in Hkey'. injection Hkey' as <-.
      rewrite Hparts in Hparts'. injection Hparts' as <- <-.
      rewrite Hrsa in Hrsa'. injection Hrsa' as <-. by rewrite Haes.
  + split; [done|].
    intros (key & p0 & p1 & recovered & plain & Hkey & Hne & Hparts & Hrsa & _).
    assert (parseSessionKey fromBase64 publicDecrypt self sessionKey
            = Ok (Some {| iv := fromBase64 p0; aesKey := recovered |})) as Hsome.
    { apply parseSessionKey_some. by exists key, p0, p1. }
    congruence.
Qed.

End ChecksumFacts.

(** ** Channels *)

Section ChannelFacts.
Import StorageManager.
Variable fetchJson : ChannelManager.Request → Outcome ChannelManager.Response.
Variable fsErrorMessage : string.
Variable self : ChannelManager.t.
Implicit Types (s : Storage).

(** A save that resolves has written the document in memory. *)
Lemma save_resolved s s' :
save s = (Ok tt, s') →
data s' = data s ∧ (is_Some (data s) → storageFile (disk s') = data s).
Proof.
unfold save, writeFile. destruct s as [[d|] fs]; simpl.
- destruct (writeFaults fs) as [|[] rest]; simpl; intros [= <-]; by split.
- intros [= <-]. split; [done|]. by intros [? ?].
Qed.

Lemma getChannel_set name s :
getChannel (setChannel name s) = match data s with Some _ => name | None => None end.
Proof. by destruct s as [[d|] ?]. Qed.

Lemma getChannel_data s s' : data s' = data s → getChannel s' = getChannel s.
Proof. unfold getChannel. by intros ->. Qed.

Lemma makeRequest_run m action channelName s :
ChannelManager.makeRequest fetchJson self m action channelName s
  = ((ChannelManager.makeRequest fetchJson self m action channelName s).1, s).
Proof. reflexivity. Qed.

(** What [setChannel] does once the remote end has answered or failed. *)
Lemma setChannel_run channelName s :
∃ r s', ChannelManager.setChannel fetchJson fsErrorMessage self channelName s
          = (Ok r, s') ∧
  (∀ e, (ChannelManager.makeRequest fetchJson self ChannelManager.POST
           (Some "set") (Some channelName) s).1 = Throw e →
        s' = s ∧
        r = {| ChannelManager.cr_status := "error";
               ChannelManager.cr_error :=
                 Some (ChannelManager.messageOf fsErrorMessage e);
               ChannelManager.cr_message := None |}) ∧
  (ChannelManager.cr_status r = "ok" ∨ ChannelManager.cr_status r = "success" →
     data s' = data (setChannel (Some channelName) s) ∧
     (is_Some (data s) → storageFile (disk s') = data s')) ∧
  (data s' = data s ∨ data s' = data (setChannel (Some channelName) s)).
Proof.
unfold ChannelManager.setChannel, try_catch.
rewrite bind_run, makeRequest_run.
destruct (ChannelManager.makeRequest fetchJson self ChannelManager.POST
            (Some "set") (Some channelName) s).1 as [response|e] eqn:Hreq.
- cbv zeta.
  destruct (bool_decide (default "ok" (ChannelManager.res_status response) = "ok")
            || bool_decide (default "ok" (ChannelManager.res_status response)
                            = "success")) eqn:Haccepted.
  + step.
    destruct (save (setChannel (Some channelName) s)) as [[[]|e] s1] eqn:Hsave.
    * rewrite bind_run, Hsave. step.
      destruct (save_resolved _ _ Hsave) as [Hdata Hfile].
      eexists _, s1. split; [done|]. split; [done|]. split; [|by right].
      intros _. split; [done|]. intros Hd. rewrite Hdata. apply Hfile.
      by destruct s as [[d|] ?].
    * rewrite bind_run, Hsave.
      assert (data s1 = data (setChannel (Some channelName) s)) as Hdata.
      { pose proof (save_data (setChannel (Some channelName) s)) as H.
        by rewrite Hsave in H. }
      eexists _, s1. split; [done|]. split; [done|]. split; [|by right].
      simpl. by intros [|].
  + step. eexists _, s. split; [done|]. split; [done|]. split; [|by left].
    simpl. apply orb_false_iff in Haccepted as [H1%bool_decide_eq_false
      H2%bool_decide_eq_false]. by intros [|].
- eexists _, s. split; [done|]. split.
  + by intros e' [= <-].
  + split; [|by left]. simpl. by intros [|].
Qed.

Lemma unsetChannel_run s :
∃ r fs, ChannelManager.unsetChannel fetchJson self s
          = (r, setDisk fs (setChannel None s)) ∧
  (writesSucceed s →
     r = Ok tt ∧ (is_Some (data s) → storageFile fs = data (setChannel None s))).
Proof.
unfold ChannelManager.unsetChannel.
assert (∀ k : unit → Async unit,
  (try_catch (ChannelManager.makeRequest fetchJson self ChannelManager.POST
                (Some "unset") None ≫= λ _, mret tt) (λ _, mret tt) ≫= k) s
  = k tt s) as ->.
{ intros k. rewrite bind_run. unfold try_catch. rewrite bind_run, makeRequest_run.
  by destruct (ChannelManager.makeRequest _ _ _ _ _ _).1. }
step.
destruct (save_run (setChannel None s)) as (r & fs & Hsave & Hok).
exists r, fs. split; [done|]. intros Hw.
destruct Hok as (-> & _ & Hfile); [by destruct s as [[d|] ?]|].
split; [done|]. intros Hd. apply Hfile. by destruct s as [[d|] ?].
Qed.

Lemma getChannel_run s :
∃ r, ChannelManager.getChannel fetchJson self s = (Ok r, s) ∧
  (∀ e, (ChannelManager.makeRequest fetchJson self ChannelManager.GET None None
           s).1 = Throw e →
        r = {| ChannelManager.gc_channel :=
                 ChannelManager.getEffectiveChannel self s;
               ChannelManager.gc_allowSet := true;
               ChannelManager.gc_status := "ok";
               ChannelManager.gc_error := None;
               ChannelManager.gc_message := None |}) ∧
  (is_Some (ChannelManager.getEffectiveChannel self s) →
     is_Some (ChannelManager.gc_channel r)).
Proof.
unfold ChannelManager.getChannel, try_catch.
rewrite bind_run, makeRequest_run.
destruct (ChannelManager.makeRequest fetchJson self ChannelManager.GET None None
            s).1 as [response|e] eqn:Hreq.
- step. eexists. split; [done|]. split; [done|]. simpl.
  by destruct (ChannelManager.res_channel response).
- step. eexists. split; [done|]. split; [|done]. by intros e' [= <-].
Qed.

End ChannelFacts.

Section ChannelTheorems.
Import StorageManager.
Variable fetchJson : ChannelManager.Request → Outcome ChannelManager.Response.
Variable fsErrorMessage : string.
Variable self : ChannelManager.t.
Implicit Types (s : Storage).

(** X24.  [setChannel] never rejects.  When the request fails it reports
  status [error] with the error's message and changes nothing.  When it
  reports [ok] or [success] the channel is stored in memory and the storage
  file holds the document: a rejected save turns the report into [error].
  The document after the call is the one before, or that one with the new
  channel. *)
Theorem setChannel_spec (channelName : string) s :
∃ r s', ChannelManager.setChannel fetchJson fsErrorMessage self channelName s
          = (Ok r, s') ∧
  (∀ e, (ChannelManager.makeRequest fetchJson self ChannelManager.POST
           (Some "set") (Some channelName) s).1 = Throw e →
        s' = s ∧
        r = {| ChannelManager.cr_status := "error";
               ChannelManager.cr_error :=
                 Some (ChannelManager.messageOf fsErrorMessage e);
               ChannelManager.cr_message := None |}) ∧
  (ChannelManager.cr_status r = "ok" ∨ ChannelManager.cr_status r = "success" →
     is_Some (data s) →
     getChannel s' = Some channelName ∧ storageFile (disk s') = data s') ∧
  (data s' = data s ∨ data s' = data (setChannel (Some channelName) s)).
Proof.
destruct (setChannel_run fetchJson fsErrorMessage self channelName s)
  as (r & s' & Hrun & Hfail & Hok & Hdata).
exists r, s'. split; [done|]. split; [done|]. split; [|done].
intros Hstatus Hd. destruct (Hok Hstatus) as [Hdata' Hfile].
split; [|by apply Hfile].
rewrite (getChannel_data _ _ Hdata'), getChannel_set. by destruct Hd as [d ->].
Qed.

(** X25.  [unsetChannel] clears the stored channel whatever the remote end
  and the disk do, so that the effective channel is the default one; with
  the disk available it resolves, also when the request fails, and the
  storage file holds the document without a channel. *)
Theorem unsetChannel_spec s :
getChannel (ChannelManager.unsetChannel fetchJson self s).2 = None ∧
ChannelManager.getEffectiveChannel self
  (ChannelManager.unsetChannel fetchJson self s).2
  = ChannelManager.defaultChannel self ∧
(writesSucceed s → ∃ fs,
   ChannelManager.unsetChannel fetchJson self s
     = (Ok tt, setDisk fs (setChannel None s)) ∧
   (is_Some (data s) → storageFile fs = data (setChannel None s))).
Proof.
destruct (unsetChannel_run fetchJson self s) as (r & fs & Hrun & Hok).
assert (getChannel (ChannelManager.unsetChannel fetchJson self s).2 = None)
  as Hnone.
{ rewrite Hrun. simpl.
  change (getChannel (setDisk fs (setChannel None s)))
    with (getChannel (setChannel None s)).
  rewrite getChannel_set. by destruct (data s). }
split; [done|]. split.
- unfold ChannelManager.getEffectiveChannel. by rewrite Hnone.
- intros Hw. destruct (Hok Hw) as [-> Hfile]. by exists fs.
Qed.

(** X26.  [getChannel] never rejects and changes nothing.  When the request
  fails it answers from the local state: the stored channel, else the
  default one, with [allowSet] true and status [ok].  A channel named by
  the remote end is the one returned; and whatever the remote end answers,
  when there is a stored or a default channel the channel returned is
  defined (a string, which may be the empty one, never [undefined]). *)
Theorem getChannel_spec s :
∃ r, ChannelManager.getChannel fetchJson self s = (Ok r, s) ∧
  (∀ e, (ChannelManager.makeRequest fetchJson self ChannelManager.GET None None
           s).1 = Throw e →
        r = {| ChannelManager.gc_channel :=
                 ChannelManager.getEffectiveChannel self s;
               ChannelManager.gc_allowSet := true;
               ChannelManager.gc_status := "ok";
               ChannelManager.gc_error := None;
               ChannelManager.gc_message := None |}) ∧
  (∀ response,
     (ChannelManager.makeRequest fetchJson self ChannelManager.GET None None
        s).1 = Ok response →
     ∀ name, ChannelManager.res_channel response = Some name →
             ChannelManager.gc_channel r = Some name) ∧
  (is_Some (ChannelManager.getEffectiveChannel self s) →
     is_Some (ChannelManager.gc_channel r)).
Proof.
destruct (getChannel_run fetchJson self s) as (r & Hrun & Hlocal & Hsome).
exists r. split; [done|]. split; [done|]. split; [|done].
intros response Hresponse name Hname. revert Hrun.
unfold ChannelManager.getChannel, try_catch.
rewrite bind_run, makeRequest_run, Hresponse. step.
intros [= <-]. simpl. by rewrite Hname.
Qed.

(** X27.  A channel that [setChannel] reported as set outlives the network
  and the process: a [getChannel] whose request fails answers with that
  channel, and the document a later process loads from the storage file
  holds it. *)
Theorem channel_set_survives (uuid channelName : string) s r s' :
is_Some (data s) →
ChannelManager.setChannel fetchJson fsErrorMessage self channelName s = (Ok r, s') →
ChannelManager.cr_status r = "ok" ∨ ChannelManager.cr_status r = "success" →
(∀ e, (ChannelManager.makeRequest fetchJson self ChannelManager.GET None None
         s').1 = Throw e →
      ∃ g, ChannelManager.getChannel fetchJson self s' = (Ok g, s') ∧
           ChannelManager.gc_channel g = Some channelName) ∧
channel (manifest (loadStorage uuid (disk s'))) = Some channelName.
Proof.
intros Hd Hrun Hstatus.
destruct (setChannel_run fetchJson fsErrorMessage self channelName s)
  as (r0 & s0 & Hrun0 & _ & Hok & _).
rewrite Hrun in Hrun0. injection Hrun0 as <- <-.
destruct (Hok Hstatus) as [Hdata Hfile]. specialize (Hfile Hd).
assert (getChannel s' = Some channelName) as Hchannel.
{ rewrite (getChannel_data _ _ Hdata), getChannel_set. by destruct Hd as [d ->]. }
split.
- intros e He.
  destruct (getChannel_run fetchJson self s') as (g & Hg & Hlocal & _).
  exists g. split; [done|]. rewrite (Hlocal e He). simpl.
  unfold ChannelManager.getEffectiveChannel. by rewrite Hchannel.
- unfold loadStorage. rewrite Hfile.
  unfold getChannel in Hchannel. by destruct (data s').
Qed.

End ChannelTheorems.

(** ** Custom ids *)

Section DeviceTheorems.
Import StorageManager.
Variable trim : string → string.
Variable self : DeviceManager.t.
Implicit Types (s : Storage).

Lemma getCustomId_set custom s :
getCustomId (setCustomId custom s)
  = match data s with Some _ => custom | None => None end.
Proof. by destruct s as [[d|] ?]. Qed.

(** X28.  [setCustomId] stores the trimmed id in memory whatever the disk
  does.  When custom ids are persisted and the disk is available it
  resolves with the storage file holding the document.  When they are not
  persisted it resolves without touching the disk; the id is then part of
  the document in memory, and the next save of the storage manager that
  resolves, by whichever manager, writes it to the storage file, from where
  a later process loads it. *)
Theorem setCustomId_spec (uuid newId : string) s :
trim newId ≠ "" → is_Some (data s) →
getCustomId (DeviceManager.setCustomId trim self newId s).2
  = Some (trim newId) ∧
(DeviceManager.persistCustomId self = true → writesSucceed s →
   ∃ fs, DeviceManager.setCustomId trim self newId s
           = (Ok tt, setDisk fs (setCustomId (Some (trim newId)) s)) ∧
         customId (manifest (loadStorage uuid fs)) = Some (trim newId)) ∧
(DeviceManager.persistCustomId self = false →
   DeviceManager.setCustomId trim self newId s
     = (Ok tt, setCustomId (Some (trim newId)) s) ∧
   disk (setCustomId (Some (trim newId)) s) = disk s ∧
   ∀ s', save (setCustomId (Some (trim newId)) s) = (Ok tt, s') →
         customId (manifest (loadStorage uuid (disk s')))
         = Some (trim newId)).
Proof.
intros Htrim [d Hd]. unfold DeviceManager.setCustomId.
rewrite (bool_decide_eq_false_2 (trim newId = "")) by done.
assert (Hmem : getCustomId (setCustomId (Some (trim newId)) s)
               = Some (trim newId)).
{ by rewrite getCustomId_set, Hd. }
assert (Hfile : ∀ fs, storageFile fs = data (setCustomId (Some (trim newId)) s) →
          customId (manifest (loadStorage uuid fs)) = Some (trim newId)).
{ intros fs Hfs. unfold loadStorage. rewrite Hfs.
  unfold getCustomId in Hmem. by destruct (data (setCustomId _ s)). }
destruct (DeviceManager.persistCustomId self) eqn:Hpersist.
- step.
  destruct (save_run (setCustomId (Some (trim newId)) s))
    as (r & fs & Hsave & Hok).
  split; [by rewrite Hsave|]. split; [|done].
  intros _ Hw. destruct Hok as (-> & _ & Hdoc); [by destruct s as [[?|] ?]|].
  exists fs. split; [done|]. apply Hfile, Hdoc. by destruct s as [[?|] ?].
- split; [done|]. split; [done|]. intros _.
  split; [done|]. split; [by destruct s as [[?|] ?]|].
  intros s' Hsave.
  destruct (save_resolved _ _ Hsave) as [_ Hdoc]. apply Hfile, Hdoc.
  by destruct s as [[?|] ?].
Qed.

(** X29.  Setting a custom id that is empty or blank clears it:
  [setCustomId] with such an id does what [clearCustomId] does, in memory
  and on disk. *)
Theorem setCustomId_blank_clears (newId : string) s :
trim newId = "" →
DeviceManager.setCustomId trim self newId s
  = DeviceManager.clearCustomId self s ∧
getCustomId (DeviceManager.clearCustomId self s).2 = None.
Proof.
intros Htrim. unfold DeviceManager.setCustomId, DeviceManager.clearCustomId.
rewrite (bool_decide_eq_true_2 (trim newId = "")) by done.
destruct (DeviceManager.persistCustomId self); step.
- split; [done|]. unfold getCustomId. rewrite save_data.
  by destruct s as [[?|] ?].
- split; [done|]. simpl. rewrite getCustomId_set. by destruct (data s).
Qed.

End DeviceTheorems.

(** ** Resetting *)

Section ResetTheorems.
Import StorageManager.
Variable self : BundleManager.t.
Implicit Types (s : Storage).

(** X30.  With the disk available [reset] resolves, makes the target current
  (the builtin id, or with [toLastSuccessful] the last successful id, the
  builtin id when there is none) and clears the queue; the bundle map, the
  last successful id and the failed-update record stay.  The target is
  neither looked up nor checked: [current()] then resolves the stored
  bundle of the target, whatever its status, and the builtin descriptor
  when the target is the builtin id or is not stored. *)
Theorem reset_spec (toLastSuccessful : bool) s :
writesSucceed s →
∃ s', BundleManager.reset toLastSuccessful s = (Ok tt, s') ∧
  getCurrentBundleId s'
    = (if toLastSuccessful then rollbackTarget s else BUILTIN_BUNDLE_ID) ∧
  getNextBundleId s' = None ∧
  (∀ k, getBundle k s' = getBundle k s) ∧
  getLastSuccessfulBundleId s' = getLastSuccessfulBundleId s ∧
  getFailedUpdate s' = getFailedUpdate s ∧
  BundleManager.current self s'
    = (Ok {| cur_bundle :=
               if bool_decide (getCurrentBundleId s' = BUILTIN_BUNDLE_ID)
               then BundleManager.getBuiltinBundle self
               else default (BundleManager.getBuiltinBundle self)
                      (getBundle (getCurrentBundleId s') s);
             native := BundleManager.builtinVersion self |}, s').
Proof.
intros Hw. unfold BundleManager.reset. step. cbv zeta.
set (targetId := if toLastSuccessful
                 then default BUILTIN_BUNDLE_ID (getLastSuccessfulBundleId s)
                 else BUILTIN_BUNDLE_ID).
destruct (save_ok (setNextBundleId None (setCurrentBundleId targetId s)))
  as (fs & Hsave & _).
{ revert Hw. unfold writesSucceed. by destruct s as [[d|] ?]. }
rewrite Hsave. eexists. split; [done|].
assert (Hcur : getCurrentBundleId
          (setDisk fs (setNextBundleId None (setCurrentBundleId targetId s)))
        = if toLastSuccessful then rollbackTarget s else BUILTIN_BUNDLE_ID).
{ unfold rollbackTarget. subst targetId.
  destruct s as [[d|] ?]; [done|]. by destruct toLastSuccessful. }
assert (Hmap : ∀ k, getBundle k
          (setDisk fs (setNextBundleId None (setCurrentBundleId targetId s)))
        = getBundle k s).
{ intros k. by destruct s as [[d|] ?]. }
split; [done|]. split; [by destruct s as [[d|] ?]|]. split; [done|].
split; [by destruct s as [[d|] ?]|]. split; [by destruct s as [[d|] ?]|].
unfold BundleManager.current. step.
case_bool_decide; step; [done|]. by rewrite Hmap.
Qed.

End ResetTheorems.

(** * The further theorems at work on the device *)

(** Marking [b2], which is neither current nor queued: its entry is marked
    or gone, and it is gone. *)
Lemma calls_only_mark_or_delete_witness :
  (StorageManager.getBundle "b2"
     (stateAfter manager (CallSetBundleError "b2" true) downloadedB2)
   = StorageManager.getBundle "b2" downloadedB2
   ∨ StorageManager.getBundle "b2"
       (stateAfter manager (CallSetBundleError "b2" true) downloadedB2)
     = markError <$> StorageManager.getBundle "b2" downloadedB2
   ∨ StorageManager.getBundle "b2"
       (stateAfter manager (CallSetBundleError "b2" true) downloadedB2) = None) ∧
  StorageManager.getBundle "b2"
    (stateAfter manager (CallSetBundleError "b2" true) downloadedB2) = None.
Proof.
  split; [|vm_compute; reflexivity].
  apply (calls_only_mark_or_delete manager (CallSetBundleError "b2" true)
           downloadedB2 "b2").
  - vm_compute. reflexivity.
  - split; [vm_compute; reflexivity|].
    split; intros x Hx; vm_compute in Hx; discriminate.
Defined.

Lemma calls_keep_keys_witness :
  keyedById (stateAfter manager CallRollback activatedB1) ∧
  plainIds (stateAfter manager CallRollback activatedB1).
Proof.
  apply (calls_keep_keys manager CallRollback activatedB1).
  - exact I.
  - split; [vm_compute; reflexivity|].
    split; intros x Hx; vm_compute in Hx; discriminate.
  - apply keyedById_decide. vm_compute. exact I.
Defined.

Lemma calls_keep_queued_stored_witness :
  queuedIsStored queuedB1 ∧
  queuedIsStored (stateAfter manager (CallCleanup false) queuedB1).
Proof.
  assert (queuedIsStored queuedB1) as Hqueued.
  { intros n Hn. vm_compute in Hn. injection Hn as <-. exists b1.
    vm_compute. reflexivity. }
  split; [exact Hqueued|].
  exact (calls_keep_queued_stored manager (CallCleanup false) queuedB1 Hqueued).
Defined.


(** An id that was never downloaded is refused; [b1] is activated. *)
Lemma set_spec_witness :
  (∃ message,
     BundleManager.set manager "b9" downloadedB1
       = (Throw (Error message), downloadedB1)) ∧
  ∃ s', BundleManager.set manager "b1" downloadedB1 = (Ok b1, s') ∧
    StorageManager.getCurrentBundleId s' = "b1" ∧
    StorageManager.getNextBundleId s' = None.
Proof.
  split.
  - pose proof (set_spec manager downloadedB1 "b9") as Hset. cbv zeta in Hset.
    destruct Hset as [Hrefused _]. apply Hrefused.
    + discriminate.
    + left. split; vm_compute; reflexivity.
  - pose proof (set_spec manager downloadedB1 "b1") as Hset. cbv zeta in Hset.
    destruct Hset as [_ Haccepted].
    destruct Haccepted as (s' & Hrun & Hcurrent & Hqueue & _).
    + right. split; [exists b1; vm_compute; reflexivity|reflexivity].
    + unfold writesSucceed. vm_compute. constructor.
    + exists s'. split; [exact Hrun|]. split; [exact Hcurrent|exact Hqueue].
Defined.

Lemma applyPendingUpdate_spec_witness :
  ∃ s', BundleManager.applyPendingUpdate manager queuedB1
          = (Ok {| applied := true; bundleId := "b1" |}, s') ∧
    StorageManager.getCurrentBundleId s' = "b1" ∧
    StorageManager.getNextBundleId s' = None.
Proof.
  destruct (applyPendingUpdate_spec manager queuedB1 "b1")
    as (r & s' & Hrun & Hqueue & Hcase).
  - vm_compute. reflexivity.
  - discriminate.
  - vm_compute. discriminate.
  - unfold writesSucceed. vm_compute. constructor.
  - change (StorageManager.getBundle "b1" queuedB1) with (Some b1) in Hcase.
    change (verifyBundleIntegrity (BundleManager.downloadManager manager) "b1"
              queuedB1) with true in Hcase.
    destruct Hcase as (-> & Hcurrent & _).
    exists s'. split; [exact Hrun|]. split; [exact Hcurrent|exact Hqueue].
Defined.

(** Marking is refused when not allowed, and for an id that was never
    downloaded; allowed, [b1] is marked and, being neither current nor
    queued, deleted. *)
Lemma setBundleError_spec_witness :
  (∃ message,
     BundleManager.setBundleError manager "b1" false downloadedB1
       = (Throw (Error message), downloadedB1)) ∧
  (∃ message,
     BundleManager.setBundleError manager "b9" true downloadedB1
       = (Throw (Error message), downloadedB1)) ∧
  ∃ s', BundleManager.setBundleError manager "b1" true downloadedB1
          = (Ok (markError b1), s') ∧
    StorageManager.getBundle "b1" s' = None.
Proof.
  pose proof (setBundleError_spec manager downloadedB1 "b1" false) as Hrefused.
  pose proof (setBundleError_spec manager downloadedB1 "b9" true) as Hunknown.
  pose proof (setBundleError_spec manager downloadedB1 "b1" true) as Hmarked.
  cbv zeta in Hrefused, Hunknown, Hmarked.
  split; [|split].
  - destruct Hrefused as [Hrefused _]. apply Hrefused. left. reflexivity.
  - destruct Hunknown as [Hunknown _]. apply Hunknown. right.
    split; vm_compute; reflexivity.
  - destruct Hmarked as [_ Hmarked].
    destruct (Hmarked b1) as (s' & Hrun & Hentry & _).
    + reflexivity.
    + vm_compute. reflexivity.
    + unfold writesSucceed. vm_compute. constructor.
    + exists s'. split; [exact Hrun|exact Hentry].
Defined.

Lemma queue_then_activate_witness :
  ∃ s1 s2,
    BundleManager.next manager "b1" downloadedB1 = (Ok b1, s1) ∧
    BundleManager.applyPendingUpdate manager s1
      = (Ok {| applied := true; bundleId := "b1" |}, s2) ∧
    StorageManager.getCurrentBundleId s2 = "b1" ∧
    StorageManager.getNextBundleId s2 = None ∧
    StorageManager.getBundle "b1" s2 = Some b1.
Proof.
  apply (queue_then_activate manager downloadedB1 "b1" b1).
  - vm_compute. reflexivity.
  - reflexivity.
  - discriminate.
  - vm_compute. discriminate.
  - unfold writesSucceed. vm_compute. constructor.
  - reflexivity.
  - reflexivity.
Defined.

Lemma failed_update_read_once_witness :
  (BundleManager.getFailedUpdate (BundleManager.rollback manager activatedB1).2).1
    = Ok (Some {| bundle := markError b1 |}).
Proof.
  destruct (failed_update_read_once manager activatedB1) as [_ Hread].
  apply Hread. vm_compute. reflexivity.
Defined.

(** [b2] fails after [b1], the last successful bundle, was deleted as the
    previous one: the rollback lands on the id of [b1] and the builtin
    descriptor is what runs. *)
Lemma rollback_onto_deleted_bundle_witness :
  ∃ s', BundleManager.rollback manager activatedB2
          = (Ok (BundleManager.getBuiltinBundle manager), s') ∧
    StorageManager.getCurrentBundleId s' = "b1" ∧
    StorageManager.getBundle "b1" s' = None ∧
    BundleManager.current manager s'
      = (Ok {| cur_bundle := BundleManager.getBuiltinBundle manager;
               native := BundleManager.builtinVersion manager |}, s').
Proof.
  apply (rollback_onto_deleted_bundle manager activatedB2 "b1").
  - unfold writesSucceed. vm_compute. constructor.
  - vm_compute. reflexivity.
  - discriminate.
  - vm_compute. reflexivity.
Defined.

(** The directory without an entry goes, the directory of [b1] stays. *)
Lemma cleanupOrphanedBundles_spec_witness :
  ∃ fs, StorageManager.cleanupOrphanedBundles false orphanedB2
          = (Ok tt, StorageManager.setDisk fs orphanedB2) ∧
    ("b1" ∈ bundleDirs fs ∧ ("b2" ∈ bundleDirs fs → False)).
Proof.
  destruct (cleanupOrphanedBundles_spec false orphanedB2)
    as (fs & Hrun & _ & _ & _ & Hexact).
  exists fs. split; [exact Hrun|].
  assert (removalsSucceed orphanedB2) as Hrm.
  { unfold removalsSucceed. vm_compute. constructor. }
  split.
  - apply (Hexact eq_refl Hrm). split.
    + apply (bool_decide_unpack ("b1" ∈ bundleDirs (disk orphanedB2))).
      vm_compute. exact I.
    + exists b1. vm_compute. reflexivity.
  - intros Hin. apply (Hexact eq_refl Hrm) in Hin as [_ [b Hb]].
    vm_compute in Hb. discriminate.
Defined.

(** After the rollback [b1] is an [error] bundle that is no longer current:
    the clean-up removes its entry. *)
Lemma cleanup_spec_witness :
  ∃ s', BundleManager.cleanup manager false rolledBackB1 = (Ok tt, s') ∧
    StorageManager.getBundle "b1" s' = None.
Proof.
  destruct (cleanup_spec manager false rolledBackB1) as (s' & Hrun & _ & _ & Hmap).
  - apply keyedById_decide. vm_compute. exact I.
  - exists s'. split; [exact Hrun|]. rewrite (Hmap "b1"). vm_compute. reflexivity.
Defined.

(** A condition on native version 1.2 holds on the host at 1.2.0 and still
    holds after the host went to 1.10. *)
Lemma version_condition_monotone_witness :
  DelayManager.isVersionConditionSatisfied parseDecimal updatedHost (Some "1.2")
    = true.
Proof.
  apply (version_condition_monotone parseDecimal host updatedHost (Some "1.2")).
  - vm_compute. reflexivity.
  - vm_compute. discriminate.
Defined.

Lemma compareVersions_trailing_zero_witness :
  DelayManager.compareVersions parseDecimal ("1.2" +:+ ".0") "1.10"
    = DelayManager.compareVersions parseDecimal "1.2" "1.10" ∧
  DelayManager.compareVersions parseDecimal "1.2" ("1.10" +:+ ".0")
    = DelayManager.compareVersions parseDecimal "1.2" "1.10".
Proof.
  apply (compareVersions_trailing_zero parseDecimal "1.2" "1.10"). reflexivity.
Defined.

(** Open on New Year's Day 2025, open a year later. *)
Lemma gate_stays_open_witness :
  DelayManager.areConditionsSatisfied parseDecimal parseKnownDate host
    1767225600000 delayedUntilNewYear = true.
Proof.
  apply (gate_stays_open parseDecimal parseKnownDate host 1735689600000
           1767225600000 delayedUntilNewYear).
  - vm_compute. discriminate.
  - vm_compute. reflexivity.
Defined.

(** The conditions are stored and close the gate before the date. *)
Lemma setMultiDelay_spec_witness :
  StorageManager.getDelayConditions
    (DelayManager.setMultiDelay [untilNewYear] firstLaunch).2 = [untilNewYear] ∧
  DelayManager.areConditionsSatisfied parseDecimal parseKnownDate host 0
    (DelayManager.setMultiDelay [untilNewYear] firstLaunch).2 = false.
Proof.
  destruct (setMultiDelay_spec parseDecimal parseKnownDate host 0 [untilNewYear]
              firstLaunch) as (r & fs & _ & _ & Hstored & _).
  destruct Hstored as [Hconditions Hgate].
  - eexists. reflexivity.
  - split; [exact Hconditions|]. rewrite Hgate. vm_compute. reflexivity.
Defined.

(** Ten minutes asked, backgrounded at 1000: closed after five minutes, open
    after ten. *)
Lemma background_condition_elapsed_witness :
  DelayManager.isBackgroundConditionSatisfied parseDecimal
    (DelayManager.onBackground 1000 (DelayManager.onForeground host))
    301000 (Some "600000") = false ∧
  DelayManager.isBackgroundConditionSatisfied parseDecimal
    (DelayManager.onBackground 1000 (DelayManager.onForeground host))
    601000 (Some "600000") = true.
Proof.
  split.
  - destruct (background_condition_elapsed parseDecimal host 1000 301000
                "600000" 600000) as [Helapsed _].
    + discriminate.
    + discriminate.
    + vm_compute. reflexivity.
    + rewrite Helapsed. vm_compute. reflexivity.
  - destruct (background_condition_elapsed parseDecimal host 1000 601000
                "600000" 600000) as [Helapsed _].
    + discriminate.
    + discriminate.
    + vm_compute. reflexivity.
    + rewrite Helapsed. vm_compute. reflexivity.
Defined.

Lemma kill_condition_after_start_witness :
  DelayManager.isConditionSatisfied parseDecimal parseKnownDate
    (DelayManager.onAppStart delayedUntilKilled host) 0 untilKilled = true ∧
  DelayManager.onAppStart delayedUntilNewYear host = host.
Proof.
  split.
  - destruct (kill_condition_after_start parseDecimal parseKnownDate host 0
                delayedUntilKilled) as [Hkill _].
    destruct (Hkill untilKilled) as [Hsatisfied _].
    + apply list_elem_of_here.
    + reflexivity.
    + exact Hsatisfied.
  - destruct (kill_condition_after_start parseDecimal parseKnownDate host 0
                delayedUntilNewYear) as [_ Hnone].
    apply Hnone. intros c Hc.
    change (StorageManager.getDelayConditions delayedUntilNewYear)
      with [untilNewYear] in Hc.
    apply list_elem_of_singleton in Hc as ->. discriminate.
Defined.

Lemma decryptChecksum_spec_witness :
  CryptoManager.decryptChecksum bytesOf rsaIdentity aesIdentity textOf
    {| CryptoManager.publicKey := Some "PEM" |} "abc" "iv:key" = Ok (Some "abc").
Proof.
  destruct (decryptChecksum_spec bytesOf rsaIdentity aesIdentity textOf
              {| CryptoManager.publicKey := Some "PEM" |} "abc" "iv:key")
    as (_ & _ & Htext).
  apply Htext. exists "PEM", "iv", "key", (bytesOf "key"), (bytesOf "abc").
  repeat split. discriminate.
Defined.

(** The remote end accepts and the disk works: status [ok], and the channel
    is stored. *)
Lemma setChannel_spec_witness :
  ∃ r s', ChannelManager.setChannel acceptsPosts "EACCES" channels "beta" firstLaunch
            = (Ok r, s') ∧
    ChannelManager.cr_status r = "ok" ∧
    StorageManager.getChannel s' = Some "beta" ∧ storageFile (disk s') = data s'.
Proof.
  destruct (setChannel_spec acceptsPosts "EACCES" channels "beta" firstLaunch)
    as (r & s' & Hrun & _ & Hstored & _).
  assert (ChannelManager.cr_status r = "ok") as Hstatus.
  { vm_compute in Hrun. injection Hrun as <- _. reflexivity. }
  exists r, s'. split; [exact Hrun|]. split; [exact Hstatus|].
  apply Hstored; [left; exact Hstatus|]. eexists. reflexivity.
Defined.

Lemma channel_set_survives_witness :
  ∃ r s' g,
    ChannelManager.setChannel acceptsPosts "EACCES" channels "beta" firstLaunch
      = (Ok r, s') ∧
    ChannelManager.getChannel acceptsPosts channels s' = (Ok g, s') ∧
    ChannelManager.gc_channel g = Some "beta" ∧
    channel (manifest (StorageManager.loadStorage "device-2" (disk s')))
      = Some "beta".
Proof.
  destruct (ChannelManager.setChannel acceptsPosts "EACCES" channels "beta"
              firstLaunch) as [[r|e] s'] eqn:Hrun; [|vm_compute in Hrun; discriminate].
  destruct (channel_set_survives acceptsPosts "EACCES" channels "device-2" "beta"
              firstLaunch r s') as [Hoffline Hfile].
  - eexists. reflexivity.
  - exact Hrun.
  - left. vm_compute in Hrun. injection Hrun as <- _. reflexivity.
  - destruct (Hoffline (Error "fetch failed")) as (g & Hg & Hchannel); [reflexivity|].
    exists r, s', g. split; [reflexivity|]. split; [exact Hg|].
    split; [exact Hchannel|exact Hfile].
Defined.

(** The id is kept in memory only, and the next save writes it. *)
Lemma setCustomId_spec_witness :
  DeviceManager.setCustomId trimSpaces memoryOnly " tester-7 " firstLaunch
    = (Ok tt, StorageManager.setCustomId (Some "tester-7") firstLaunch) ∧
  disk (StorageManager.setCustomId (Some "tester-7") firstLaunch) = disk firstLaunch ∧
  customId (manifest (StorageManager.loadStorage "device-2"
    (disk (DelayManager.cancelDelay
             (StorageManager.setCustomId (Some "tester-7") firstLaunch)).2)))
    = Some "tester-7".
Proof.
  destruct (setCustomId_spec trimSpaces memoryOnly "device-2" " tester-7 "
              firstLaunch) as (_ & _ & Hmemory).
  - vm_compute. discriminate.
  - eexists. reflexivity.
  - destruct (Hmemory eq_refl) as (Hrun & Hdisk & Hsaved).
    split; [exact Hrun|]. split; [exact Hdisk|]. vm_compute. reflexivity.
Defined.

Lemma setCustomId_blank_clears_witness :
  DeviceManager.setCustomId trimSpaces memoryOnly "   "
    (StorageManager.setCustomId (Some "tester-7") firstLaunch)
  = DeviceManager.clearCustomId memoryOnly
      (StorageManager.setCustomId (Some "tester-7") firstLaunch) ∧
  StorageManager.getCustomId
    (DeviceManager.clearCustomId memoryOnly
       (StorageManager.setCustomId (Some "tester-7") firstLaunch)).2 = None.
Proof.
  apply (setCustomId_blank_clears trimSpaces memoryOnly "   "). reflexivity.
Defined.

(** Back to [b1], the last successful bundle, from [b2]; [b1] was deleted
    when [b2] was set, so the builtin descriptor is what runs. *)
Lemma reset_spec_witness :
  ∃ s', BundleManager.reset true activatedB2 = (Ok tt, s') ∧
    StorageManager.getCurrentBundleId s' = "b1" ∧
    BundleManager.current manager s'
      = (Ok {| cur_bundle := BundleManager.getBuiltinBundle manager;
               native := BundleManager.builtinVersion manager |}, s').
Proof.
  destruct (reset_spec manager true activatedB2)
    as (s' & Hrun & Hcurrent & _ & _ & _ & _ & Hruns).
  - unfold writesSucceed. vm_compute. constructor.
  - assert (StorageManager.getCurrentBundleId s' = "b1") as Hb1.
    { rewrite Hcurrent. vm_compute. reflexivity. }
    exists s'. split; [exact Hrun|]. split; [exact Hb1|].
    rewrite Hruns, Hb1. vm_compute. reflexivity.
Defined.
